(** * mev-bot: decoders, bus boundary, V2 price-impact engine, opportunity
      detector, bus consumer, cleanup loop and lookup caches.

    A shallow embedding of the TypeScript sources of [mev-bot-server]:
    - [utils/constants.ts]                (normalizeAddress, isAddressInList)
    - [decoder/interfaces.ts]             (DecodedTransaction)
    - [decoder/v2RouterDecoder.ts]        (decodeV2RouterTx)
    - [decoder/v3RouterDecoder.ts]        (decodeV3RouterTx)
    - [decoder/universalRouterDecoder.ts] (decodeUniversalRouterFull)
    - [core/mempool.ts]                   (serializeDecodedTx, sendToKafka)
    - [services/getV2PriceImpact.ts], [services/getV2Liquidity.ts]
    - [services/opportunityDetector.ts]   (detectOpportunity)
    - the Kafka consumer                  (processTransactionMessages)
    - the cleanup task                    (cleanupExpiredTxs)
    - [utils/getToken.ts], [utils/getPools.ts] (the cache writes)

    JavaScript values are modelled as the code uses them: [bigint] is [Z],
    [number] is an IEEE-754 binary64 [float] or, where it holds an integer,
    the integer it has been rounded to ([JS.Num]), strings are [string], an
    absent/undefined property is [None].  An ethers [Result] is a list
    whose read outside its range throws. *)

From Stdlib Require Import ZArith NArith List String Ascii Bool Lia QArith Floats.
Import ListNotations.

Set Warnings "-register-all,-inexact-float".

Local Open Scope string_scope.
Local Open Scope Z_scope.

(* ================================================================== *)
(** * JavaScript primitives used by the sources *)
(* ================================================================== *)

Module JS.

(** ** [String.prototype.toLowerCase] on ASCII text (addresses are hex). *)

Definition lowerAscii (c : ascii) : ascii :=
  let n := nat_of_ascii c in
  if (65 <=? n)%nat && (n <=? 90)%nat then ascii_of_nat (n + 32) else c.

Fixpoint toLowerCase (s : string) : string :=
  match s with
  | EmptyString => EmptyString
  | String c r => String (lowerAscii c) (toLowerCase r)
  end.

(** A string is in lowercase form when [toLowerCase] leaves it unchanged. *)
Definition isLowercase (s : string) : Prop := toLowerCase s = s.

(** The same for a property that may be [undefined]. *)
Definition optLowercase (o : option string) : Prop :=
  forall s, o = Some s -> isLowercase s.

(** ** Decimal digits *)

Definition digitChar (d : N) : ascii := ascii_of_N (48 + d).

Definition charDigit (c : ascii) : option N :=
  let n := N_of_ascii c in
  if (48 <=? n)%N && (n <=? 57)%N then Some (n - 48)%N else None.

(** [fixedDigits k n]: the [k] low decimal digits of [n], most significant
    first (zero padded). *)
Fixpoint fixedDigits (k : nat) (n : N) : string :=
  match k with
  | O => EmptyString
  | S k' => String (digitChar ((n / 10 ^ N.of_nat k') mod 10)%N) (fixedDigits k' n)
  end.

(** Number of decimal digits of [n] (at least one). *)
Fixpoint countDigits (fuel : nat) (n : N) : nat :=
  match fuel with
  | O => 1%nat
  | S f => if (n <? 10)%N then 1%nat else S (countDigits f (n / 10)%N)
  end.

Definition numDigits (n : N) : nat := countDigits (N.to_nat (N.log2 n)) n.

(** Decimal numeral of a natural number, no leading zeros. *)
Definition natToString (n : N) : string := fixedDigits (numDigits n) n.

(** [BigInt.prototype.toString()] (radix 10). *)
Definition bigintToString (z : Z) : string :=
  match z with
  | Zneg p => String "-" (natToString (Npos p))
  | _ => natToString (Z.to_N z)
  end.

(** Value of a digit string read left to right with accumulator [acc];
    [None] on a character that is not a decimal digit. *)
Fixpoint parseDigitsAcc (acc : N) (s : string) : option N :=
  match s with
  | EmptyString => Some acc
  | String c r =>
      match charDigit c with
      | Some d => parseDigitsAcc (acc * 10 + d)%N r
      | None => None
      end
  end.

(** A non-empty string of decimal digits. *)
Definition parseDigits (s : string) : option N :=
  match s with
  | EmptyString => None
  | _ => parseDigitsAcc 0 s
  end.

(** [BigInt(s)] on decimal literals: optional sign and digits, the empty
    string is [0n]; [None] stands for the SyntaxError.  Radix-prefixed and
    whitespace-padded literals do not occur in the values the sources pass
    (they come from [toString()]) and are treated as errors here. *)
Definition BigInt (s : string) : option Z :=
  match s with
  | EmptyString => Some 0
  | String c r =>
      if Ascii.eqb c "-" then option_map (fun n => - Z.of_N n) (parseDigits r)
      else if Ascii.eqb c "+" then option_map Z.of_N (parseDigits r)
      else option_map Z.of_N (parseDigits s)
  end.

(** A JavaScript [number] holding a small integer, or [NaN]: what
    [parseInt(s, 16)] reads from the one or two hex digits of a command and
    from the six of a fee, which a [number] holds exactly. *)
Inductive JsInt : Type := NaN | Int (z : Z).

Definition jsIntToString (n : JsInt) : string :=
  match n with
  | NaN => "NaN"
  | Int z => bigintToString z
  end.

(** ** Integers read into a [number]

    [parseInt(s, 10)] on a decimal numeral gives the binary64 number nearest
    to the integer written, ties going to the even significand, and
    [Infinity] from [2^1024 - 2^970] on; every integer below [2^53] in
    magnitude is kept.  A difference of two such numbers is the exact
    difference rounded the same way.  [Num] holds the values these numbers
    take. *)
Inductive Num : Type :=
| Finite (z : Z)
| Infinity (negative : bool).

(** The binary64 number nearest to a positive integer [a]: above [2^53] the
    53 leading bits [q] are kept and the [e] bits [r] dropped decide the
    rounding. *)
Definition roundPositive (a : Z) : Num :=
  if a <? 2 ^ 53 then Finite a
  else
    let e := Z.log2 a - 52 in
    let q := a / 2 ^ e in
    let r := a mod 2 ^ e in
    let half := 2 ^ (e - 1) in
    let q' := if (half <? r) || ((r =? half) && Z.odd q) then q + 1 else q in
    if 2 ^ 1024 <=? q' * 2 ^ e then Infinity false else Finite (q' * 2 ^ e).

Definition negate (n : Num) : Num :=
  match n with
  | Finite z => Finite (- z)
  | Infinity negative => Infinity (negb negative)
  end.

(** The [number] of an integer. *)
Definition toNumber (z : Z) : Num :=
  match z with
  | Z0 => Finite 0
  | Zpos _ => roundPositive z
  | Zneg p => negate (roundPositive (Zpos p))
  end.

(** [a - b] for an integer [b] below [2^53] in magnitude, which a [number]
    holds exactly. *)
Definition minus (a : Num) (b : Z) : Num :=
  match a with
  | Finite z => toNumber (z - b)
  | Infinity negative => Infinity negative
  end.

(** [a > 0] *)
Definition isPositive (a : Num) : bool :=
  match a with
  | Finite z => z >? 0
  | Infinity negative => negb negative
  end.

(** [a >= 2^53] *)
Definition atLeast53 (a : Num) : Prop :=
  match a with
  | Finite z => 2 ^ 53 <= z
  | Infinity negative => negative = false
  end.

(** The same rounding by the library's [binary_normalize], to compare
    [toNumber] with on concrete integers. *)
Definition toBinary64 (z : Z) : spec_float :=
  binary_normalize prec emax z 0 false.

Definition ofBinary64 (f : spec_float) : option Num :=
  match f with
  | S754_zero _ => Some (Finite 0)
  | S754_infinity s => Some (Infinity s)
  | S754_nan => None
  | S754_finite s m e =>
      let v := if 0 <=? e then Zpos m * 2 ^ e else Zpos m / 2 ^ (- e) in
      Some (Finite (if s then - v else v))
  end.

(** ** [String.prototype.trim] for ASCII white space. *)

Definition isSpace (c : ascii) : bool :=
  let n := nat_of_ascii c in
  (n =? 32)%nat || ((9 <=? n)%nat && (n <=? 13)%nat).

Fixpoint trimStart (s : string) : string :=
  match s with
  | String c r => if isSpace c then trimStart r else s
  | EmptyString => EmptyString
  end.

(** Drops the trailing characters that satisfy [p]: a character is kept
    when it does not satisfy [p] or something is kept after it. *)
Fixpoint dropTrailing (p : ascii -> bool) (s : string) : string :=
  match s with
  | EmptyString => EmptyString
  | String c r =>
      match dropTrailing p r with
      | EmptyString => if p c then EmptyString else String c EmptyString
      | r' => String c r'
      end
  end.

Definition trim (s : string) : string := dropTrailing isSpace (trimStart s).

(** ** ethers [formatUnits(value, decimals)]

    The ethers library renders [value / 10^decimals] exactly: the whole part
    without leading zeros, and, when [decimals > 0], a point and the
    [decimals] fraction digits with trailing zeros removed but at least one
    digit kept ([formatUnits(1500000, 6) = "1.5"], [formatUnits(1, 0) = "1"],
    [formatUnits(2000000, 6) = "2.0"]). *)

Definition isZeroChar (c : ascii) : bool := Ascii.eqb c "0".

Definition trimFraction (f : string) : string :=
  match dropTrailing isZeroChar f with
  | EmptyString => "0"
  | f' => f'
  end.

Definition formatUnits (value : Z) (decimals : nat) : string :=
  let a := Z.abs_N value in
  let sign := if (value <? 0)%Z then "-" else "" in
  match decimals with
  | O => sign ++ natToString a
  | _ =>
      let scale := (10 ^ N.of_nat decimals)%N in
      sign ++ natToString (a / scale) ++ "."
           ++ trimFraction (fixedDigits decimals (a mod scale))
  end.

(** ** Reading a decimal numeral

    [parseDecimal] gives the exact rational value of a numeral of the form
    [-?digits] or [-?digits.digits]; [None] for anything else.  It is the
    yardstick for "the stored string parses as a decimal". *)

Fixpoint splitDot (s : string) : string * option string :=
  match s with
  | EmptyString => (EmptyString, None)
  | String c r =>
      if Ascii.eqb c "." then (EmptyString, Some r)
      else let (w, f) := splitDot r in (String c w, f)
  end.

Definition parseUnsignedDecimal (s : string) : option Q :=
  match splitDot s with
  | (w, None) =>
      option_map (fun n => inject_Z (Z.of_N n)) (parseDigits w)
  | (w, Some f) =>
      match parseDigits w, parseDigits f with
      | Some n, Some m =>
          let scale := (10 ^ N.of_nat (String.length f))%N in
          Some (Qmake (Z.of_N (n * scale + m)) (N.succ_pos (N.pred scale)))
      | _, _ => None
      end
  end.

Definition parseDecimal (s : string) : option Q :=
  match s with
  | EmptyString => None
  | String c r =>
      if Ascii.eqb c "-" then option_map Qopp (parseUnsignedDecimal r)
      else parseUnsignedDecimal s
  end.

(** ** [parseFloat(formatUnits(value, decimals))]

    [formatUnits] prints [value / 10^decimals] exactly and [parseFloat]
    returns the binary64 number nearest to the numeral it reads, so the
    composition is the correctly rounded quotient of the two integers. *)
Definition unitsToFloat (value : Z) (decimals : nat) : float :=
  let scale := S754_finite false (Z.to_pos (10 ^ Z.of_nat decimals)) 0 in
  match value with
  | Z0 => 0%float
  | Zpos p => SF2Prim (SFdiv prec emax (S754_finite false p 0) scale)
  | Zneg p => SF2Prim (SFdiv prec emax (S754_finite true p 0) scale)
  end.

End JS.

(* ================================================================== *)
(** * utils/constants.ts *)
(* ================================================================== *)

Module Constants.

(** [normalizeAddress]: [if (!address) return address; return
    address.toLowerCase()].  The empty string is falsy and returned as is. *)
Definition normalizeAddress (address : string) : string :=
  match address with
  | EmptyString => address
  | _ => JS.toLowerCase address
  end.

(** [normalizeAddress] applied to a value that may be [undefined]. *)
Definition normalizeAddressOpt (address : option string) : option string :=
  match address with
  | None => None
  | Some a => Some (normalizeAddress a)
  end.

Definition isAddressInList (address : string) (addressList : list string) : bool :=
  match address with
  | EmptyString => false
  | _ =>
      let normalizedAddress := normalizeAddress address in
      existsb (fun addr => String.eqb (normalizeAddress addr) normalizedAddress)
              addressList
  end.

Definition universalRouter : list string :=
  [ "0x87fd5305e6a40f378da124864b2d479c2028bd86";
    "0x1a0a18ac4becddbd6389559687d1a73d8927e416";
    "0x1906c1d672b88cd1b9ac7593301ca990f94eae07" ].

Definition v2Router : list string :=
  [ "0xd99d1c33f9fc3444f8101754abc46c52416550d1";
    "0x10ED43C718714eb63d5aA57B78B54704E256024E" ].

Definition v3Router : list string :=
  [ "0x1b81d678ffb9c0263b24a97847620c99d213eb14" ].

End Constants.

(* ================================================================== *)
(** * decoder/interfaces.ts and the parsed transaction *)
(* ================================================================== *)

Inductive RouterType : Type := v2 | v3.

Definition RouterType_eqb (a b : RouterType) : bool :=
  match a, b with
  | v2, v2 | v3, v3 => true
  | _, _ => false
  end.

(** The interface types [amountIn] as [bigint], but the decoders store
    either a [bigint] or the decimal string of one ([amountIn.toString()]). *)
Inductive Amount : Type :=
| AmtBig (z : Z)
| AmtStr (s : string).

(** [DecodedTransaction], with the properties that a decoder can leave
    [undefined] as options. *)
Record DecodedTransaction : Type := mkDecoded {
  router : string;
  method : string;
  tokenIn : option string;
  tokenOut : option string;
  amountIn : Amount;
  amountOut : string;
  deadline : option string;
  fee : option string;
  recipient : option string;
  amountOutMin : option string;
  payerIsUser : option bool;
  amountInMax : string;
  routerType : RouterType
}.

(** Outcome of ethers' [Interface.parseTransaction(tx)] under the ABI of the
    decoder that receives the transaction: it throws on calldata it cannot
    decode, returns [null] when no function of the ABI matches, and otherwise
    gives the function name with its typed arguments. *)
Inductive Parse (Call : Type) : Type :=
| ParseThrows
| ParseNull
| Parsed (call : Call).
Arguments ParseThrows {Call}.
Arguments ParseNull {Call}.
Arguments Parsed {Call} call.

(** The part of ethers' [TransactionResponse] the decoders read. *)
Record TransactionResponse (Call : Type) : Type := mkTx {
  to : option string;
  value : Z;
  parseTransaction : Parse Call
}.
Arguments mkTx {Call}.
Arguments to {Call}.
Arguments value {Call}.
Arguments parseTransaction {Call}.

Definition zeroAddress : string := "0x0000000000000000000000000000000000000000".

(** [tx?.to ?? ''] *)
Definition toOrEmpty {Call} (tx : TransactionResponse Call) : string :=
  match to tx with Some a => a | None => "" end.

(** [path[path.length - 1]] ([undefined] on an empty array). *)
Definition lastElem {A} (path : list A) : option A :=
  nth_error path (List.length path - 1).

(** [x || zeroAddress] for a string that may be [undefined]. *)
Definition orZeroAddress (x : option string) : string :=
  match x with
  | Some EmptyString | None => zeroAddress
  | Some a => a
  end.

(* ================================================================== *)
(** * decoder/v2RouterDecoder.ts *)
(* ================================================================== *)

Module V2Decoder.

(** Functions of [swapRouterV2.json] with their arguments; [feeOnTransfer]
    selects the [...SupportingFeeOnTransferTokens] twin, which shares the
    [case].  [otherMethod] is any other function of the ABI. *)
Inductive Call : Type :=
| swapExactTokensForTokens (feeOnTransfer : bool)
    (amountIn amountOutMin : Z) (path : list string) (to : string) (deadline : Z)
| swapTokensForExactTokens
    (amountOut amountInMax : Z) (path : list string) (to : string) (deadline : Z)
| swapExactETHForTokens (feeOnTransfer : bool)
    (amountOutMin : Z) (path : list string) (to : string) (deadline : Z)
| swapExactTokensForETH (feeOnTransfer : bool)
    (amountIn amountOutMin : Z) (path : list string) (to : string) (deadline : Z)
| swapETHForExactTokens
    (amountOut : Z) (path : list string) (to : string) (deadline : Z)
| swapTokensForExactETH
    (amountOut amountInMax : Z) (path : list string) (to : string) (deadline : Z)
| otherMethod (name : string).

Definition withFeeSuffix (feeOnTransfer : bool) (name : string) : string :=
  if feeOnTransfer then name ++ "SupportingFeeOnTransferTokens" else name.

(** [parsed.name] *)
Definition name (c : Call) : string :=
  match c with
  | swapExactTokensForTokens f _ _ _ _ _ => withFeeSuffix f "swapExactTokensForTokens"
  | swapTokensForExactTokens _ _ _ _ _ => "swapTokensForExactTokens"
  | swapExactETHForTokens f _ _ _ _ => withFeeSuffix f "swapExactETHForTokens"
  | swapExactTokensForETH f _ _ _ _ _ => withFeeSuffix f "swapExactTokensForETH"
  | swapETHForExactTokens _ _ _ _ => "swapETHForExactTokens"
  | swapTokensForExactETH _ _ _ _ _ => "swapTokensForExactETH"
  | otherMethod n => n
  end.

(** What a [case] returns.  Every [case] reads [path[0]], and [path] is an
    ethers [Result]: on an empty one the read throws [RangeError] and the
    [catch] returns [null]. *)
Definition returned (path : list string) (decoded : DecodedTransaction)
  : option DecodedTransaction :=
  match path with
  | [] => None
  | _ :: _ => Some decoded
  end.

Definition decodeV2RouterTx (tx : TransactionResponse Call)
  : option DecodedTransaction :=
  match parseTransaction tx with
  | ParseThrows => None                       (* catch (e) { return null } *)
  | ParseNull => None                         (* method undefined: default *)
  | Parsed c =>
      match c with
      | swapExactTokensForTokens _ amountIn amountOutMin path to deadline =>
          returned path
               {| router := toOrEmpty tx;
                  method := name c;
                  tokenIn := nth_error path 0;
                  tokenOut := lastElem path;
                  amountIn := AmtStr (JS.bigintToString amountIn);
                  amountOut := JS.bigintToString amountOutMin;
                  deadline := Some (JS.bigintToString deadline);
                  fee := Some "0";
                  recipient := Some to;
                  amountOutMin := Some (JS.bigintToString amountOutMin);
                  payerIsUser := Some true;
                  amountInMax := "0";
                  routerType := v2 |}
      | swapTokensForExactTokens amountOut amountInMax path to deadline =>
          returned path
               {| router := toOrEmpty tx;
                  method := name c;
                  tokenIn := nth_error path 0;
                  tokenOut := lastElem path;
                  amountIn := AmtBig 0;
                  amountOut := JS.bigintToString amountOut;
                  deadline := Some (JS.bigintToString deadline);
                  fee := Some "0";
                  recipient := Some to;
                  amountOutMin := Some "0";
                  payerIsUser := Some true;
                  amountInMax := JS.bigintToString amountInMax;
                  routerType := v2 |}
      | swapExactETHForTokens _ amountOutMin path to deadline =>
          let ethAmount := value tx in        (* tx?.value || BigInt(0) *)
          let wethAddress := orZeroAddress (nth_error path 0) in
          returned path
               {| router := toOrEmpty tx;
                  method := name c;
                  tokenIn := Some wethAddress;
                  tokenOut := lastElem path;
                  amountIn := AmtBig ethAmount;
                  amountOut := JS.bigintToString amountOutMin;
                  deadline := Some (JS.bigintToString deadline);
                  fee := Some "0";
                  recipient := Some to;
                  amountOutMin := Some (JS.bigintToString amountOutMin);
                  payerIsUser := Some true;
                  amountInMax := "0";
                  routerType := v2 |}
      | swapExactTokensForETH _ amountIn amountOutMin path to deadline =>
          let wethAddress := orZeroAddress (lastElem path) in
          returned path
               {| router := toOrEmpty tx;
                  method := name c;
                  tokenIn := nth_error path 0;
                  tokenOut := Some wethAddress;
                  amountIn := AmtBig amountIn;
                  amountOut := JS.bigintToString amountOutMin;
                  deadline := Some (JS.bigintToString deadline);
                  fee := Some "0";
                  recipient := Some to;
                  amountOutMin := Some (JS.bigintToString amountOutMin);
                  payerIsUser := Some true;
                  amountInMax := "0";
                  routerType := v2 |}
      | swapETHForExactTokens amountOut path to deadline =>
          let ethAmount := value tx in
          let wethAddress := orZeroAddress (nth_error path 0) in
          returned path
               {| router := toOrEmpty tx;
                  method := name c;
                  tokenIn := Some wethAddress;
                  tokenOut := lastElem path;
                  amountIn := AmtBig ethAmount;
                  amountOut := JS.bigintToString amountOut;
                  deadline := Some (JS.bigintToString deadline);
                  fee := Some "0";
                  recipient := Some to;
                  amountOutMin := Some "0";
                  payerIsUser := Some true;
                  amountInMax := "0";
                  routerType := v2 |}
      | swapTokensForExactETH amountOut amountInMax path to deadline =>
          let wethAddress := orZeroAddress (lastElem path) in
          returned path
               {| router := toOrEmpty tx;
                  method := name c;
                  tokenIn := nth_error path 0;
                  tokenOut := Some wethAddress;
                  amountIn := AmtBig amountInMax;
                  amountOut := JS.bigintToString amountOut;
                  deadline := Some (JS.bigintToString deadline);
                  fee := Some "0";
                  recipient := Some to;
                  amountOutMin := Some "0";
                  payerIsUser := Some true;
                  amountInMax := JS.bigintToString amountInMax;
                  routerType := v2 |}
      | otherMethod _ => None
      end
  end.

End V2Decoder.

(* ================================================================== *)
(** * decoder/v3RouterDecoder.ts *)
(* ================================================================== *)

Module V3Decoder.

(** Functions of [swapRouterV3.json]; each takes one struct, whose fields
    are listed.  The packed [path] is the byte array [getBytes] returns. *)
Inductive Call : Type :=
| exactInputSingle (tokenIn tokenOut : string) (fee : Z) (recipient : string)
    (deadline amountIn amountOutMinimum sqrtPriceLimitX96 : Z)
| exactOutputSingle (tokenIn tokenOut : string) (fee : Z) (recipient : string)
    (deadline amountOut amountInMaximum : Z)
| exactInput (path : list Byte.byte) (recipient : string)
    (deadline amountIn amountOutMinimum : Z)
| exactOutput (path : list Byte.byte) (recipient : string)
    (deadline amountOut amountInMaximum : Z)
| otherMethod (name : string).

Definition name (c : Call) : string :=
  match c with
  | exactInputSingle _ _ _ _ _ _ _ _ => "exactInputSingle"
  | exactOutputSingle _ _ _ _ _ _ _ => "exactOutputSingle"
  | exactInput _ _ _ _ _ => "exactInput"
  | exactOutput _ _ _ _ _ => "exactOutput"
  | otherMethod n => n
  end.

Definition hexDigit (n : N) : ascii :=
  if (n <? 10)%N then ascii_of_N (48 + n) else ascii_of_N (87 + n).

(** ethers [hexlify]: ["0x"] and two lowercase hex digits per byte. *)
Fixpoint hexBytes (bytes : list Byte.byte) : string :=
  match bytes with
  | [] => EmptyString
  | b :: r =>
      let n := Byte.to_N b in
      String (hexDigit (n / 16)) (String (hexDigit (n mod 16)) (hexBytes r))
  end.

Definition hexlify (bytes : list Byte.byte) : string := "0x" ++ hexBytes bytes.

Definition byteAt (bytes : list Byte.byte) (i : nat) : Z :=
  match nth_error bytes i with
  | Some b => Z.of_N (Byte.to_N b)
  | None => 0
  end.

Record DecodedPath : Type := mkPath {
  p_tokenIn : option string;
  p_tokenOut : option string;
  p_tokens : list string;
  p_fees : Z
}.

Section WithChecksum.

(** ethers [getAddress]: the EIP-55 mixed-case form of an address (it only
    changes the case of hex letters; the hash that selects them is not
    modelled). *)
Variable getAddress : string -> string.

(** The [while (offset + 20 <= bytes.length)] loop; [bytes] is what remains
    from [offset] on, [fuel] bounds the number of iterations. *)
Fixpoint pathLoop (fuel : nat) (bytes : list Byte.byte)
    (tokens : list string) (fees : Z) : list string * Z :=
  match fuel with
  | O => (tokens, fees)
  | S fuel' =>
      if (20 <=? List.length bytes)%nat then
        let token :=
          Constants.normalizeAddress (getAddress (hexlify (firstn 20 bytes))) in
        let tokens' := (tokens ++ [token])%list in
        let rest := skipn 20 bytes in
        if (3 <=? List.length rest)%nat then
          let fee := Z.shiftl (byteAt rest 0) 16 + Z.shiftl (byteAt rest 1) 8
                     + byteAt rest 2 in
          pathLoop fuel' (skipn 3 rest) tokens' fee
        else pathLoop fuel' rest tokens' fees
      else (tokens, fees)
  end.

Definition decodeV3Path (path : list Byte.byte) : DecodedPath :=
  let (tokens, fees) := pathLoop (S (List.length path)) path [] 0 in
  {| p_tokenIn := Constants.normalizeAddressOpt (nth_error tokens 0);
     p_tokenOut := Constants.normalizeAddressOpt (lastElem tokens);
     p_tokens := tokens;
     p_fees := fees |}.

Definition decodeV3RouterTx (tx : TransactionResponse Call)
  : option DecodedTransaction :=
  match parseTransaction tx with
  | ParseThrows => None
  | ParseNull => None
  | Parsed c =>
      match c with
      | exactInputSingle tokenIn tokenOut fee recipient deadline amountIn
                         amountOutMinimum _ =>
          Some {| router := toOrEmpty tx;
                  method := name c;
                  tokenIn := Some (Constants.normalizeAddress tokenIn);
                  tokenOut := Some (Constants.normalizeAddress tokenOut);
                  amountIn := AmtStr (JS.bigintToString amountIn);
                  amountOut := JS.bigintToString amountOutMinimum;
                  deadline := Some (JS.bigintToString deadline);
                  fee := Some (JS.bigintToString fee);
                  recipient := Some (Constants.normalizeAddress recipient);
                  amountOutMin := Some (JS.bigintToString amountOutMinimum);
                  payerIsUser := Some true;
                  amountInMax := "0";
                  routerType := v3 |}
      | exactOutputSingle tokenIn tokenOut fee recipient deadline amountOut
                          amountInMaximum =>
          Some {| router := toOrEmpty tx;
                  method := name c;
                  tokenIn := Some (Constants.normalizeAddress tokenIn);
                  tokenOut := Some (Constants.normalizeAddress tokenOut);
                  amountIn := AmtStr (JS.bigintToString amountInMaximum);
                  amountOut := JS.bigintToString amountOut;
                  deadline := Some (JS.bigintToString deadline);
                  fee := Some (JS.bigintToString fee);
                  recipient := Some (Constants.normalizeAddress recipient);
                  amountOutMin := Some (JS.bigintToString amountInMaximum);
                  payerIsUser := Some true;
                  amountInMax := "0";
                  routerType := v3 |}
      | exactInput path recipient deadline amountIn amountOutMinimum =>
          let decodedPath := decodeV3Path path in
          Some {| router := toOrEmpty tx;
                  method := name c;
                  tokenIn := Constants.normalizeAddressOpt (p_tokenIn decodedPath);
                  tokenOut := Constants.normalizeAddressOpt (p_tokenOut decodedPath);
                  amountIn := AmtStr (JS.bigintToString amountIn);
                  amountOut := "0";
                  deadline := Some (JS.bigintToString deadline);
                  fee := Some (JS.bigintToString (p_fees decodedPath));
                  recipient := Some (Constants.normalizeAddress recipient);
                  amountOutMin := Some (JS.bigintToString amountOutMinimum);
                  payerIsUser := Some true;
                  amountInMax := "0";
                  routerType := v3 |}
      | exactOutput path recipient deadline amountOut amountInMaximum =>
          let decodedPath := decodeV3Path path in
          Some {| router := toOrEmpty tx;
                  method := name c;
                  tokenIn := Constants.normalizeAddressOpt (p_tokenIn decodedPath);
                  tokenOut := Constants.normalizeAddressOpt (p_tokenOut decodedPath);
                  amountIn := AmtStr (JS.bigintToString amountInMaximum);
                  amountOut := JS.bigintToString amountOut;
                  deadline := Some (JS.bigintToString deadline);
                  fee := Some (JS.bigintToString (p_fees decodedPath));
                  recipient := Some (Constants.normalizeAddress recipient);
                  amountOutMin := Some (JS.bigintToString amountOut);
                  payerIsUser := Some true;
                  amountInMax := JS.bigintToString amountInMaximum;
                  routerType := v3 |}
      | otherMethod _ => None
      end
  end.

End WithChecksum.

End V3Decoder.

(* ================================================================== *)
(** * decoder/universalRouterDecoder.ts *)
(* ================================================================== *)

Module URDecoder.

Inductive URActionType : Type :=
| V3_EXACT_IN | V3_EXACT_OUT | V2_EXACT_IN | V2_EXACT_OUT | UNKNOWN.

Definition typeName (t : URActionType) : string :=
  match t with
  | V3_EXACT_IN => "V3_EXACT_IN"
  | V3_EXACT_OUT => "V3_EXACT_OUT"
  | V2_EXACT_IN => "V2_EXACT_IN"
  | V2_EXACT_OUT => "V2_EXACT_OUT"
  | UNKNOWN => "UNKNOWN"
  end.

Import JS (JsInt, NaN, Int, jsIntToString).

Definition hexValue (c : ascii) : option N :=
  let n := N_of_ascii c in
  if (48 <=? n)%N && (n <=? 57)%N then Some (n - 48)%N
  else if (97 <=? n)%N && (n <=? 102)%N then Some (n - 87)%N
  else if (65 <=? n)%N && (n <=? 70)%N then Some (n - 55)%N
  else None.

(** Value of the longest prefix of hex digits, [acc] holding the digits read
    so far ([None] while none was read). *)
Fixpoint hexPrefix (acc : option N) (s : string) : option N :=
  match s with
  | EmptyString => acc
  | String c r =>
      match hexValue c with
      | Some d =>
          hexPrefix (Some (match acc with Some a => a * 16 + d | None => d end)%N) r
      | None => acc
      end
  end.

(** [parseInt(s, 16)] on the text the decoder passes (hex digits, without
    sign or white space): an optional [0x] is skipped, the longest prefix of
    hex digits is read, and no digit gives [NaN]. *)
Definition parseIntHex (s : string) : JsInt :=
  let body :=
    match s with
    | String "0" (String "x" r) => r
    | String "0" (String "X" r) => r
    | _ => s
    end in
  match hexPrefix None body with
  | Some n => Int (Z.of_N n)
  | None => NaN
  end.

(** [CMD_TYPE[n] ?? 'UNKNOWN'] *)
Definition CMD_TYPE (n : JsInt) : URActionType :=
  match n with
  | Int 0 => V3_EXACT_IN
  | Int 1 => V3_EXACT_OUT
  | Int 8 => V2_EXACT_IN
  | Int 9 => V2_EXACT_OUT
  | _ => UNKNOWN
  end.

(** [path.slice(a, b)] for [0 <= a]. *)
Definition slice (a b : nat) (s : string) : string := substring a (b - a) s.

Record V3Path : Type := mkV3Path {
  vp_tokenIn : string;
  vp_tokenOut : string;
  vp_tokens : list string;
  vp_fees : JsInt
}.

(** The [while (offset + 40 <= path.length)] loop of [decodeV3Path]. *)
Fixpoint v3PathLoop (fuel : nat) (path : string) (offset : nat)
    (tokens : list string) (fees : JsInt) : list string * JsInt :=
  match fuel with
  | O => (tokens, fees)
  | S fuel' =>
      if (offset + 40 <=? String.length path)%nat then
        let token := "0x" ++ slice offset (offset + 40) path in
        let tokens' := (tokens ++ [token])%list in
        let offset' := (offset + 40)%nat in
        if (offset' + 6 <=? String.length path)%nat then
          v3PathLoop fuel' path (offset' + 6)%nat tokens'
                     (parseIntHex (slice offset' (offset' + 6) path))
        else v3PathLoop fuel' path offset' tokens' fees
      else (tokens, fees)
  end.

(** [x || ''] *)
Definition orEmpty (x : option string) : string :=
  match x with Some a => a | None => "" end.

Definition decodeV3Path (path : string) : V3Path :=
  let (tokens, fees) := v3PathLoop (S (String.length path)) path 2 [] (Int 0) in
  {| vp_tokenIn := orEmpty (nth_error tokens 0);
     vp_tokenOut := orEmpty (lastElem tokens);
     vp_tokens := tokens;
     vp_fees := fees |}.

(** [decodeV2Path]: the first two entries of the address array.  The array
    is an ethers [Result], and reading an index outside it throws
    [RangeError]: that is [None]. *)
Definition decodeV2Path (pathBytes : list string) : option (string * string) :=
  match nth_error pathBytes 0, nth_error pathBytes 1 with
  | Some tokenIn, Some tokenOut => Some (tokenIn, tokenOut)
  | _, _ => None
  end.

(** One entry of [inputs], given by what [coder.decode] returns for it under
    the two tuple types the decoder uses ([None] when it throws):
    [(address, uint256, uint256, bytes, bool)] for the V3 commands and
    [(address, uint256, uint256, address[], bool)] for the V2 commands. *)
Record Input : Type := mkInput {
  asV3Tuple : option (string * Z * Z * string * bool);
  asV2Tuple : option (string * Z * Z * list string * bool)
}.

(** [decoded.args] of [execute(commands, inputs, deadline)]; the overload
    without a deadline leaves [deadline] undefined. *)
Record Call : Type := mkCall {
  exec_commands : string;
  exec_inputs : list Input;
  exec_deadline : option Z
}.

(** The [args] object built by the four input decoders; a property the
    decoder does not set is [None] (also when [coder.decode] or
    [decodeV2Path] threw and the object is [{ raw, error }]). *)
Record Args : Type := mkArgs {
  a_recipient : option string;
  a_amountIn : option string;
  a_amountOut : option string;
  a_amountOutMinimum : option string;
  a_amountOutMin : option string;
  a_amountInMaximum : option string;
  a_amountInMax : option string;
  a_tokenIn : option string;
  a_tokenOut : option string;
  a_fees : option JsInt;
  a_payerIsUser : option bool
}.

Definition errorArgs : Args :=
  {| a_recipient := None; a_amountIn := None; a_amountOut := None;
     a_amountOutMinimum := None; a_amountOutMin := None;
     a_amountInMaximum := None; a_amountInMax := None;
     a_tokenIn := None; a_tokenOut := None; a_fees := None;
     a_payerIsUser := None |}.

Definition decodeV3ExactIn (input : option Input) : Args :=
  match input with
  | Some {| asV3Tuple := Some (recipient, amountIn, amountOutMin, pathBytes, payer) |} =>
      let p := decodeV3Path pathBytes in
      {| a_recipient := Some recipient;
         a_amountIn := Some (JS.bigintToString amountIn);
         a_amountOut := None;
         a_amountOutMinimum := Some (JS.bigintToString amountOutMin);
         a_amountOutMin := None;
         a_amountInMaximum := None; a_amountInMax := None;
         a_tokenIn := Some (vp_tokenIn p);
         a_tokenOut := Some (vp_tokenOut p);
         a_fees := Some (vp_fees p);
         a_payerIsUser := Some payer |}
  | _ => errorArgs
  end.

Definition decodeV3ExactOut (input : option Input) : Args :=
  match input with
  | Some {| asV3Tuple := Some (recipient, amountOut, amountInMax, pathBytes, payer) |} =>
      let p := decodeV3Path pathBytes in
      {| a_recipient := Some recipient;
         a_amountIn := None;
         a_amountOut := Some (JS.bigintToString amountOut);
         a_amountOutMinimum := None; a_amountOutMin := None;
         a_amountInMaximum := Some (JS.bigintToString amountInMax);
         a_amountInMax := None;
         a_tokenIn := Some (vp_tokenIn p);
         a_tokenOut := Some (vp_tokenOut p);
         a_fees := Some (vp_fees p);
         a_payerIsUser := Some payer |}
  | _ => errorArgs
  end.

Definition decodeV2ExactIn (input : option Input) : Args :=
  match input with
  | Some {| asV2Tuple := Some (recipient, amountIn, amountOutMin, pathBytes, payer) |} =>
      match decodeV2Path pathBytes with
      | Some (tIn, tOut) =>
          {| a_recipient := Some recipient;
             a_amountIn := Some (JS.bigintToString amountIn);
             a_amountOut := None;
             a_amountOutMinimum := None;
             a_amountOutMin := Some (JS.bigintToString amountOutMin);
             a_amountInMaximum := None; a_amountInMax := None;
             a_tokenIn := Some tIn;
             a_tokenOut := Some tOut;
             a_fees := None;
             a_payerIsUser := Some payer |}
      | None => errorArgs
      end
  | _ => errorArgs
  end.

Definition decodeV2ExactOut (input : option Input) : Args :=
  match input with
  | Some {| asV2Tuple := Some (recipient, amountIn, amountInMax, pathBytes, payer) |} =>
      match decodeV2Path pathBytes with
      | Some (tIn, tOut) =>
          {| a_recipient := Some recipient;
             a_amountIn := Some (JS.bigintToString amountIn);
             a_amountOut := None;
             a_amountOutMinimum := None; a_amountOutMin := None;
             a_amountInMaximum := None;
             a_amountInMax := Some (JS.bigintToString amountInMax);
             a_tokenIn := Some tIn;
             a_tokenOut := Some tOut;
             a_fees := None;
             a_payerIsUser := Some payer |}
      | None => errorArgs
      end
  | _ => errorArgs
  end.

(** [commandsStr.split(/(..)/g).filter((s) => s)]: the string cut into
    pieces of two characters, a last single character kept. *)
Fixpoint chunk2 (fuel : nat) (s : string) : list string :=
  match fuel with
  | O => []
  | S fuel' =>
      match s with
      | EmptyString => []
      | String a EmptyString => [String a EmptyString]
      | String a (String b r) => String a (String b EmptyString) :: chunk2 fuel' r
      end
  end.

Definition stripHexPrefix (commands : string) : string :=
  match commands with
  | String "0" (String "x" r) => r
  | _ => commands
  end.

(** [x ?? '0'] *)
Definition orZero (x : option string) : string :=
  match x with Some a => a | None => "0" end.

(** The object pushed for a recognized command. *)
Definition action (router : string) (type : URActionType) (args : Args)
    (deadline : option Z) (routerType : RouterType) : DecodedTransaction :=
  {| router := router;
     method := typeName type;
     tokenIn := a_tokenIn args;
     tokenOut := a_tokenOut args;
     amountIn := AmtStr (orZero (a_amountIn args));
     amountOut := orZero (a_amountOut args);
     deadline := option_map JS.bigintToString deadline;
     fee := option_map jsIntToString (a_fees args);
     recipient := a_recipient args;
     amountOutMin := a_amountOutMinimum args;
     payerIsUser := a_payerIsUser args;
     amountInMax := orZero (a_amountInMax args);
     routerType := routerType |}.

(** One iteration of the [for] loop: the swap pushed for command [cmd] with
    input [inputs[i]], or nothing for an unrecognized command. *)
Definition decodeCommand (router : string) (deadline : option Z)
    (cmd : string) (input : option Input) : option DecodedTransaction :=
  let type := CMD_TYPE (parseIntHex cmd) in
  match type with
  | V3_EXACT_IN => Some (action router type (decodeV3ExactIn input) deadline v3)
  | V3_EXACT_OUT => Some (action router type (decodeV3ExactOut input) deadline v3)
  | V2_EXACT_IN => Some (action router type (decodeV2ExactIn input) deadline v2)
  | V2_EXACT_OUT => Some (action router type (decodeV2ExactOut input) deadline v2)
  | UNKNOWN => None
  end.

(** The [for] loop from command [i] on.  [inputs] is an ethers [Result],
    and [inputs[i]] is read for every command before its type is looked
    at: a command without an input throws [RangeError] out of the decoder,
    which is [None]. *)
Fixpoint commandLoop (router : string) (deadline : option Z)
    (cmdsBytes : list string) (inputs : list Input) (i : nat)
    : option (list DecodedTransaction) :=
  match cmdsBytes with
  | [] => Some []
  | cmd :: rest =>
      match nth_error inputs i with
      | None => None
      | Some inputBytes =>
          match commandLoop router deadline rest inputs (S i) with
          | None => None
          | Some actions =>
              match decodeCommand router deadline cmd (Some inputBytes) with
              | Some a => Some (a :: actions)
              | None => Some actions
              end
          end
      end
  end.

(** What a call of [decodeUniversalRouterFull] does: it returns the actions,
    returns [null], or throws the [RangeError] of the loop. *)
Inductive Decoded : Type :=
| Actions (actions : list DecodedTransaction)
| Null
| OutOfRange.

Definition decodeUniversalRouterFull (tx : TransactionResponse Call) : Decoded :=
  match parseTransaction tx with
  | ParseThrows => Null        (* exec = { raw, error }: commands undefined *)
  | ParseNull => Null          (* decoded?.args undefined *)
  | Parsed exec =>
      match exec_commands exec with
      | EmptyString => Null    (* !commands *)
      | cmds =>
          let commandsStr := stripHexPrefix cmds in
          let cmdsBytes := chunk2 (String.length commandsStr) commandsStr in
          match commandLoop (toOrEmpty tx) (exec_deadline exec) cmdsBytes
                            (exec_inputs exec) 0 with
          | Some actions => Actions actions
          | None => OutOfRange
          end
      end
  end.

End URDecoder.

(* ================================================================== *)
(** * services/getV2PriceImpact.ts and services/getV2Liquidity.ts *)
(* ================================================================== *)

Module Engine.

(** What the pair contract answers: [getReserves()], [token0()], [token1()]. *)
Record PairState : Type := mkPair {
  reserve0 : Z;
  reserve1 : Z;
  token0 : string;
  token1 : string
}.

Record V2Impact : Type := mkImpact {
  priceImpactPercent : float;
  amountOut : Z;
  reserveIn : Z;
  reserveOut : Z
}.

(** Orientation of the reserves by [tokenIn]. *)
Definition isToken0In (pair : PairState) (tokenIn : string) : bool :=
  String.eqb (JS.toLowerCase tokenIn) (JS.toLowerCase (token0 pair)).

Definition amountInWithFee (amountIn : Z) : Z := Z.quot (amountIn * 997) 1000.

(** [getV2PriceImpact] once the three contract reads have returned [pair].
    [bigint] division truncates ([Z.quot]) and throws a RangeError on a zero
    divisor ([None]). *)
Definition getV2PriceImpact (pair : PairState) (tokenIn : string)
    (amountIn : Z) (decimalsIn decimalsOut : nat) : option V2Impact :=
  let rIn0 := if isToken0In pair tokenIn then reserve0 pair else reserve1 pair in
  let rOut0 := if isToken0In pair tokenIn then reserve1 pair else reserve0 pair in
  let withFee := amountInWithFee amountIn in
  let numerator := withFee * rOut0 in
  let denominator := rIn0 * 1000 + withFee in
  if denominator =? 0 then None
  else
    let out := Z.quot numerator denominator in
    let rIn := JS.unitsToFloat rIn0 decimalsIn in
    let rOut := JS.unitsToFloat rOut0 decimalsOut in
    let aIn := JS.unitsToFloat amountIn decimalsIn in
    let aOut := JS.unitsToFloat out decimalsOut in
    let priceBefore := (rOut / rIn)%float in
    let priceAfter := ((rOut - aOut) / (rIn + aIn))%float in
    let impact := (PrimFloat.abs (priceBefore - priceAfter) / priceBefore)%float in
    Some {| priceImpactPercent := (impact * 100)%float;
            amountOut := out;
            reserveIn := rIn0;
            reserveOut := rOut0 |}.

(** The fields of [V2LiquidityInfo] that the detector reads. *)
Record V2LiquidityInfo : Type := mkLiquidity {
  l_token0 : string;
  l_token1 : string;
  l_reserve0 : Z;
  l_reserve1 : Z;
  l_k : Z
}.

Definition getV2Liquidity (pair : PairState) : V2LiquidityInfo :=
  {| l_token0 := JS.toLowerCase (token0 pair);
     l_token1 := JS.toLowerCase (token1 pair);
     l_reserve0 := reserve0 pair;
     l_reserve1 := reserve1 pair;
     l_k := reserve0 pair * reserve1 pair |}.

End Engine.

(* ================================================================== *)
(** * services/opportunityDetector.ts *)
(* ================================================================== *)

Module Detector.

(** An awaited call either returns or throws. *)
Inductive Result (A : Type) : Type :=
| Ok (a : A)
| Throws (message : string).
Arguments Ok {A} a.
Arguments Throws {A} message.

Record TokenInfo : Type := mkToken {
  tokenAddress : string;
  tokenName : string;
  tokenSymbol : string;
  tokenDecimals : nat
}.

Record PoolInfo : Type := mkPool {
  poolAddress : string;
  pool_token0 : string;
  pool_token1 : string;
  pool_exists : bool;
  pool_routerType : string;
  pool_fee : string
}.

Definition routerTypeName (t : RouterType) : string :=
  match t with v2 => "v2" | v3 => "v3" end.

(** Everything the detector awaits: the caches, the chain reads and the
    clock.  The pair may change between the liquidity read and the impact
    read, so the two are separate. *)
Record Env : Type := mkEnv {
  (** [getToken(address)] for a string; [null] is [Ok None]. *)
  getToken : string -> Result (option TokenInfo);
  (** [getPools(tokenIn, tokenOut, router, routerType, fee)] *)
  getPools : string -> string -> string -> string -> option string
             -> Result (option PoolInfo);
  (** the contract reads of [getV2Liquidity(poolAddress)] *)
  pairAtLiquidityCheck : string -> Result Engine.PairState;
  (** the contract reads of [getV2PriceImpact(poolAddress)] *)
  pairAtImpact : string -> Result Engine.PairState;
  (** [getV3Liquidity(poolAddress).liquidity] *)
  v3Liquidity : string -> Result Z;
  (** [getV3PriceImpact(pool, tokenIn, tokenOut, fee, amountIn)]:
      [priceImpactPercent] and [amountOut] from the quoter *)
  getV3PriceImpact : string -> string -> string -> string -> Z
                     -> Result (float * Z);
  (** [Date.now()], milliseconds *)
  now : Z
}.

Record OpportunityResult : Type := mkResult {
  isOpportunity : bool;
  profitPotential : option string;
  priceImpact : option float;
  r_poolAddress : option string;
  tokenInDecimals : option nat;
  tokenOutDecimals : option nat;
  reason : option string;
  timeToSubmitSeconds : option JS.Num;
  deadlineTimestamp : option JS.Num;
  isExpired : option bool
}.

(** An early [return { isOpportunity: false, reason }]. *)
Definition rejected (why : string) : OpportunityResult :=
  {| isOpportunity := false; profitPotential := None; priceImpact := None;
     r_poolAddress := None; tokenInDecimals := None; tokenOutDecimals := None;
     reason := Some why; timeToSubmitSeconds := None;
     deadlineTimestamp := None; isExpired := None |}.

(** An early return of the liquidity gate, which also reports the pool and
    the decimals. *)
Definition rejectedAtLiquidity (why pool : string) (dIn dOut : nat)
  : OpportunityResult :=
  {| isOpportunity := false; profitPotential := None; priceImpact := None;
     r_poolAddress := Some pool; tokenInDecimals := Some dIn;
     tokenOutDecimals := Some dOut;
     reason := Some why; timeToSubmitSeconds := None;
     deadlineTimestamp := None; isExpired := None |}.

(** The outer [catch]. *)
Definition failed (message : string) : OpportunityResult :=
  rejected ("Error: " ++ message).

(** [getToken] on a property that may be undefined: [isAddress(undefined)]
    is false and [getToken] returns [null]. *)
Definition getTokenOpt (env : Env) (address : option string)
  : Result (option TokenInfo) :=
  match address with
  | Some a => getToken env a
  | None => Ok None
  end.

(** [BigInt(decodedTx.amountIn)] *)
Definition amountToBigInt (a : Amount) : option Z :=
  match a with
  | AmtBig z => Some z
  | AmtStr s => JS.BigInt s
  end.

(** Effective input amount: [amountIn], or [amountInMax] when [amountIn] is
    zero and [amountInMax] is positive.  [None] when a [BigInt(...)] throws. *)
Definition amountInToCheck (decodedTx : DecodedTransaction) : option Z :=
  match amountToBigInt (amountIn decodedTx) with
  | None => None
  | Some a =>
      if (a =? 0) && negb (String.eqb (amountInMax decodedTx) "") then
        match JS.BigInt (amountInMax decodedTx) with
        | None => None
        | Some m => Some (if m >? 0 then m else a)
        end
      else Some a
  end.

Definition MAX_LIQUIDITY_USAGE : Z := 50.
Definition MIN_RESERVE_RATIO : Z := 10.
Definition MIN_V3_LIQUIDITY : Z := 1000000000000.
(** [0.005] as a binary64 number. *)
Definition MIN_PRICE_IMPACT : float := 0x1.47ae147ae147bp-8%float.

(** The reserve on the [tokenIn] side: [reserve0] when the lowercased
    [tokenIn] is the lowercased [token0], else [reserve1]. *)
Definition reserveOfTokenIn (liquidityInfo : Engine.V2LiquidityInfo)
    (tokenInAddr : string) : Z :=
  let token0 := JS.toLowerCase (Engine.l_token0 liquidityInfo) in
  let tokenInLower := JS.toLowerCase tokenInAddr in
  if String.eqb tokenInLower token0
  then Engine.l_reserve0 liquidityInfo
  else Engine.l_reserve1 liquidityInfo.

(** Outcome of the liquidity gate: an early verdict, or go on (also after a
    read that threw, which the inner [catch] only logs). *)
Definition liquidityGate (env : Env) (decodedTx : DecodedTransaction)
    (tokenInAddr : string) (pool : PoolInfo) (dIn dOut : nat) (amount : Z)
  : option OpportunityResult :=
  if amount >? 0 then
    match routerType decodedTx with
    | v2 =>
        match pairAtLiquidityCheck env (poolAddress pool) with
        | Throws _ => None
        | Ok pairState =>
            let liquidityInfo := Engine.getV2Liquidity pairState in
            let reserveIn := reserveOfTokenIn liquidityInfo tokenInAddr in
            let maxTradeSize := Z.quot (reserveIn * MAX_LIQUIDITY_USAGE) 100 in
            if amount >? maxTradeSize then
              Some (rejectedAtLiquidity
                      ("Insufficient liquidity: trade size ("
                         ++ JS.formatUnits amount dIn
                         ++ ") > 50% of reserve ("
                         ++ JS.formatUnits reserveIn dIn ++ ")")
                      (poolAddress pool) dIn dOut)
            else if reserveIn <? amount * MIN_RESERVE_RATIO then
              Some (rejectedAtLiquidity
                      ("Low liquidity: reserve ("
                         ++ JS.formatUnits reserveIn dIn
                         ++ ") < 10x trade size ("
                         ++ JS.formatUnits amount dIn ++ ")")
                      (poolAddress pool) dIn dOut)
            else None
        end
    | v3 =>
        match v3Liquidity env (poolAddress pool) with
        | Throws _ => None
        | Ok liquidity =>
            if liquidity =? 0 then
              Some (rejectedAtLiquidity "Zero liquidity in V3 pool"
                      (poolAddress pool) dIn dOut)
            else if liquidity <? MIN_V3_LIQUIDITY then
              Some (rejectedAtLiquidity
                      ("Very low V3 liquidity: " ++ JS.bigintToString liquidity)
                      (poolAddress pool) dIn dOut)
            else None
        end
    end
  else None.

(** [priceImpact] (a fraction) and [calculatedAmountOut]; both undefined
    when the engine is not called or throws. *)
Definition computeImpact (env : Env) (decodedTx : DecodedTransaction)
    (tokenInAddr tokenOutAddr : string) (pool : PoolInfo) (dIn dOut : nat)
    (amount : Z) : option float * option Z :=
  match routerType decodedTx with
  | v2 =>
      if amount >? 0 then
        match pairAtImpact env (poolAddress pool) with
        | Throws _ => (None, None)
        | Ok pairState =>
            match Engine.getV2PriceImpact pairState tokenInAddr amount dIn dOut with
            | None => (None, None)
            | Some impact =>
                (Some (Engine.priceImpactPercent impact / 100)%float,
                 Some (Engine.amountOut impact))
            end
        end
      else (None, None)
  | v3 =>
      match amountToBigInt (amountIn decodedTx), fee decodedTx with
      | Some a, Some (String c f as feeStr) =>
          if a >? 0 then
            match getV3PriceImpact env (poolAddress pool) tokenInAddr
                                   tokenOutAddr feeStr a with
            | Throws _ => (None, None)
            | Ok (percent, out) => (Some (percent / 100)%float, Some out)
            end
          else (None, None)
      | _, _ => (None, None)
      end
  end.

(** [profitPotential]: the difference to the declared minimum, zero on
    equality, undefined otherwise.  The test [!isNaN(Number(str))] followed
    by [BigInt(str)] in a [try] is one step here: both leave the profit
    undefined unless [str] is an integer literal. *)
Definition computeProfit (calculatedAmountOut : option Z)
    (amountOutMin : option string) : option Z :=
  match calculatedAmountOut, amountOutMin with
  | Some expectedOut, Some (String _ _ as raw) =>
      if expectedOut =? 0 then None            (* 0n is falsy *)
      else
        let amountOutMinStr := JS.trim raw in
        if String.eqb amountOutMinStr "" || String.eqb amountOutMinStr "0"
        then None
        else
          match JS.BigInt amountOutMinStr with
          | None => None                       (* NaN, or BigInt throws *)
          | Some minOut =>
              if expectedOut >? minOut then Some (expectedOut - minOut)
              else if expectedOut =? minOut then Some 0
              else None
          end
  | _, _ => None
  end.

(** [timeToSubmitSeconds], [deadlineTimestamp] and [isExpired].  The
    deadline is the decimal string of an integer (the decoders print it
    with [toString()] of a [bigint]); for such a string [Number(str)] is not
    [NaN], and [parseInt(str, 10)] reads it into a [number].  Strings of
    another form are taken as not numeric.  [Date.now()] is an integer
    below [2^53], so the floored quotient [currentTimestamp] is exact.  The
    log lines come after the assignments: a [toISOString()] that throws on
    a date out of range is caught by the inner [catch] and changes
    nothing. *)
Definition computeDeadline (env : Env) (deadline : option string)
  : option JS.Num * option JS.Num * bool :=
  match deadline with
  | Some (String _ _ as raw) =>
      let deadlineStr := JS.trim raw in
      if String.eqb deadlineStr "" || String.eqb deadlineStr "0"
      then (None, None, false)
      else
        match JS.BigInt deadlineStr with
        | None => (None, None, false)
        | Some written =>
            let deadlineTimestamp := JS.toNumber written in
            let currentTimestamp := now env / 1000 in
            let timeRemaining := JS.minus deadlineTimestamp currentTimestamp in
            if JS.isPositive timeRemaining
            then (Some timeRemaining, Some deadlineTimestamp, false)
            else (Some (JS.Finite 0), Some deadlineTimestamp, true)
        end
  | _ => (None, None, false)
  end.

(** The verdict, from the impact and profit computed above. *)
Definition verdict (env : Env) (decodedTx : DecodedTransaction)
    (pool : PoolInfo) (dIn dOut : nat)
    (impact : option float) (calculatedAmountOut : option Z)
  : OpportunityResult :=
  let profit := computeProfit calculatedAmountOut (amountOutMin decodedTx) in
  let isProfitable :=
    match profit with Some p => p >? 0 | None => false end in
  let hasSignificantImpact :=
    match impact with
    | Some i => PrimFloat.leb MIN_PRICE_IMPACT i
    | None => false
    end in
  let isOpp := isProfitable && hasSignificantImpact in
  let profitPotentialFormatted :=
    option_map (fun p => JS.formatUnits p dOut) profit in
  let '(timeToSubmit, deadlineTs, expired) :=
    computeDeadline env (deadline decodedTx) in
  {| isOpportunity := isOpp;
     profitPotential := profitPotentialFormatted;
     priceImpact := impact;
     r_poolAddress := Some (poolAddress pool);
     tokenInDecimals := Some dIn;
     tokenOutDecimals := Some dOut;
     reason := Some (if isOpp then "Profitable opportunity detected"
                     else if hasSignificantImpact then "Price impact but no profit"
                     else if expired then "Deadline expired"
                     else "No significant opportunity");
     timeToSubmitSeconds := timeToSubmit;
     deadlineTimestamp := deadlineTs;
     isExpired := Some expired |}.

Definition detectOpportunity (env : Env) (txHash : string)
    (decodedTx : DecodedTransaction) (routerAddress : string)
  : OpportunityResult :=
  match getTokenOpt env (tokenIn decodedTx),
        getTokenOpt env (tokenOut decodedTx) with
  | Throws m, _ => failed m
  | _, Throws m => failed m
  | Ok None, _ | _, Ok None => rejected "Token information not available"
  | Ok (Some tokenInInfo), Ok (Some tokenOutInfo) =>
      match tokenIn decodedTx, tokenOut decodedTx with
      | Some tokenInAddr, Some tokenOutAddr =>
          let dIn := tokenDecimals tokenInInfo in
          let dOut := tokenDecimals tokenOutInfo in
          let actualRouterAddress :=
            if Constants.isAddressInList routerAddress Constants.universalRouter
            then match routerType decodedTx with
                 | v2 => nth 0 Constants.v2Router ""
                 | v3 => nth 0 Constants.v3Router ""
                 end
            else routerAddress in
          match getPools env tokenInAddr tokenOutAddr actualRouterAddress
                         (routerTypeName (routerType decodedTx))
                         (fee decodedTx) with
          | Throws m => failed m
          | Ok None => rejected "Pool not found"
          | Ok (Some pool) =>
              match poolAddress pool with
              | EmptyString => rejected "Pool not found"
              | _ =>
                  match amountInToCheck decodedTx with
                  | None => failed "Cannot convert to a BigInt"
                  | Some amount =>
                      match liquidityGate env decodedTx tokenInAddr pool
                                          dIn dOut amount with
                      | Some early => early
                      | None =>
                          let (impact, out) :=
                            computeImpact env decodedTx tokenInAddr
                                          tokenOutAddr pool dIn dOut amount in
                          verdict env decodedTx pool dIn dOut impact out
                      end
                  end
              end
          end
      | _, _ => rejected "Token information not available"
      end
  end.

End Detector.

(* ================================================================== *)
(** * core/mempool.ts: the producer side of the bus *)
(* ================================================================== *)

Module Bus.

(** JSON text, by its abstract syntax (numbers on the bus are integers). *)
Inductive Json : Type :=
| JNull
| JBool (b : bool)
| JNumber (z : Z)
| JString (s : string)
| JObject (props : list (string * Json)).

(** JavaScript values that the envelope is built from and parsed to. *)
Inductive JsValue : Type :=
| VUndefined
| VNull
| VBool (b : bool)
| VNumber (z : Z)
| VString (s : string)
| VBigInt (z : Z)
| VObject (props : list (string * JsValue)).

(** [JSON.stringify]: a property whose value is [undefined] is left out, a
    [bigint] anywhere throws a TypeError, and a top-level [undefined] gives
    no text (both [None]). *)
Fixpoint jsonStringify (v : JsValue) : option Json :=
  match v with
  | VUndefined => None
  | VBigInt _ => None
  | VNull => Some JNull
  | VBool b => Some (JBool b)
  | VNumber z => Some (JNumber z)
  | VString s => Some (JString s)
  | VObject props =>
      option_map JObject
        ((fix go (ps : list (string * JsValue)) : option (list (string * Json)) :=
            match ps with
            | [] => Some []
            | (k, x) :: r =>
                match x with
                | VUndefined => go r
                | _ =>
                    match jsonStringify x, go r with
                    | Some j, Some r' => Some ((k, j) :: r')
                    | _, _ => None
                    end
                end
            end) props)
  end.

(** [JSON.parse] *)
Fixpoint jsonParse (j : Json) : JsValue :=
  match j with
  | JNull => VNull
  | JBool b => VBool b
  | JNumber z => VNumber z
  | JString s => VString s
  | JObject props =>
      VObject ((fix go (ps : list (string * Json)) : list (string * JsValue) :=
                  match ps with
                  | [] => []
                  | (k, x) :: r => (k, jsonParse x) :: go r
                  end) props)
  end.

(** The property lists of [jsonStringify] and [jsonParse], on their own. *)
Definition stringifyProps : list (string * JsValue)
                            -> option (list (string * Json)) :=
  fix go ps :=
    match ps with
    | [] => Some []
    | (k, x) :: r =>
        match x with
        | VUndefined => go r
        | _ =>
            match jsonStringify x, go r with
            | Some j, Some r' => Some ((k, j) :: r')
            | _, _ => None
            end
        end
    end.

Definition parseProps : list (string * Json) -> list (string * JsValue) :=
  fix go ps :=
    match ps with
    | [] => []
    | (k, x) :: r => (k, jsonParse x) :: go r
    end.

Fixpoint lookup (props : list (string * JsValue)) (k : string) : JsValue :=
  match props with
  | [] => VUndefined
  | (k', x) :: r => if String.eqb k' k then x else lookup r k
  end.

(** Property access [v.k] on an object ([undefined] when absent). *)
Definition getProp (v : JsValue) (k : string) : JsValue :=
  match v with
  | VObject props => lookup props k
  | _ => VUndefined
  end.

Definition ofOptString (o : option string) : JsValue :=
  match o with Some s => VString s | None => VUndefined end.

Definition ofOptBool (o : option bool) : JsValue :=
  match o with Some b => VBool b | None => VUndefined end.

(** [tx.amountIn.toString()] *)
Definition amountToString (a : Amount) : string :=
  match a with
  | AmtBig z => JS.bigintToString z
  | AmtStr s => s
  end.

Definition routerTypeString (t : RouterType) : string :=
  match t with v2 => "v2" | v3 => "v3" end.

Definition serializeDecodedTx (tx : DecodedTransaction) : JsValue :=
  VObject
    [ ("router", VString (router tx));
      ("method", VString (method tx));
      ("tokenIn", ofOptString (tokenIn tx));
      ("tokenOut", ofOptString (tokenOut tx));
      ("amountIn", VString (amountToString (amountIn tx)));
      ("amountOut", VString (amountOut tx));
      ("deadline", ofOptString (deadline tx));
      ("fee", ofOptString (fee tx));
      ("recipient", ofOptString (recipient tx));
      ("amountOutMin", ofOptString (amountOutMin tx));
      ("payerIsUser", ofOptBool (payerIsUser tx));
      ("amountInMax", VString (amountInMax tx));
      ("routerType", VString (routerTypeString (routerType tx))) ].

(** The fields of the raw transaction copied into the envelope, already
    stringified as [sendToKafka] does. *)
Record RawTx : Type := mkRawTx {
  raw_hash : string;
  raw_to : option string;
  raw_from : string;
  raw_value : Z;
  raw_data : string;
  raw_gasPrice : option Z;
  raw_gasLimit : Z
}.

Definition rawTxObject (rawTx : RawTx) : JsValue :=
  VObject
    [ ("hash", VString (raw_hash rawTx));
      ("to", match raw_to rawTx with Some a => VString a | None => VNull end);
      ("from", VString (raw_from rawTx));
      ("value", VString (JS.bigintToString (raw_value rawTx)));
      ("data", VString (raw_data rawTx));
      ("gasPrice", ofOptString (option_map JS.bigintToString (raw_gasPrice rawTx)));
      ("gasLimit", VString (JS.bigintToString (raw_gasLimit rawTx))) ].

(** What is handed to [kafkaProducer.send]. *)
Record ProducerRecord : Type := mkRecord {
  key : string;
  payload : Json;
  timestamp : string
}.

(** [sendToKafka] with the producer initialised; [nowMs] is [Date.now()].
    [None] when [JSON.stringify] throws (the [catch] logs and sends nothing). *)
Definition sendToKafka (txHash : string) (decodedTx : DecodedTransaction)
    (routerAddress : string) (blockNumber : option Z) (rawTx : option RawTx)
    (nowMs : Z) : option ProducerRecord :=
  let serializedDecodedTx := serializeDecodedTx decodedTx in
  let message :=
    VObject
      [ ("txHash", VString txHash);
        ("blockNumber",
          match blockNumber with Some b => VNumber b | None => VUndefined end);
        ("decodedTx", serializedDecodedTx);
        ("routerAddress", VString routerAddress);
        ("timestamp", VNumber nowMs);
        ("rawTx",
          match rawTx with Some r => rawTxObject r | None => VUndefined end) ] in
  match jsonStringify message with
  | Some text =>
      Some {| key := txHash; payload := text;
              timestamp := JS.bigintToString nowMs |}
  | None => None
  end.

End Bus.

(* ================================================================== *)
(** * The opportunities table (Prisma model [Opportunity]) *)
(* ================================================================== *)

Module Store.

Inductive Status : Type := pending | detected | expired.

Definition Status_eqb (a b : Status) : bool :=
  match a, b with
  | pending, pending | detected, detected | expired, expired => true
  | _, _ => false
  end.

(** A JSON scalar found under [metadata.deadlineTimestamp] or
    [metadata.timeToSubmitSeconds]. *)
Inductive MetaScalar : Type :=
| MNumber (z : Z)
| MString (s : string)
| MNull.

(** The JSON value of a [number]: one that is not finite is written as
    [null]. *)
Definition ofNumber (n : JS.Num) : MetaScalar :=
  match n with
  | JS.Finite z => MNumber z
  | JS.Infinity _ => MNull
  end.

(** The free-form [metadata] bag. *)
Record Metadata : Type := mkMeta {
  tokenInDecimals : option nat;
  tokenOutDecimals : option nat;
  decodedTx : Bus.JsValue;
  reason : option string;
  timeToSubmitSeconds : option MetaScalar;
  deadlineTimestamp : option MetaScalar;
  isExpired : option bool
}.

(** The columns written by the consumer's upsert; the two dates are
    milliseconds since the epoch.  The columns [detectedAt] and [createdAt],
    which no payload sets, are left out. *)
Record Opportunity : Type := mkOpportunity {
  chainId : Z;
  txHash : string;
  routerAddress : string;
  routerType : string;
  tokenIn : string;
  tokenOut : string;
  tokenInAmount : string;
  tokenOutAmount : string;
  expectedProfit : option string;
  priceImpact : option float;
  poolAddress : option string;
  fee : string;
  method : string;
  recipient : option string;
  deadline : option string;
  blockNumber : string;
  status : Status;
  processedAt : Z;
  metadata : Metadata;
  updatedAt : Z
}.

(** A stored row: the generated [id] and the columns. *)
Record Row : Type := mkRow {
  id : nat;
  columns : Opportunity
}.

Definition Table : Type := list Row.

Definition sameKey (o : Opportunity) (r : Row) : bool :=
  (chainId (columns r) =? chainId o)
  && String.eqb (txHash (columns r)) (txHash o).

Definition freshId (t : Table) : nat := S (fold_right Nat.max O (map id t)).

(** [prisma.opportunity.upsert] on the unique key [(chainId, txHash)]. *)
Definition upsert (t : Table) (o : Opportunity) : Table :=
  if existsb (sameKey o) t
  then map (fun r => if sameKey o r then {| id := id r; columns := o |} else r) t
  else (t ++ [{| id := freshId t; columns := o |}])%list.

(** [prisma.opportunity.deleteMany({ where })]: the table left and the
    number of rows deleted. *)
Definition deleteMany (cond : Row -> bool) (t : Table) : Table * nat :=
  (filter (fun r => negb (cond r)) t, List.length (filter cond t)).

(** [prisma.opportunity.findMany({ where })] *)
Definition findMany (cond : Row -> bool) (t : Table) : list Row :=
  filter cond t.

End Store.

(* ================================================================== *)
(** * The Kafka consumer: processTransactionMessages *)
(* ================================================================== *)

Module Consumer.

(** A message as [eachMessage] receives it: the JSON text of [value]
    ([None] when empty) and the broker time stamp. *)
Record KafkaMessage : Type := mkMessage {
  msg_value : option Bus.Json;
  msg_timestamp : string
}.

(** What the consumer awaits besides the detector's reads. *)
Record Env : Type := mkEnv {
  detectorEnv : Detector.Env;
  (** [rpcProvider.getBlockNumber()] *)
  getBlockNumber : Detector.Result Z;
  (** [config.chainId] *)
  configChainId : Z;
  (** [Date.now()] at the start of [eachMessage] *)
  startTime : Z;
  (** [new Date()] as the payloads of the upsert are built *)
  newDate : Z
}.

Definition MAX_MESSAGE_AGE_MS : Z := 10 * 60 * 1000.

(** [parseInt(s)] on a decimal string: leading white space, an optional
    sign and the longest prefix of digits, read into a [number]; [None] is
    [NaN]. *)
Fixpoint digitPrefix (acc : option N) (s : string) : option N :=
  match s with
  | EmptyString => acc
  | String c r =>
      match JS.charDigit c with
      | Some d =>
          digitPrefix (Some (match acc with Some a => a * 10 + d | None => d end)%N) r
      | None => acc
      end
  end.

Definition parseInt (s : string) : option JS.Num :=
  match JS.trimStart s with
  | String "-" r =>
      option_map (fun n => JS.toNumber (- Z.of_N n)) (digitPrefix None r)
  | String "+" r =>
      option_map (fun n => JS.toNumber (Z.of_N n)) (digitPrefix None r)
  | body =>
      option_map (fun n => JS.toNumber (Z.of_N n)) (digitPrefix None body)
  end.

(** The time stamp the age gate uses: the envelope's [timestamp] when
    truthy, else the broker's; [None] when neither gives a number other
    than [0] and [NaN] (the age is then [Infinity]). *)
Definition messageTimestamp (txMessage : Bus.JsValue) (message : KafkaMessage)
  : option JS.Num :=
  let fromBroker :=
    match msg_timestamp message with
    | EmptyString => None
    | ts =>
        match parseInt ts with
        | Some (JS.Finite 0) | None => None
        | Some n => Some n
        end
    end in
  match Bus.getProp txMessage "timestamp" with
  | Bus.VNumber 0 => fromBroker
  | Bus.VNumber z => Some (JS.Finite z)
  | _ => fromBroker
  end.

(** [messageAge > MAX_MESSAGE_AGE_MS].  The age is the difference of two
    integers that numbers hold; rounding it cannot take it across the
    threshold, which is far below [2^53], so the integers are compared.
    An infinite time stamp gives an infinite age of the other sign. *)
Definition tooOld (env : Env) (txMessage : Bus.JsValue) (message : KafkaMessage)
  : bool :=
  match messageTimestamp txMessage message with
  | Some (JS.Finite ts) => startTime env - ts >? MAX_MESSAGE_AGE_MS
  | Some (JS.Infinity negative) => negative
  | None => true
  end.

(** [blockNumber !== undefined && blockNumber !== null] *)
Definition alreadyMined (txMessage : Bus.JsValue) : bool :=
  match Bus.getProp txMessage "blockNumber" with
  | Bus.VUndefined | Bus.VNull => false
  | _ => true
  end.

Definition readString (v : Bus.JsValue) (k : string) : option string :=
  match Bus.getProp v k with
  | Bus.VString s => Some s
  | _ => None
  end.

Definition readBool (v : Bus.JsValue) (k : string) : option bool :=
  match Bus.getProp v k with
  | Bus.VBool b => Some b
  | _ => None
  end.

Definition readRouterType (v : Bus.JsValue) : option RouterType :=
  match readString v "routerType" with
  | Some "v2" => Some v2
  | Some "v3" => Some v3
  | _ => None
  end.

(** [{ ...decodedTx, amountIn: BigInt(decodedTx.amountIn) }] read at the
    type [DecodedTransaction].  [None] when [BigInt] throws, and for an
    object that lacks a property the interface requires (the tap never
    sends one). *)
Definition rehydrate (decodedTx : Bus.JsValue) : option DecodedTransaction :=
  match readString decodedTx "amountIn" with
  | None => None
  | Some amountInStr =>
      match JS.BigInt amountInStr,
            readString decodedTx "router", readString decodedTx "method",
            readString decodedTx "amountOut", readString decodedTx "amountInMax",
            readRouterType decodedTx with
      | Some amount, Some router, Some method, Some amountOut, Some amountInMax,
        Some routerType =>
          Some {| router := router;
                  method := method;
                  tokenIn := readString decodedTx "tokenIn";
                  tokenOut := readString decodedTx "tokenOut";
                  amountIn := AmtBig amount;
                  amountOut := amountOut;
                  deadline := readString decodedTx "deadline";
                  fee := readString decodedTx "fee";
                  recipient := readString decodedTx "recipient";
                  amountOutMin := readString decodedTx "amountOutMin";
                  payerIsUser := readBool decodedTx "payerIsUser";
                  amountInMax := amountInMax;
                  routerType := routerType |}
      | _, _, _, _, _, _ => None
      end
  end.

(** [x || null] for a [number]: [0] and [NaN] are falsy. *)
Definition numberOrNull (x : option float) : option float :=
  match x with
  | Some f =>
      if PrimFloat.eqb f 0%float || negb (PrimFloat.eqb f f) then None else Some f
  | None => None
  end.

(** [x || null] for a string. *)
Definition stringOrNull (x : option string) : option string :=
  match x with
  | Some EmptyString | None => None
  | Some s => Some s
  end.

(** [x || '0'] *)
Definition stringOrZero (x : option string) : string :=
  match x with
  | Some EmptyString | None => "0"
  | Some s => s
  end.

Definition statusOf (opportunity : Detector.OpportunityResult) : Store.Status :=
  match Detector.isExpired opportunity with
  | Some true => Store.expired
  | _ => if Detector.isOpportunity opportunity then Store.detected
         else Store.pending
  end.

(** The [create]/[update] payload of the upsert: they carry the same
    columns, [processedAt] is [new Date()] in both, and [updatedAt] is
    [new Date()] in [update] and filled in by Prisma on a [create]; the
    readings are those of one instant.  [None] when [tokenIn] or [tokenOut]
    is undefined and [.toLowerCase()] throws. *)
Definition opportunityColumns (env : Env) (txHash routerAddress : string)
    (processedDecodedTx : DecodedTransaction)
    (opportunity : Detector.OpportunityResult) (currentBlock : Z)
  : option Store.Opportunity :=
  match tokenIn processedDecodedTx, tokenOut processedDecodedTx with
  | Some tIn, Some tOut =>
      Some {| Store.chainId := configChainId env;
              Store.txHash := txHash;
              Store.routerAddress := routerAddress;
              Store.routerType := Bus.routerTypeString (routerType processedDecodedTx);
              Store.tokenIn := JS.toLowerCase tIn;
              Store.tokenOut := JS.toLowerCase tOut;
              Store.tokenInAmount := Bus.amountToString (amountIn processedDecodedTx);
              Store.tokenOutAmount := amountOut processedDecodedTx;
              Store.expectedProfit := stringOrNull (Detector.profitPotential opportunity);
              Store.priceImpact := numberOrNull (Detector.priceImpact opportunity);
              Store.poolAddress :=
                stringOrNull (option_map JS.toLowerCase (Detector.r_poolAddress opportunity));
              Store.fee := stringOrZero (fee processedDecodedTx);
              Store.method := method processedDecodedTx;
              Store.recipient :=
                stringOrNull (option_map JS.toLowerCase (recipient processedDecodedTx));
              Store.deadline := deadline processedDecodedTx;
              Store.blockNumber := JS.bigintToString currentBlock;
              Store.status := statusOf opportunity;
              Store.processedAt := newDate env;
              Store.metadata :=
                {| Store.tokenInDecimals := Detector.tokenInDecimals opportunity;
                   Store.tokenOutDecimals := Detector.tokenOutDecimals opportunity;
                   Store.decodedTx := Bus.serializeDecodedTx processedDecodedTx;
                   Store.reason := Detector.reason opportunity;
                   Store.timeToSubmitSeconds :=
                     option_map Store.ofNumber (Detector.timeToSubmitSeconds opportunity);
                   Store.deadlineTimestamp :=
                     option_map Store.ofNumber (Detector.deadlineTimestamp opportunity);
                   Store.isExpired := Detector.isExpired opportunity |};
              Store.updatedAt := newDate env |}
  | _, _ => None
  end.

(** The row that [eachMessage] hands to the upsert for [message], if it
    gets that far: every gate, a thrown error and a negative verdict give
    [None]. *)
Definition rowToWrite (env : Env) (message : KafkaMessage)
  : option Store.Opportunity :=
  match msg_value message with
  | None => None
  | Some text =>
      let txMessage := Bus.jsonParse text in
      if tooOld env txMessage message then None
      else if alreadyMined txMessage then None
      else
        match readString txMessage "txHash",
              readString txMessage "routerAddress",
              rehydrate (Bus.getProp txMessage "decodedTx") with
        | Some txHash, Some routerAddress, Some processedDecodedTx =>
            let opportunity :=
              Detector.detectOpportunity (detectorEnv env) txHash
                                         processedDecodedTx routerAddress in
            match getBlockNumber env with
            | Detector.Throws _ => None
            | Detector.Ok currentBlock =>
                if negb (Detector.isOpportunity opportunity) then None
                else opportunityColumns env txHash routerAddress
                                        processedDecodedTx opportunity
                                        currentBlock
            end
        | _, _, _ => None
        end
  end.

(** [eachMessage] as a transition of the opportunities table. *)
Definition eachMessage (env : Env) (table : Store.Table) (message : KafkaMessage)
  : Store.Table :=
  match rowToWrite env message with
  | Some o => Store.upsert table o
  | None => table
  end.

End Consumer.

(* ================================================================== *)
(** * The cleanup task: cleanupExpiredTxs *)
(* ================================================================== *)

Module Cleanup.

Definition hasStatus (s : Store.Status) (r : Store.Row) : bool :=
  Store.Status_eqb (Store.status (Store.columns r)) s.

(** [where: { status: 'detected', metadata: { path: ['isExpired'],
    equals: true } }] *)
Definition detectedWithFlag (r : Store.Row) : bool :=
  hasStatus Store.detected r
  && match Store.isExpired (Store.metadata (Store.columns r)) with
     | Some true => true
     | _ => false
     end.

(** The body of the [for] loop: is the row's deadline before [now]?
    [now] is [Date.now()]. *)
Definition deadlinePassed (now : Z) (tx : Store.Row) : bool :=
  match Store.deadlineTimestamp (Store.metadata (Store.columns tx)) with
  | None => false
  | Some (Store.MNumber 0) => false                       (* falsy *)
  | Some (Store.MNumber deadlineTimestamp) => deadlineTimestamp <? now
  | Some (Store.MString EmptyString) => false             (* falsy *)
  | Some (Store.MString s) =>
      match Consumer.parseInt s with
      | Some (JS.Finite deadlineTimestamp) => deadlineTimestamp <? now
      | Some (JS.Infinity negative) => negative
      | None => false                                     (* NaN *)
      end
  | Some Store.MNull => false                             (* falsy *)
  end.

Definition idIn (ids : list nat) (r : Store.Row) : bool :=
  existsb (Nat.eqb (Store.id r)) ids.

(** The third pass: delete by flag, fetch what is still [detected], pick
    the ids whose deadline has passed and delete those. *)
Definition detectedPass (now : Z) (t : Store.Table) : Store.Table * nat :=
  let (t1, expiredByFlag) := Store.deleteMany detectedWithFlag t in
  let detectedTxs := Store.findMany (hasStatus Store.detected) t1 in
  let expiredByDeadlineIds :=
    map Store.id (filter (deadlinePassed now) detectedTxs) in
  match expiredByDeadlineIds with
  | [] => (t1, expiredByFlag)
  | _ =>
      let (t2, expiredByDeadline) :=
        Store.deleteMany (idIn expiredByDeadlineIds) t1 in
      (t2, (expiredByFlag + expiredByDeadline)%nat)
  end.

(** [cleanupExpiredTxs]: the table left and [totalRemoved]. *)
Definition cleanupExpiredTxs (now : Z) (t : Store.Table) : Store.Table * nat :=
  let (t1, expiredCount) := Store.deleteMany (hasStatus Store.expired) t in
  let (t2, pendingCount) := Store.deleteMany (hasStatus Store.pending) t1 in
  let (t3, expiredDetected) := detectedPass now t2 in
  (t3, (expiredCount + pendingCount + expiredDetected)%nat).

End Cleanup.

(* ================================================================== *)
(** * utils/getToken.ts and utils/getPools.ts: cache writes *)
(* ================================================================== *)

Module Cache.

(** A Prisma model with a unique key [K]: rows in insertion order. *)
Definition Table (K V : Type) : Type := list (K * V).

Inductive DbResult (A : Type) : Type :=
| Done (a : A)
| UniqueConstraintFailed.
Arguments Done {A} a.
Arguments UniqueConstraintFailed {A}.

Section Model.

Context {K V : Type} (eqb : K -> K -> bool).

Definition hasKey (k : K) (row : K * V) : bool := eqb (fst row) k.

(** [findUnique({ where: key })] *)
Definition findUnique (t : Table K V) (k : K) : option V :=
  option_map snd (find (hasKey k) t).

(** [create({ data })]: fails when the key is taken. *)
Definition create (t : Table K V) (k : K) (v : V) : DbResult (Table K V) :=
  if existsb (hasKey k) t then UniqueConstraintFailed
  else Done (t ++ [(k, v)])%list.

(** [upsert({ where: key, update, create })] *)
Definition upsert (t : Table K V) (k : K) (update : V -> V) (v : V)
  : DbResult (Table K V) :=
  if existsb (hasKey k) t
  then Done (map (fun row => if hasKey k row then (fst row, update (snd row))
                             else row) t)
  else Done (t ++ [(k, v)])%list.

(** Number of rows stored under [k]. *)
Definition rowsFor (t : Table K V) (k : K) : nat :=
  List.length (filter (hasKey k) t).

End Model.

(** Keys are [(chainId, address)]. *)
Definition Key : Type := Z * string.

Definition Key_eqb (a b : Key) : bool :=
  (fst a =? fst b) && String.eqb (snd a) (snd b).

Record TokenRow : Type := mkTokenRow {
  tokenName : string;
  tokenSymbol : string;
  tokenDecimals : nat
}.

Record FactoryRow : Type := mkFactoryRow {
  routerType : string;
  factoryAddress : string;
  wethAddress : string
}.

Record PoolRow : Type := mkPoolRow {
  token0 : string;
  token1 : string;
  pool_exists : bool;
  pool_routerType : string;
  pool_fee : string
}.

(** [addTokenToDb]: the write on the miss path of [getToken]. *)
Definition addTokenToDb (chainId : Z) (t : Table Key TokenRow)
    (tokenAddress : string) (info : TokenRow) : DbResult (Table Key TokenRow) :=
  let normalizedAddress := JS.toLowerCase tokenAddress in
  upsert Key_eqb t (chainId, normalizedAddress) (fun _ => info) info.

(** The write on the miss path of [getPools]; [update] leaves [fee] alone,
    [create] stores [fee ?? '2500']. *)
Definition savePool (chainId : Z) (t : Table Key PoolRow)
    (poolAddress normalizedToken0 normalizedToken1 : string) (isThere : bool)
    (routerType : string) (fee : option string) : DbResult (Table Key PoolRow) :=
  upsert Key_eqb t (chainId, JS.toLowerCase poolAddress)
    (fun old => {| token0 := normalizedToken0; token1 := normalizedToken1;
                   pool_exists := isThere; pool_routerType := routerType;
                   pool_fee := pool_fee old |})
    {| token0 := normalizedToken0; token1 := normalizedToken1;
       pool_exists := isThere; pool_routerType := routerType;
       pool_fee := match fee with Some f => f | None => "2500" end |}.

(** The write on the miss path of [getFactoryAddress]:
    [prisma.factoryAddress.create]. *)
Definition insertFactory (chainId : Z) (t : Table Key FactoryRow)
    (router version factoryAddress wethAddress : string)
  : DbResult (Table Key FactoryRow) :=
  create Key_eqb t (chainId, router)
    {| routerType := version; factoryAddress := factoryAddress;
       wethAddress := wethAddress |}.

(** [getFactoryAddress] for a valid router address: the table after the
    call and the address returned, or the error thrown.  [onChain] holds
    the answers of [factory()] and [WETH()]/[WETH9()]. *)
Definition getFactoryAddress (chainId : Z) (t : Table Key FactoryRow)
    (router version : string) (onChain : string * string)
  : DbResult (Table Key FactoryRow * string) :=
  match findUnique Key_eqb t (chainId, router) with
  | Some factory => Done (t, factoryAddress factory)
  | None =>
      match insertFactory chainId t router version (fst onChain) (snd onChain) with
      | Done t' => Done (t', fst onChain)
      | UniqueConstraintFailed => UniqueConstraintFailed
      end
  end.

End Cache.

(* ================================================================== *)
(** * Swaps emitted by the decoders *)
(* ================================================================== *)

Module Decoders.

Definition emittedByV2 (d : DecodedTransaction) : Prop :=
  exists tx, V2Decoder.decodeV2RouterTx tx = Some d.

Definition emittedByV3 (d : DecodedTransaction) : Prop :=
  exists getAddress tx, V3Decoder.decodeV3RouterTx getAddress tx = Some d.

Definition emittedByUR (d : DecodedTransaction) : Prop :=
  exists tx actions,
    URDecoder.decodeUniversalRouterFull tx = URDecoder.Actions actions
    /\ In d actions.

(** [d] is a swap that one of the three decoders returns for some
    transaction. *)
Definition emitted (d : DecodedTransaction) : Prop :=
  emittedByV2 d \/ emittedByV3 d \/ emittedByUR d.

(** Every address field of [d] is in lowercase form. *)
Definition addressesLowercase (d : DecodedTransaction) : Prop :=
  JS.isLowercase (router d)
  /\ JS.optLowercase (tokenIn d)
  /\ JS.optLowercase (tokenOut d)
  /\ JS.optLowercase (recipient d).

(** The decoders store [amountIn] as a [bigint] or as the decimal string of
    one. *)
Definition amountWellFormed (a : Amount) : Prop :=
  exists z, a = AmtBig z \/ a = AmtStr (JS.bigintToString z).

(** The command bytes the universal-router decoder iterates over. *)
Definition commandBytes (exec : URDecoder.Call) : list string :=
  let commandsStr := URDecoder.stripHexPrefix (URDecoder.exec_commands exec) in
  URDecoder.chunk2 (String.length commandsStr) commandsStr.

(** [d] with [amountIn] replaced. *)
Definition withAmountIn (d : DecodedTransaction) (a : Amount) : DecodedTransaction :=
  {| router := router d; method := method d; tokenIn := tokenIn d;
     tokenOut := tokenOut d; amountIn := a; amountOut := amountOut d;
     deadline := deadline d; fee := fee d; recipient := recipient d;
     amountOutMin := amountOutMin d; payerIsUser := payerIsUser d;
     amountInMax := amountInMax d; routerType := routerType d |}.

(** The bus round trip of a swap: published by [sendToKafka], received,
    parsed and rehydrated by the consumer. *)
Definition busRoundTrip (txHash routerAddress : string)
    (blockNumber : option Z) (rawTx : option Bus.RawTx) (nowMs : Z)
    (d : DecodedTransaction) : option DecodedTransaction :=
  match Bus.sendToKafka txHash d routerAddress blockNumber rawTx nowMs with
  | Some record =>
      let txMessage := Bus.jsonParse (Bus.payload record) in
      Consumer.rehydrate (Bus.getProp txMessage "decodedTx")
  | None => None
  end.

End Decoders.

(* ================================================================== *)
(** * The specification's formula and its first scenario *)
(* ================================================================== *)

Module Spec.

(** Written from the specification's words, not from the code:
    [amountInWithFee = floor(amountIn * 997 / 1000)] and
    [amountOut = (amountInWithFee * reserveOut)
                 / (reserveIn * 1000 + amountInWithFee)], the quotients
    rounded down. *)
Definition amountInWithFee (amountIn : Z) : Z := (amountIn * 997) / 1000.

Definition amountOut (amountIn reserveIn reserveOut : Z) : Z :=
  (amountInWithFee amountIn * reserveOut)
  / (reserveIn * 1000 + amountInWithFee amountIn).



(** "Parse [swap.deadline] as unix seconds.  If [<= now], set
    [isExpired = true]": a deadline has expired when it is not after the
    clock, both in seconds. *)
Definition expired (nowSeconds deadline : Z) : Prop := deadline <= nowSeconds.

End Spec.

Module Scenario.

Definition WETH : string := "0xbb4cdb9cbd36b01bd1cbaebf2de08d9173bc095c".
Definition USDC : string := "0x8ac76a51cc950d9822d68b83fe1ad97b32cd580d".
Definition poolAddr : string := "0x16b9a82891338f9ba80e2d6970fdda79d1eb0dae".
Definition someone : string := "0x00000000000000000000000000000000000000aa".

(** The pool of scenario 1: 1000 WETH (18 decimals) against 2,000,000 USDC
    (6 decimals). *)
Definition pair1 : Engine.PairState :=
  {| Engine.reserve0 := 1000 * 10 ^ 18;
     Engine.reserve1 := 2000000 * 10 ^ 6;
     Engine.token0 := WETH;
     Engine.token1 := USDC |}.

Definition amountIn1 : Z := 10 * 10 ^ 18.

Definition v2RouterAddr : string := "0xd99d1c33f9fc3444f8101754abc46c52416550d1".

Definition pool1 : Detector.PoolInfo :=
  {| Detector.poolAddress := poolAddr;
     Detector.pool_token0 := WETH;
     Detector.pool_token1 := USDC;
     Detector.pool_exists := true;
     Detector.pool_routerType := "v2";
     Detector.pool_fee := "0" |}.

Definition tokenInfoOf (address : string)
  : Detector.Result (option Detector.TokenInfo) :=
  if String.eqb address WETH then
    Detector.Ok (Some {| Detector.tokenAddress := WETH;
                         Detector.tokenName := "Wrapped Ether";
                         Detector.tokenSymbol := "WETH";
                         Detector.tokenDecimals := 18 |})
  else if String.eqb address USDC then
    Detector.Ok (Some {| Detector.tokenAddress := USDC;
                         Detector.tokenName := "USD Coin";
                         Detector.tokenSymbol := "USDC";
                         Detector.tokenDecimals := 6 |})
  else Detector.Ok None.

(** A chain on which the only pool is a V2 pair in state [pair], read at
    time [nowMs]. *)
Definition env (pair : Engine.PairState) (nowMs : Z) : Detector.Env :=
  {| Detector.getToken := tokenInfoOf;
     Detector.getPools := fun _ _ _ _ _ => Detector.Ok (Some pool1);
     Detector.pairAtLiquidityCheck := fun _ => Detector.Ok pair;
     Detector.pairAtImpact := fun _ => Detector.Ok pair;
     Detector.v3Liquidity := fun _ => Detector.Throws "call revert exception";
     Detector.getV3PriceImpact :=
       fun _ _ _ _ _ => Detector.Throws "call revert exception";
     Detector.now := nowMs |}.

(** 2024-04-01T19:33:20Z in milliseconds and in seconds. *)
Definition nowMs : Z := 1712000000000.
Definition nowSec : Z := 1712000000.

(** A V2 swap of [amount] WETH for USDC with declared minimum [minOut] and
    deadline [deadlineSec], as [decodeV2RouterTx] emits it. *)
Definition v2Tx (amount minOut deadlineSec : Z)
  : TransactionResponse V2Decoder.Call :=
  {| to := Some v2RouterAddr;
     value := 0;
     parseTransaction :=
       Parsed (V2Decoder.swapExactTokensForTokens false amount minOut
                 [WETH; USDC] someone deadlineSec) |}.

Definition v2Swap (amount minOut deadlineSec : Z) : DecodedTransaction :=
  {| router := v2RouterAddr;
     method := "swapExactTokensForTokens";
     tokenIn := Some WETH;
     tokenOut := Some USDC;
     amountIn := AmtStr (JS.bigintToString amount);
     amountOut := JS.bigintToString minOut;
     deadline := Some (JS.bigintToString deadlineSec);
     fee := Some "0";
     recipient := Some someone;
     amountOutMin := Some (JS.bigintToString minOut);
     payerIsUser := Some true;
     amountInMax := "0";
     routerType := v2 |}.

(** The consumer's surroundings: the chain above, block 37000000, chain 56,
    the message handled 50 ms after [nowMs] and the row written 10 ms
    later. *)
Definition consumerEnv (pair : Engine.PairState) : Consumer.Env :=
  {| Consumer.detectorEnv := env pair (nowMs + 50);
     Consumer.getBlockNumber := Detector.Ok 37000000;
     Consumer.configChainId := 56;
     Consumer.startTime := nowMs + 50;
     Consumer.newDate := nowMs + 60 |}.

(** The bus message the tap publishes for [swap] at [nowMs]. *)
Definition messageFor (txHash : string) (swap : DecodedTransaction)
  : Consumer.KafkaMessage :=
  {| Consumer.msg_value :=
       option_map Bus.payload
         (Bus.sendToKafka txHash swap v2RouterAddr None None nowMs);
     Consumer.msg_timestamp := JS.bigintToString nowMs |}.

(** 10 WETH for at least 1 USDC, deadline ten minutes ahead. *)
Definition swap1 : DecodedTransaction :=
  v2Swap amountIn1 1000000 (nowSec + 600).

(** A V3 router call as ethers hands it over: [to] and the address
    arguments in EIP-55 mixed case. *)
Definition v3RouterChecksummed : string :=
  "0x1b81D678ffb9C0263b24A97847620C99d213eB14".

Definition v3Tx : TransactionResponse V3Decoder.Call :=
  {| to := Some v3RouterChecksummed;
     value := 0;
     parseTransaction :=
       Parsed (V3Decoder.exactInputSingle
                 "0xbb4CdB9CBd36B01bD1cBaEBF2De08d9173bc095c"
                 "0x8AC76a51cc950d9822D68b83fE1Ad97B32Cd580d"
                 500 "0x00000000000000000000000000000000000000Aa"
                 (nowSec + 600) amountIn1 1000000 0) |}.

Definition CAKE : string := "0x0e09fabb73bd3ade0a17ecc321fd13a19e81ce82".

Definition universalRouterAddr : string :=
  "0x1a0a18ac4becddbd6389559687d1a73d8927e416".

(** The input of a [V2_EXACT_IN] command: 10 WETH through CAKE to USDC. *)
Definition urInput : URDecoder.Input :=
  {| URDecoder.asV3Tuple := None;
     URDecoder.asV2Tuple :=
       Some (someone, amountIn1, 1000000, [WETH; CAKE; USDC], true) |}.

Definition urExec : URDecoder.Call :=
  {| URDecoder.exec_commands := "0x08";
     URDecoder.exec_inputs := [urInput];
     URDecoder.exec_deadline := Some (nowSec + 600) |}.

Definition urTx : TransactionResponse URDecoder.Call :=
  {| to := Some universalRouterAddr;
     value := 0;
     parseTransaction := Parsed urExec |}.

(** The opportunities table after the consumer handled the message for
    [swap1] (deadline [nowSec + 600]) on an empty table. *)
Definition tableAfterSwap1 : Store.Table :=
  Consumer.eachMessage (consumerEnv pair1) [] (messageFor "0xabc" swap1).

End Scenario.

(* ================================================================== *)
(** * utils/getToken.ts: the token cache *)
(* ================================================================== *)

Module TokenCache.

(** What the three contract reads of [fetchTokenFromChain] give; [None]
    where the call rejects and the [.catch] supplies the default. *)
Record ChainToken : Type := mkChainToken {
  chain_name : option string;
  chain_symbol : option string;
  chain_decimals : option nat
}.

Definition orElse {A} (x : option A) (d : A) : A :=
  match x with Some a => a | None => d end.

(** The [TokenInfo] built from a stored row ([id] and the two dates are
    left out). *)
Definition infoOf (row : Cache.Key * Cache.TokenRow) : Detector.TokenInfo :=
  {| Detector.tokenAddress := snd (fst row);
     Detector.tokenName := Cache.tokenName (snd row);
     Detector.tokenSymbol := Cache.tokenSymbol (snd row);
     Detector.tokenDecimals := Cache.tokenDecimals (snd row) |}.

Definition rowOf (info : Detector.TokenInfo) : Cache.TokenRow :=
  {| Cache.tokenName := Detector.tokenName info;
     Cache.tokenSymbol := Detector.tokenSymbol info;
     Cache.tokenDecimals := Detector.tokenDecimals info |}.

Section WithChain.

(** ethers' [isAddress] *)
Variable isAddress : string -> bool.
(** [config.chainId] *)
Variable chainId : Z.
(** The ERC-20 contract at a (lowercase) address; [None] when building the
    provider or the contract throws. *)
Variable chain : string -> option ChainToken.

Definition getTokenFromDb (t : Cache.Table Cache.Key Cache.TokenRow)
    (tokenAddress : string) : option Detector.TokenInfo :=
  if negb (isAddress tokenAddress) then None
  else
    let normalizedAddress := JS.toLowerCase tokenAddress in
    option_map infoOf
      (find (Cache.hasKey Cache.Key_eqb (chainId, normalizedAddress)) t).

Definition fetchTokenFromChain (tokenAddress : string)
  : option Detector.TokenInfo :=
  if negb (isAddress tokenAddress) then None
  else
    let normalizedAddress := JS.toLowerCase tokenAddress in
    match chain normalizedAddress with
    | None => None                                  (* catch: return null *)
    | Some c =>
        Some {| Detector.tokenAddress := normalizedAddress;
                Detector.tokenName := orElse (chain_name c) "Unknown";
                Detector.tokenSymbol := orElse (chain_symbol c) "UNKNOWN";
                Detector.tokenDecimals := orElse (chain_decimals c) 18%nat |}
    end.

(** [addTokenToDb]: the table after the upsert and the saved token. *)
Definition addTokenToDb (t : Cache.Table Cache.Key Cache.TokenRow)
    (tokenInfo : Detector.TokenInfo)
  : Cache.DbResult (Cache.Table Cache.Key Cache.TokenRow * Detector.TokenInfo) :=
  match Cache.addTokenToDb chainId t (Detector.tokenAddress tokenInfo)
                           (rowOf tokenInfo) with
  | Cache.Done t' =>
      Cache.Done
        (t', infoOf ((chainId, JS.toLowerCase (Detector.tokenAddress tokenInfo)),
                     rowOf tokenInfo))
  | Cache.UniqueConstraintFailed => Cache.UniqueConstraintFailed
  end.

(** [getToken]: database first, then the chain, then the write. *)
Definition getToken (t : Cache.Table Cache.Key Cache.TokenRow)
    (tokenAddress : string)
  : Cache.DbResult (Cache.Table Cache.Key Cache.TokenRow
                    * option Detector.TokenInfo) :=
  if negb (isAddress tokenAddress) then Cache.Done (t, None)
  else
    match getTokenFromDb t tokenAddress with
    | Some dbToken => Cache.Done (t, Some dbToken)
    | None =>
        match fetchTokenFromChain tokenAddress with
        | None => Cache.Done (t, None)
        | Some chainToken =>
            match addTokenToDb t chainToken with
            | Cache.Done (t', savedToken) => Cache.Done (t', Some savedToken)
            | Cache.UniqueConstraintFailed => Cache.UniqueConstraintFailed
            end
        end
    end.

End WithChain.

End TokenCache.

(* ================================================================== *)
(** * utils/getPools.ts: the pool cache *)
(* ================================================================== *)

Module PoolCache.

Definition isValidPoolAddress (poolAddress : string) : bool :=
  negb (String.eqb poolAddress zeroAddress)
  && negb (String.eqb poolAddress (JS.toLowerCase zeroAddress)).

(** The [PoolInfo] built from a stored row ([id] and the two dates are left
    out). *)
Definition infoOf (row : Cache.Key * Cache.PoolRow) : Detector.PoolInfo :=
  {| Detector.poolAddress := snd (fst row);
     Detector.pool_token0 := Cache.token0 (snd row);
     Detector.pool_token1 := Cache.token1 (snd row);
     Detector.pool_exists := Cache.pool_exists (snd row);
     Detector.pool_routerType := Cache.pool_routerType (snd row);
     Detector.pool_fee := Cache.pool_fee (snd row) |}.

(** How the read of the pool address ends: an address, an error that the
    [catch] classifies as a timeout (the 15 s race included), or another
    error. *)
Inductive Fetched : Type :=
| Address (a : string)
| TimedOut (message : string)
| Failed (message : string).

(** The contract reads. *)
Record Chain : Type := mkChain {
  (** [factory()] and [WETH()]/[WETH9()] of the router, for a version *)
  routerReads : string -> string -> Detector.Result (string * string);
  (** [factoryContract.getPair(token0, token1)] *)
  getPair : string -> string -> string -> Fetched;
  (** [factoryContract.getPool(token0, token1, fee)] *)
  getPool : string -> string -> string -> option string -> Fetched
}.

Record Db : Type := mkDb {
  factories : Cache.Table Cache.Key Cache.FactoryRow;
  pools : Cache.Table Cache.Key Cache.PoolRow
}.

Section WithChain.

(** ethers' [isAddress] *)
Variable isAddress : string -> bool.
(** [config.chainId] *)
Variable chainId : Z.
Variable chain : Chain.

(** [getFactoryAddress]: the table afterwards and what is returned.
    [create] returns the row it wrote, so the [if (!insertFactory)] branch
    is never taken. *)
Definition getFactoryAddress (t : Cache.Table Cache.Key Cache.FactoryRow)
    (router version : string)
  : Cache.Table Cache.Key Cache.FactoryRow * Detector.Result (option string) :=
  if negb (isAddress router) then (t, Detector.Ok None)
  else
    match Cache.findUnique Cache.Key_eqb t (chainId, router) with
    | Some factory => (t, Detector.Ok (Some (Cache.factoryAddress factory)))
    | None =>
        match routerReads chain router version with
        | Detector.Throws m => (t, Detector.Throws m)
        | Detector.Ok (factoryAddress, wethAddress) =>
            match Cache.insertFactory chainId t router version
                                      factoryAddress wethAddress with
            | Cache.Done t' => (t', Detector.Ok (Some factoryAddress))
            | Cache.UniqueConstraintFailed =>
                (t, Detector.Throws "Unique constraint failed")
            end
        end
    end.

(** The [where] of the [findFirst]: the token pair and the router type
    (no [chainId]).  [findFirst] has no [orderBy]; the rows are taken in the
    order of the table. *)
Definition byTokens (token0 token1 routerType : string)
    (row : Cache.Key * Cache.PoolRow) : bool :=
  String.eqb (Cache.token0 (snd row)) (JS.toLowerCase token0)
  && String.eqb (Cache.token1 (snd row)) (JS.toLowerCase token1)
  && String.eqb (Cache.pool_routerType (snd row)) routerType.

Definition findExistingPool (t : Cache.Table Cache.Key Cache.PoolRow)
    (token0 token1 routerType : string) (poolAddress : option string)
  : option Detector.PoolInfo :=
  let poolByAddress :=
    match poolAddress with
    | None | Some EmptyString => None
    | Some p =>
        find (Cache.hasKey Cache.Key_eqb (chainId, JS.toLowerCase p)) t
    end in
  match poolByAddress with
  | Some row => Some (infoOf row)
  | None => option_map infoOf (find (byTokens token0 token1 routerType) t)
  end.

(** The read of the pool address from the factory. *)
Definition poolRead (factoryAddress routerType normalizedToken0
                     normalizedToken1 : string) (fee : option string)
  : Fetched :=
  if String.eqb routerType "v2"
  then getPair chain factoryAddress normalizedToken0 normalizedToken1
  else getPool chain factoryAddress normalizedToken0 normalizedToken1 fee.

(** The row the upsert returns. *)
Definition savedPool (t : Cache.Table Cache.Key Cache.PoolRow)
    (poolAddress normalizedToken0 normalizedToken1 routerType : string)
    (isThere : bool) (fee : option string) : Cache.Key * Cache.PoolRow :=
  let k := (chainId, JS.toLowerCase poolAddress) in
  (k, {| Cache.token0 := normalizedToken0;
         Cache.token1 := normalizedToken1;
         Cache.pool_exists := isThere;
         Cache.pool_routerType := routerType;
         Cache.pool_fee :=
           match Cache.findUnique Cache.Key_eqb t k with
           | Some old => Cache.pool_fee old
           | None => match fee with Some f => f | None => "2500" end
           end |}).

(** [getPools]: the two tables afterwards and what is returned or thrown. *)
Definition getPools (db : Db) (token0 token1 router routerType : string)
    (fee : option string) : Db * Detector.Result (option Detector.PoolInfo) :=
  if negb (isAddress token0) || negb (isAddress token1)
  then (db, Detector.Throws "Invalid token addresses provided")
  else
    let normalizedToken0 := JS.toLowerCase token0 in
    let normalizedToken1 := JS.toLowerCase token1 in
    let (ft, factoryResult) := getFactoryAddress (factories db) router routerType in
    let db1 := {| factories := ft; pools := pools db |} in
    match factoryResult with
    | Detector.Throws m => (db1, Detector.Throws m)
    | Detector.Ok None | Detector.Ok (Some EmptyString) => (db1, Detector.Ok None)
    | Detector.Ok (Some factoryAddress) =>
        match poolRead factoryAddress routerType normalizedToken0
                       normalizedToken1 fee with
        | Failed m => (db1, Detector.Throws m)
        | TimedOut m =>
            match findExistingPool (pools db) normalizedToken0 normalizedToken1
                                   routerType None with
            | Some existingPool =>
                if isValidPoolAddress (Detector.poolAddress existingPool)
                then (db1, Detector.Ok (Some existingPool))
                else (db1, Detector.Throws m)
            | None => (db1, Detector.Throws m)
            end
        | Address poolAddress =>
            let isThere := isValidPoolAddress poolAddress in
            match findExistingPool (pools db) normalizedToken0 normalizedToken1
                                   routerType (Some poolAddress) with
            | Some existingPool =>
                if negb (isValidPoolAddress (Detector.poolAddress existingPool))
                then (db1, Detector.Ok None)
                else (db1, Detector.Ok (Some existingPool))
            | None =>
                if negb isThere then (db1, Detector.Ok None)
                else
                  match Cache.savePool chainId (pools db) poolAddress
                          normalizedToken0 normalizedToken1 isThere routerType
                          fee with
                  | Cache.Done pools' =>
                      ({| factories := ft; pools := pools' |},
                       Detector.Ok
                         (Some (infoOf (savedPool (pools db) poolAddress
                                          normalizedToken0 normalizedToken1
                                          routerType isThere fee))))
                  | Cache.UniqueConstraintFailed =>
                      (db1, Detector.Throws "Unique constraint failed")
                  end
            end
        end
    end.

End WithChain.

(** An address as ethers prints it starts with [0x]. *)
Definition hexPrefixed (a : string) : Prop :=
  exists r, a = String "0" (String "x" r).

Fixpoint allZero (s : string) : bool :=
  match s with
  | EmptyString => true
  | String c r => Ascii.eqb c "0" && allZero r
  end.

(** The three ways [getPools] returns [p] for normalized tokens [n0] and
    [n1] when the factory is [fa]: a cached row after a timeout, a cached
    row after the factory answered, or the row just written. *)
Section Paths.

Variable chainId : Z.
Variable chain : Chain.
Variables (db db' : Db) (n0 n1 routerType : string).
Variable fee : option string.

Definition fromCacheAfterTimeout (fa : string) (p : Detector.PoolInfo) : Prop :=
  (exists m, poolRead chain fa routerType n0 n1 fee = TimedOut m)
  /\ findExistingPool chainId (pools db) n0 n1 routerType None = Some p
  /\ isValidPoolAddress (Detector.poolAddress p) = true
  /\ pools db' = pools db.

Definition fromCache (fa : string) (p : Detector.PoolInfo) : Prop :=
  exists x,
    poolRead chain fa routerType n0 n1 fee = Address x
    /\ findExistingPool chainId (pools db) n0 n1 routerType (Some x) = Some p
    /\ isValidPoolAddress (Detector.poolAddress p) = true
    /\ pools db' = pools db.

Definition written (fa : string) (p : Detector.PoolInfo) : Prop :=
  exists x,
    poolRead chain fa routerType n0 n1 fee = Address x
    /\ findExistingPool chainId (pools db) n0 n1 routerType (Some x) = None
    /\ isValidPoolAddress x = true
    /\ Cache.savePool chainId (pools db) x n0 n1 true routerType fee
       = Cache.Done (pools db')
    /\ p = infoOf (savedPool chainId (pools db) x n0 n1 routerType true fee).

End Paths.

End PoolCache.

(* ================================================================== *)
(** * core/mempool.ts: the handler of a pending transaction *)
(* ================================================================== *)

Module Tap.

(** The transaction as the handler sees it: the fields it reads, the raw
    fields it forwards, and what each router's ABI makes of the call data. *)
Record Tx : Type := mkTx {
  tx_raw : Bus.RawTx;
  tx_blockNumber : option Z;
  parseV2 : Parse V2Decoder.Call;
  parseV3 : Parse V3Decoder.Call;
  parseUR : Parse URDecoder.Call
}.

Definition tx_to (tx : Tx) : option string := Bus.raw_to (tx_raw tx).
Definition tx_value (tx : Tx) : Z := Bus.raw_value (tx_raw tx).

Definition asV2 (tx : Tx) : TransactionResponse V2Decoder.Call :=
  {| to := tx_to tx; value := tx_value tx; parseTransaction := parseV2 tx |}.

Definition asV3 (tx : Tx) : TransactionResponse V3Decoder.Call :=
  {| to := tx_to tx; value := tx_value tx; parseTransaction := parseV3 tx |}.

Definition asUR (tx : Tx) : TransactionResponse URDecoder.Call :=
  {| to := tx_to tx; value := tx_value tx; parseTransaction := parseUR tx |}.

(** One [getTransaction] raced against the ten second timer: the
    transaction or [null], an error that counts as a timeout, or another
    error. *)
Inductive Attempt : Type :=
| Returned (tx : option Tx)
| TimeoutError
| OtherError.

(** The attempt failed with an error whose message or code names a
    timeout. *)
Definition isTimeout (a : Attempt) : bool :=
  match a with
  | TimeoutError => true
  | _ => false
  end.

(** How the retry loop ends. *)
Inductive Fetch : Type :=
| Got (tx : option Tx)
| GaveUp                 (* [return] after [maxRetries] failures *)
| Rethrown.              (* a non-timeout error, thrown to the outer catch *)

Definition maxRetries : nat := 3.
Definition retryDelay : Z := 500.

(** The [while (retries < maxRetries)] loop; [getTransaction k] is the
    outcome of the call made after [k] failures.  Returns how the loop ends
    and the delays slept, in order. *)
Fixpoint retryLoop (fuel retries : nat) (getTransaction : nat -> Attempt)
  : Fetch * list Z :=
  match fuel with
  | O => (Got None, [])
  | S fuel' =>
      match getTransaction retries with
      | Returned tx => (Got tx, [])
      | error =>
          let retries' := S retries in
          if (maxRetries <=? retries')%nat then (GaveUp, [])
          else
            match error with
            | TimeoutError =>
                let delay := retryDelay * 2 ^ (Z.of_nat retries' - 1) in
                let (result, delays) := retryLoop fuel' retries' getTransaction in
                (result, delay :: delays)
            | _ => (Rethrown, [])
            end
      end
  end.

Definition fetchTransaction (getTransaction : nat -> Attempt) : Fetch * list Z :=
  retryLoop maxRetries 0 getTransaction.

(** A call of [sendToKafka]. *)
Record Send : Type := mkSend {
  s_txHash : string;
  s_decodedTx : DecodedTransaction;
  s_routerAddress : string;
  s_blockNumber : option Z;
  s_rawTx : option Bus.RawTx
}.

Section Handler.

(** ethers' [getAddress], used by the V3 decoder *)
Variable getAddress : string -> string.

(** [tx.to && isAddressInList(tx.to, list)] *)
Definition toIn (tx : Tx) (addressList : list string) : bool :=
  match tx_to tx with
  | None | Some EmptyString => false
  | Some a => Constants.isAddressInList a addressList
  end.

(** [if (decoded) for (const transaction of decoded)]: the swaps to send,
    none for [null] (and none when the decoder threw). *)
Definition orNil (decoded : URDecoder.Decoded) : list DecodedTransaction :=
  match decoded with
  | URDecoder.Actions actions => actions
  | _ => []
  end.

Definition optList {A} (x : option A) : list A :=
  match x with Some a => [a] | None => [] end.

(** [sendToKafka(txHash, decoded, tx.to!, blockNumber, tx)] with
    [blockNumber = undefined]. *)
Definition call (txHash : string) (tx : Tx) (decoded : DecodedTransaction)
  : Send :=
  {| s_txHash := txHash;
     s_decodedTx := decoded;
     s_routerAddress := match tx_to tx with Some a => a | None => "" end;
     s_blockNumber := None;
     s_rawTx := Some (tx_raw tx) |}.

(** The blocks of the V2 and of the V3 routers, in order. *)
Definition routeV2V3 (txHash : string) (tx : Tx) : list Send :=
  ((if toIn tx Constants.v2Router
    then map (call txHash tx)
             (optList (V2Decoder.decodeV2RouterTx (asV2 tx)))
    else [])
   ++ (if toIn tx Constants.v3Router
       then map (call txHash tx)
                (optList (V3Decoder.decodeV3RouterTx getAddress (asV3 tx)))
       else []))%list.

(** The three routing blocks, in order: the calls of [sendToKafka] made
    for a transaction that passed the filters.  An error thrown by the
    universal-router decoder goes to the handler's [catch], and the two
    blocks after it do not run. *)
Definition route (txHash : string) (tx : Tx) : list Send :=
  if toIn tx Constants.universalRouter
  then
    match URDecoder.decodeUniversalRouterFull (asUR tx) with
    | URDecoder.OutOfRange => []
    | decoded =>
        (map (call txHash tx) (orNil decoded) ++ routeV2V3 txHash tx)%list
    end
  else routeV2V3 txHash tx.

(** [tx.blockNumber] is truthy *)
Definition mined (tx : Tx) : bool :=
  match tx_blockNumber tx with
  | None | Some 0 => false
  | Some _ => true
  end.

(** The handler of the ['pending'] event: the calls of [sendToKafka] it
    makes.  [txReceivedTime] is [Date.now()] after the fetch. *)
Definition onPending (listeningStartTime : Z) (txHash : string)
    (getTransaction : nat -> Attempt) (txReceivedTime : Z) : list Send :=
  match fst (fetchTransaction getTransaction) with
  | Got (Some tx) =>
      if mined tx then []
      else
        let timeSinceListeningStarted := txReceivedTime - listeningStartTime in
        if timeSinceListeningStarted <? 1000 then []
        else route txHash tx
  | _ => []
  end.

End Handler.

(** Two address lists have no address in common, letter case aside. *)
Definition disjointLists (l1 l2 : list string) : bool :=
  forallb (fun x => negb (existsb (String.eqb x)
                            (map Constants.normalizeAddress l2)))
          (map Constants.normalizeAddress l1).

End Tap.

(* ================================================================== *)
(** * Packed V3 paths *)
(* ================================================================== *)

Module Packed.

(** A packed V3 path: a 20-byte token, then a 3-byte fee and a 20-byte token
    for every hop. *)
Definition Hop : Type := (list Byte.byte * list Byte.byte)%type.

Definition packedPath (first : list Byte.byte) (hops : list Hop)
  : list Byte.byte :=
  (first ++ List.concat (map (fun h => fst h ++ snd h) hops))%list.

Definition wellSized (first : list Byte.byte) (hops : list Hop) : Prop :=
  List.length first = 20%nat
  /\ Forall (fun h => List.length (fst h) = 3%nat
                      /\ List.length (snd h) = 20%nat) hops.

(** The big-endian value of a 3-byte fee. *)
Definition feeOf (fee : list Byte.byte) : Z :=
  Z.shiftl (V3Decoder.byteAt fee 0) 16 + Z.shiftl (V3Decoder.byteAt fee 1) 8
  + V3Decoder.byteAt fee 2.

(** The fee of the last hop, [fees] when there is none. *)
Definition lastFee (fees : Z) (hops : list Hop) : Z :=
  fold_left (fun _ h => feeOf (fst h)) hops fees.

End Packed.

(* ================================================================== *)
(** * Notions used to state further properties *)
(* ================================================================== *)

Module Notions.

(** The router the detector looks pools up with for a swap that came
    through a universal router: the first entry of the allow-list of the
    swap's family. *)
Definition canonicalRouter (t : RouterType) : string :=
  match t with
  | v2 => nth 0 Constants.v2Router ""
  | v3 => nth 0 Constants.v3Router ""
  end.

(** The unique key of an opportunity row. *)
Definition keyOf (r : Store.Row) : Z * string :=
  (Store.chainId (Store.columns r), Store.txHash (Store.columns r)).

(** No two rows share [(chainId, txHash)] and no two rows share an [id]. *)
Definition wellKeyed (t : Store.Table) : Prop :=
  NoDup (map keyOf t) /\ NoDup (map Store.id t).

(** The reserve the impact engine takes as [reserveIn]. *)
Definition engineReserveIn (pair : Engine.PairState) (tokenIn : string) : Z :=
  if Engine.isToken0In pair tokenIn
  then Engine.reserve0 pair else Engine.reserve1 pair.

(** The row an upsert leaves in the place of [r]. *)
Definition replaceBy (o : Store.Opportunity) (r : Store.Row) : Store.Row :=
  if Store.sameKey o r then {| Store.id := Store.id r; Store.columns := o |} else r.

(** The message the consumer receives for a record the tap sent. *)
Definition delivered (sent : Bus.ProducerRecord) : Consumer.KafkaMessage :=
  {| Consumer.msg_value := Some (Bus.payload sent);
     Consumer.msg_timestamp := Bus.timestamp sent |}.

(** A row the cleanup has no reason to delete at [now]: [detected], not
    flagged as expired, and with no deadline that the loop finds passed. *)
Definition live (now : Z) (r : Store.Row) : Prop :=
  Store.status (Store.columns r) = Store.detected
  /\ Store.isExpired (Store.metadata (Store.columns r)) <> Some true
  /\ Cleanup.deadlinePassed now r = false.

(** What the three status passes of the cleanup leave, and the ids its loop
    collects. *)
Definition afterStatus (t : Store.Table) : Store.Table :=
  filter (fun r => negb (Cleanup.detectedWithFlag r))
    (filter (fun r => negb (Cleanup.hasStatus Store.pending r))
       (filter (fun r => negb (Cleanup.hasStatus Store.expired r)) t)).

Definition passedIds (now : Z) (t : Store.Table) : list nat :=
  map Store.id (filter (Cleanup.deadlinePassed now)
                  (filter (Cleanup.hasStatus Store.detected) (afterStatus t))).

End Notions.

(* ================================================================== *)
(** * Further concrete cases *)
(* ================================================================== *)

Module Cases.
Import Scenario.

(** [swapTokensForExactTokens]: 1 USDC out for at most 10 WETH in. *)
Definition exactOutTx : TransactionResponse V2Decoder.Call :=
  {| to := Some v2RouterAddr; value := 0;
     parseTransaction :=
       Parsed (V2Decoder.swapTokensForExactTokens 1000000 amountIn1
                 [WETH; USDC] someone (nowSec + 600)) |}.

(** [swapTokensForExactETH]: 1 WETH out for at most 1 USDC in. *)
Definition exactEthOutTx : TransactionResponse V2Decoder.Call :=
  {| to := Some v2RouterAddr; value := 0;
     parseTransaction :=
       Parsed (V2Decoder.swapTokensForExactETH (10 ^ 18) 1000000
                 [USDC; WETH] someone (nowSec + 600)) |}.



(** The swap of scenario 1 sent with deadline [0]. *)
Definition deadlineZeroSwap : DecodedTransaction := v2Swap amountIn1 1000000 0.

(** The consumer five seconds after [consumerEnv], one block later, the pool
    then holding 10 WETH more and 19,000 USDC less. *)
Definition laterConsumerEnv : Consumer.Env :=
  {| Consumer.detectorEnv :=
       env {| Engine.reserve0 := 1010 * 10 ^ 18;
              Engine.reserve1 := 1981000 * 10 ^ 6;
              Engine.token0 := WETH;
              Engine.token1 := USDC |} (nowMs + 5050);
     Consumer.getBlockNumber := Detector.Ok 37000001;
     Consumer.configChainId := 56;
     Consumer.startTime := nowMs + 5050;
     Consumer.newDate := nowMs + 5060 |}.

(** The pending transaction of scenario 1 as the tap fetches it. *)
Definition pendingTx : Tap.Tx :=
  {| Tap.tx_raw :=
       {| Bus.raw_hash := "0xabc";
          Bus.raw_to := Some v2RouterAddr;
          Bus.raw_from := someone;
          Bus.raw_value := 0;
          Bus.raw_data := "0x38ed1739";
          Bus.raw_gasPrice := Some 5000000000;
          Bus.raw_gasLimit := 300000 |};
     Tap.tx_blockNumber := None;
     Tap.parseV2 := parseTransaction (v2Tx amountIn1 1000000 (nowSec + 600));
     Tap.parseV3 := ParseThrows;
     Tap.parseUR := ParseThrows |}.

(** The node times out once, then returns the transaction. *)
Definition secondAttempt (k : nat) : Tap.Attempt :=
  match k with
  | O => Tap.TimeoutError
  | _ => Tap.Returned (Some pendingTx)
  end.

(** A token contract whose [name()] rejects. *)
Definition wethOnChain (address : string) : option TokenCache.ChainToken :=
  Some {| TokenCache.chain_name := None;
          TokenCache.chain_symbol := Some "WETH";
          TokenCache.chain_decimals := Some 18%nat |}.

Definition offline (address : string) : option TokenCache.ChainToken := None.

Definition anyAddress (address : string) : bool := true.

Definition factoryAddr : string := "0x6725f303b657a9451d8ba641348b6761a6cc7a17".

(** A chain on which the V2 factory knows the pool of scenario 1. *)
Definition chain1 : PoolCache.Chain :=
  {| PoolCache.routerReads := fun _ _ => Detector.Ok (factoryAddr, WETH);
     PoolCache.getPair := fun _ _ _ => PoolCache.Address poolAddr;
     PoolCache.getPool := fun _ _ _ _ => PoolCache.Failed "no such pool" |}.

Definition emptyDb : PoolCache.Db :=
  {| PoolCache.factories := []; PoolCache.pools := [] |}.

(** WETH, fee 500, USDC, fee 2500, CAKE as packed path bytes (the tokens
    are stand-ins of the right size). *)
Definition token11 : list Byte.byte := repeat Byte.x11 20.
Definition token22 : list Byte.byte := repeat Byte.x22 20.
Definition token33 : list Byte.byte := repeat Byte.x33 20.
Definition fee500 : list Byte.byte := [Byte.x00; Byte.x01; Byte.xf4].
Definition fee2500 : list Byte.byte := [Byte.x00; Byte.x09; Byte.xc4].

End Cases.

(* ================================================================== *)
(** * Properties *)
(* ================================================================== *)

(** ** The primitives on concrete values *)

Module JSExamples.

Example formatUnits_ex1 : JS.formatUnits 1500000 6 = "1.5".
Proof. reflexivity. Qed.
Example formatUnits_ex2 : JS.formatUnits 2000000 6 = "2.0".
Proof. reflexivity. Qed.
Example formatUnits_ex3 : JS.formatUnits 1 0 = "1".
Proof. reflexivity. Qed.
Example formatUnits_ex4 : JS.formatUnits 12345 18 = "0.000000000000012345".
Proof. reflexivity. Qed.
Example formatUnits_ex5 : JS.formatUnits (-1050) 2 = "-10.5".
Proof. reflexivity. Qed.
Example bigintToString_ex : JS.bigintToString 19939801 = "19939801".
Proof. reflexivity. Qed.
Example BigInt_ex : JS.BigInt "10000000000000000000" = Some (10 * 10 ^ 18).
Proof. reflexivity. Qed.
Example trim_ex : JS.trim "  12 3 " = "12 3".
Proof. reflexivity. Qed.
Example toLowerCase_ex :
  JS.toLowerCase "0x10ED43C718714eb63d5aA57B78B54704E256024E"
  = "0x10ed43c718714eb63d5aa57b78b54704e256024e".
Proof. reflexivity. Qed.
Example parseDecimal_ex : JS.parseDecimal "0.000000000000012345" = Some (12345 # 1000000000000000000).
Proof. reflexivity. Qed.

(** A deadline in seconds is kept; [2^53 + 1] is a tie and goes to the even
    neighbour, [2^53 + 3] to [2^53 + 4]; the largest [uint256] becomes
    [2^256]; a numeral of 401 digits is [Infinity]. *)
Example toNumber_ex1 : JS.toNumber 1712000600 = JS.Finite 1712000600.
Proof. reflexivity. Qed.
Example toNumber_ex2 : JS.toNumber (2 ^ 53 + 1) = JS.Finite (2 ^ 53).
Proof. reflexivity. Qed.
Example toNumber_ex3 : JS.toNumber (2 ^ 53 + 3) = JS.Finite (2 ^ 53 + 4).
Proof. reflexivity. Qed.
Example toNumber_ex4 : JS.toNumber (2 ^ 256 - 1) = JS.Finite (2 ^ 256).
Proof. vm_compute. reflexivity. Qed.
Example toNumber_ex5 : JS.toNumber (10 ^ 400) = JS.Infinity false.
Proof. vm_compute. reflexivity. Qed.
Example toNumber_ex6 :
  JS.toNumber (2 ^ 1024 - 2 ^ 970 - 1) = JS.Finite (2 ^ 1024 - 2 ^ 971)
  /\ JS.toNumber (2 ^ 1024 - 2 ^ 970) = JS.Infinity false.
Proof. split; vm_compute; reflexivity. Qed.

(** [toNumber] rounds as the library's [binary_normalize] does, here on the
    integers above and on some more. *)
Example toNumber_binary64 :
  forallb (fun z =>
             match JS.ofBinary64 (JS.toBinary64 z), JS.toNumber z with
             | Some (JS.Finite a), JS.Finite b => a =? b
             | Some (JS.Infinity a), JS.Infinity b => Bool.eqb a b
             | _, _ => false
             end)
          [ 0; 1; -1; 1712000600; 2 ^ 53 - 1; 2 ^ 53; 2 ^ 53 + 1; 2 ^ 53 + 2;
            2 ^ 53 + 3; - (2 ^ 53 + 1); 2 ^ 54 + 2; 2 ^ 54 + 5; 2 ^ 54 + 6;
            3 * 2 ^ 60 + 2 ^ 7 - 1; 3 * 2 ^ 60 + 2 ^ 7; 3 * 2 ^ 60 + 2 ^ 7 + 1;
            123456789012345678901234567890; 10 ^ 77; 2 ^ 256 - 1;
            2 ^ 1024 - 2 ^ 970 - 1; 2 ^ 1024 - 2 ^ 970; 10 ^ 400; - (10 ^ 400) ]
  = true.
Proof. vm_compute. reflexivity. Qed.

End JSExamples.

(* ================================================================== *)
(** * Facts about the JavaScript primitives *)
(* ================================================================== *)

Module JSFacts.
Import JS.

Lemma lowerAscii_idem (c : ascii) : lowerAscii (lowerAscii c) = lowerAscii c.
Proof. destruct c as [[] [] [] [] [] [] [] []]; reflexivity. Qed.

Lemma toLowerCase_idem (s : string) : toLowerCase (toLowerCase s) = toLowerCase s.
Proof.
  induction s as [|c r IH]; simpl; [reflexivity|].
  now rewrite lowerAscii_idem, IH.
Qed.

Lemma toLowerCase_isLowercase (s : string) : isLowercase (toLowerCase s).
Proof. apply toLowerCase_idem. Qed.

(** ** Digits *)

Lemma digit_cases (d : N) :
  (d < 10)%N ->
  d = 0%N \/ d = 1%N \/ d = 2%N \/ d = 3%N \/ d = 4%N \/ d = 5%N
  \/ d = 6%N \/ d = 7%N \/ d = 8%N \/ d = 9%N.
Proof. lia. Qed.

Ltac each_digit d H :=
  destruct (digit_cases d H) as
    [->|[->|[->|[->|[->|[->|[->|[->|[->| ->]]]]]]]]].

Lemma charDigit_digitChar (d : N) :
  (d < 10)%N -> charDigit (digitChar d) = Some d.
Proof. intros H; each_digit d H; reflexivity. Qed.

Lemma digitChar_not_sign (d : N) :
  (d < 10)%N ->
  Ascii.eqb (digitChar d) "-" = false /\ Ascii.eqb (digitChar d) "+" = false
  /\ Ascii.eqb (digitChar d) "." = false.
Proof. intros H; each_digit d H; repeat split; reflexivity. Qed.

Lemma mod10_lt (n : N) : (n mod 10 < 10)%N.
Proof. apply N.mod_lt; lia. Qed.

Lemma parse_fixedDigits (k : nat) (n acc : N) :
  parseDigitsAcc acc (fixedDigits k n)
  = Some (acc * 10 ^ N.of_nat k + n mod 10 ^ N.of_nat k)%N.
Proof.
  revert acc; induction k as [|k IH]; intros acc.
  - simpl. rewrite N.mod_1_r. f_equal; lia.
  - cbn [fixedDigits parseDigitsAcc].
    rewrite charDigit_digitChar by apply mod10_lt.
    rewrite IH. f_equal.
    rewrite Nat2N.inj_succ, N.pow_succ_r'.
    rewrite (N.mul_comm 10 (10 ^ N.of_nat k)).
    rewrite (N.Div0.mod_mul_r n (10 ^ N.of_nat k) 10).
    lia.
Qed.

Lemma countDigits_pos (f : nat) (n : N) : (1 <= countDigits f n)%nat.
Proof. destruct f; simpl; [lia|]. destruct (n <? 10)%N; lia. Qed.

Lemma countDigits_bound (f : nat) :
  forall n, (n < 10 ^ N.of_nat (S f))%N -> (n < 10 ^ N.of_nat (countDigits f n))%N.
Proof.
  induction f as [|f IH]; intros n Hn.
  - exact Hn.
  - cbn [countDigits]. destruct (N.ltb_spec n 10) as [Hlt|Hge].
    + simpl. lia.
    + assert (Hq : (n / 10 < 10 ^ N.of_nat (S f))%N).
      { apply N.Div0.div_lt_upper_bound.
        rewrite (Nat2N.inj_succ (S f)), N.pow_succ_r' in Hn. lia. }
      specialize (IH _ Hq).
      rewrite Nat2N.inj_succ, N.pow_succ_r'.
      pose proof (N.div_mod n 10 ltac:(lia)) as Hdm.
      pose proof (mod10_lt n). lia.
Qed.

Lemma numDigits_bound (n : N) : (n < 10 ^ N.of_nat (numDigits n))%N.
Proof.
  unfold numDigits. apply countDigits_bound.
  rewrite Nat2N.inj_succ, N2Nat.id.
  destruct n as [|p]; [simpl; lia|].
  pose proof (N.log2_spec (Npos p) ltac:(lia)) as [_ Hlt].
  eapply N.lt_le_trans; [exact Hlt|].
  apply N.pow_le_mono_l. lia.
Qed.

Lemma fixedDigits_nonempty (k : nat) (n : N) :
  (1 <= k)%nat -> exists c r, fixedDigits k n = String c r
                              /\ exists d, (d < 10)%N /\ c = digitChar d.
Proof.
  destruct k as [|k]; [lia|]. intros _. cbn [fixedDigits].
  eexists _, _. split; [reflexivity|]. eexists. split; [apply mod10_lt|reflexivity].
Qed.

Lemma natToString_shape (n : N) :
  exists c r, natToString n = String c r
              /\ exists d, (d < 10)%N /\ c = digitChar d.
Proof. apply fixedDigits_nonempty, countDigits_pos. Qed.

Lemma parseDigits_natToString (n : N) : parseDigits (natToString n) = Some n.
Proof.
  destruct (natToString_shape n) as (c & r & E & _).
  unfold parseDigits. rewrite E, <- E. unfold natToString.
  rewrite parse_fixedDigits. f_equal.
  rewrite N.mod_small by apply numDigits_bound. lia.
Qed.

Lemma BigInt_natToString (n : N) : BigInt (natToString n) = Some (Z.of_N n).
Proof.
  destruct (natToString_shape n) as (c & r & E & d & Hd & ->).
  unfold BigInt. rewrite E.
  destruct (digitChar_not_sign d Hd) as (-> & -> & _).
  rewrite <- E, parseDigits_natToString. reflexivity.
Qed.

(** [BigInt(z.toString()) = z] for every [bigint]. *)
Lemma BigInt_bigintToString (z : Z) : BigInt (bigintToString z) = Some z.
Proof.
  destruct z as [|p|p]; cbn [bigintToString].
  - reflexivity.
  - rewrite BigInt_natToString. reflexivity.
  - unfold BigInt. cbn [Ascii.eqb Bool.eqb].
    rewrite parseDigits_natToString. reflexivity.
Qed.

(** ** [formatUnits] prints a numeral that reads back as the same value *)

Lemma charDigit_not_dot (c : ascii) (d : N) :
  charDigit c = Some d ->
  Ascii.eqb c "." = false /\ Ascii.eqb c "-" = false /\ (d < 10)%N.
Proof.
  destruct c as [[] [] [] [] [] [] [] []]; cbn; intros H;
    try discriminate H; injection H as <-; repeat split; reflexivity.
Qed.

Lemma isZeroChar_digit (c : ascii) : isZeroChar c = true -> charDigit c = Some 0%N.
Proof. unfold isZeroChar. intros H. apply Ascii.eqb_eq in H. now subst. Qed.

Lemma splitDot_digits (s : string) :
  forall acc n t, parseDigitsAcc acc s = Some n ->
    splitDot (s ++ t) = (s ++ fst (splitDot t), snd (splitDot t)).
Proof.
  induction s as [|c r IH]; intros acc n t H.
  - simpl. now destruct (splitDot t).
  - cbn [parseDigitsAcc] in H. destruct (charDigit c) as [d|] eqn:Ec; [|discriminate].
    destruct (charDigit_not_dot _ _ Ec) as (Hdot & _).
    cbn [append splitDot]. rewrite Hdot, (IH _ _ _ H). reflexivity.
Qed.

Lemma append_empty_r (s : string) : s ++ "" = s.
Proof. induction s as [|c r IH]; simpl; [reflexivity|now rewrite IH]. Qed.

(** Dropping trailing zeros divides the value by a power of ten. *)
Lemma parse_dropTrailing_zeros (s : string) :
  forall acc x, parseDigitsAcc acc s = Some x ->
    exists y, parseDigitsAcc acc (dropTrailing isZeroChar s) = Some y
      /\ (String.length (dropTrailing isZeroChar s) <= String.length s)%nat
      /\ (x = y * 10 ^ N.of_nat (String.length s
                                  - String.length (dropTrailing isZeroChar s)))%N.
Proof.
  induction s as [|c r IH]; intros acc x H.
  - exists acc. simpl in *. injection H as <-. repeat split; [lia|]. simpl. lia.
  - cbn [parseDigitsAcc] in H. destruct (charDigit c) as [d|] eqn:Ec; [|discriminate].
    destruct (IH _ _ H) as (y & Hy & Hlen & Hval).
    cbn [dropTrailing]. destruct (dropTrailing isZeroChar r) as [|c' r'] eqn:Er.
    + cbn [parseDigitsAcc] in Hy. injection Hy as <-.
      cbn [String.length] in Hval. rewrite Nat.sub_0_r in Hval.
      destruct (isZeroChar c) eqn:Ez.
      * rewrite (isZeroChar_digit _ Ez) in Ec. injection Ec as <-.
        exists acc. cbn [parseDigitsAcc String.length].
        repeat split; [lia|]. rewrite Nat.sub_0_r, Nat2N.inj_succ, N.pow_succ_r'. lia.
      * exists (acc * 10 + d)%N. cbn [parseDigitsAcc String.length]. rewrite Ec.
        repeat split; [lia|].
        replace (S (String.length r) - 1)%nat with (String.length r) by lia. exact Hval.
    + exists y. cbn [parseDigitsAcc]. rewrite Ec. cbn [parseDigitsAcc] in Hy.
      repeat split; [exact Hy | cbn [String.length] in *; lia |].
      cbn [String.length] in *.
      replace (S (String.length r) - S (S (String.length r')))%nat
        with (String.length r - S (String.length r'))%nat by lia.
      exact Hval.
Qed.

Lemma fixedDigits_length (k : nat) (n : N) : String.length (fixedDigits k n) = k.
Proof. induction k as [|k IH]; simpl; [reflexivity|now rewrite IH]. Qed.

(** The fraction digits printed for [r < 10^d]: a non-empty digit string of
    length [l <= d] whose value [m] satisfies [r = m * 10^(d - l)]. *)
Lemma parse_trimFraction (d : nat) (r : N) :
  (r < 10 ^ N.of_nat d)%N ->
  exists m, parseDigits (trimFraction (fixedDigits d r)) = Some m
    /\ (1 <= String.length (trimFraction (fixedDigits d r)) <= Nat.max 1 d)%nat
    /\ (r * 10 ^ N.of_nat (String.length (trimFraction (fixedDigits d r)))
        = m * 10 ^ N.of_nat d)%N.
Proof.
  intros Hr.
  pose proof (parse_fixedDigits d r 0) as Hp.
  rewrite N.mod_small in Hp by exact Hr.
  replace (0 * 10 ^ N.of_nat d + r)%N with r in Hp by lia.
  destruct (parse_dropTrailing_zeros _ _ _ Hp) as (y & Hy & Hlen & Hval).
  rewrite fixedDigits_length in Hlen, Hval.
  unfold trimFraction.
  destruct (dropTrailing isZeroChar (fixedDigits d r)) as [|c t] eqn:E.
  - cbn [parseDigitsAcc] in Hy. injection Hy as <-.
    exists 0%N. split; [reflexivity|]. split; [cbn [String.length]; lia|].
    rewrite Hval, !N.mul_0_l. reflexivity.
  - exists y. split; [exact Hy|]. split; [cbn [String.length] in *; lia|].
    set (l := String.length (String c t)) in *.
    rewrite Hval, <- N.mul_assoc, <- N.pow_add_r. do 2 f_equal. lia.
Qed.

Lemma succ_pos_pred (n : N) :
  (0 < n)%N -> Z.pos (N.succ_pos (N.pred n)) = Z.of_N n.
Proof.
  intros H. pose proof (N.succ_pos_spec (N.pred n)) as E.
  rewrite N.succ_pred in E by lia. rewrite <- E at 2. reflexivity.
Qed.

(** For a positive amount, [formatUnits] prints a decimal numeral whose
    exact value is [value / 10^decimals]. *)
Lemma parseDecimal_formatUnits (value : Z) (decimals : nat) :
  0 < value ->
  exists q, parseDecimal (formatUnits value decimals) = Some q
    /\ (q == value # Z.to_pos (10 ^ Z.of_nat decimals))%Q.
Proof.
  intros Hv. unfold formatUnits.
  assert (Hs : (value <? 0) = false) by (apply Z.ltb_ge; lia). rewrite Hs.
  set (a := Z.abs_N value).
  assert (Ha : Z.of_N a = value) by (unfold a; rewrite N2Z.inj_abs_N; lia).
  cbn [append].
  destruct decimals as [|d'].
  - destruct (natToString_shape a) as (c & r & E & dg & Hdg & ->).
    unfold parseDecimal. rewrite E.
    destruct (digitChar_not_sign dg Hdg) as (-> & _ & _). rewrite <- E.
    unfold parseUnsignedDecimal.
    pose proof (parseDigits_natToString a) as Hp.
    assert (Hsplit : splitDot (natToString a) = (natToString a, None)).
    { rewrite <- (append_empty_r (natToString a)) at 1.
      unfold parseDigits in Hp. rewrite E in Hp. rewrite <- E in Hp.
      rewrite (splitDot_digits _ _ _ "" Hp). simpl. now rewrite append_empty_r. }
    rewrite Hsplit, Hp. eexists. split; [reflexivity|].
    cbn [option_map]. rewrite Ha. simpl. unfold Qeq; simpl. lia.
  - set (d := S d') in *.
    set (scale := (10 ^ N.of_nat d)%N).
    assert (Hscale : (0 < scale)%N) by (unfold scale; apply N.neq_0_lt_0, N.pow_nonzero; lia).
    set (w := (a / scale)%N). set (r := (a mod scale)%N).
    assert (Hr : (r < scale)%N) by (apply N.mod_lt; lia).
    destruct (parse_trimFraction d r Hr) as (m & Hm & Hlen & Hval).
    set (f := trimFraction (fixedDigits d r)) in *.
    destruct (natToString_shape w) as (c & t & E & dg & Hdg & ->).
    unfold parseDecimal. rewrite E. cbn [append].
    destruct (digitChar_not_sign dg Hdg) as (-> & _ & _).
    change (String (digitChar dg) (t ++ String "." f))
      with (String (digitChar dg) t ++ String "." f).
    rewrite <- E. unfold parseUnsignedDecimal.
    pose proof (parseDigits_natToString w) as Hp.
    assert (Hsplit : splitDot (natToString w ++ String "." f)
                     = (natToString w, Some f)).
    { unfold parseDigits in Hp. rewrite E in Hp. rewrite <- E in Hp.
      rewrite (splitDot_digits _ _ _ (String "." f) Hp). simpl.
      now rewrite append_empty_r. }
    rewrite Hsplit, Hp, Hm. eexists. split; [reflexivity|].
    set (l := String.length f) in *.
    assert (Hl : (0 < 10 ^ N.of_nat l)%N) by (apply N.neq_0_lt_0, N.pow_nonzero; lia).
    unfold Qeq. cbn [Qnum Qden].
    rewrite succ_pos_pred by exact Hl.
    rewrite Z2Pos.id by (apply Z.pow_pos_nonneg; lia).
    rewrite <- Ha.
    replace (10 ^ Z.of_nat d) with (Z.of_N scale)
      by (unfold scale; rewrite N2Z.inj_pow, nat_N_Z; reflexivity).
    rewrite <- !N2Z.inj_mul. f_equal.
    pose proof (N.div_mod a scale ltac:(lia)) as Hdm.
    fold w r in Hdm. fold scale in Hval.
    clearbody w r. rewrite Hdm.
    set (P := (10 ^ N.of_nat l)%N) in *. clearbody P scale. nia.
Qed.

(** Hence the numeral printed for a positive amount is a positive decimal. *)
Lemma parseDecimal_formatUnits_positive (value : Z) (decimals : nat) :
  0 < value ->
  exists q, parseDecimal (formatUnits value decimals) = Some q /\ (0 < q)%Q.
Proof.
  intros Hv. destruct (parseDecimal_formatUnits value decimals Hv) as (q & Hq & E).
  exists q. split; [exact Hq|]. rewrite E. unfold Qlt; simpl. lia.
Qed.

(** ** Digit strings need no trimming *)

Lemma digit_not_space (c : ascii) (d : N) :
  JS.charDigit c = Some d -> JS.isSpace c = false.
Proof.
  destruct c as [[] [] [] [] [] [] [] []]; cbn; intros H;
    try discriminate H; reflexivity.
Qed.

Lemma trim_digits (s : string) :
  forall acc x, JS.parseDigitsAcc acc s = Some x -> JS.trim s = s.
Proof.
  unfold JS.trim. intros acc x H.
  assert (Hstart : JS.trimStart s = s).
  { destruct s as [|c r]; [reflexivity|]. cbn [JS.parseDigitsAcc] in H.
    destruct (JS.charDigit c) as [d|] eqn:Ec; [|discriminate].
    cbn [JS.trimStart]. now rewrite (digit_not_space _ _ Ec). }
  rewrite Hstart. clear Hstart. revert acc x H.
  induction s as [|c r IH]; intros acc x H; [reflexivity|].
  cbn [JS.parseDigitsAcc] in H.
  destruct (JS.charDigit c) as [d|] eqn:Ec; [|discriminate].
  cbn [JS.dropTrailing]. rewrite (IH _ _ H).
  destruct r; [now rewrite (digit_not_space _ _ Ec)|reflexivity].
Qed.

Lemma trim_natToString (n : N) : JS.trim (JS.natToString n) = JS.natToString n.
Proof.
  pose proof (parseDigits_natToString n) as H.
  destruct (natToString_shape n) as (c & r & E & _).
  unfold JS.parseDigits in H. rewrite E in H. rewrite <- E in H.
  exact (trim_digits _ _ _ H).
Qed.

(** ** Integers read into a [number] *)

Lemma roundPositive_small (a : Z) : a < 2 ^ 53 -> roundPositive a = Finite a.
Proof.
  intros H. unfold roundPositive.
  destruct (Z.ltb_spec a (2 ^ 53)); [reflexivity|lia].
Qed.

Lemma roundPositive_large (a : Z) : 2 ^ 53 <= a -> atLeast53 (roundPositive a).
Proof.
  intros H. unfold roundPositive.
  destruct (Z.ltb_spec a (2 ^ 53)); [lia|]. cbv zeta.
  set (e := Z.log2 a - 52).
  assert (Ha : 0 < a) by lia.
  assert (Hlog : 53 <= Z.log2 a).
  { change 53 with (Z.log2 (2 ^ 53)). now apply Z.log2_le_mono. }
  assert (He : 1 <= e) by (unfold e; lia).
  assert (Hpow : 2 <= 2 ^ e).
  { change 2 with (2 ^ 1) at 1. apply Z.pow_le_mono_r; lia. }
  assert (Hq : 2 ^ 52 <= a / 2 ^ e).
  { apply Z.div_le_lower_bound; [lia|].
    rewrite Z.mul_comm, <- Z.pow_add_r by lia.
    replace (52 + e) with (Z.log2 a) by (unfold e; lia).
    apply Z.log2_spec. exact Ha. }
  assert (Hq' : forall b : bool,
             2 ^ 52 <= (if b then a / 2 ^ e + 1 else a / 2 ^ e))
    by (intros []; lia).
  match goal with
  | |- context [if ?b then a / 2 ^ e + 1 else a / 2 ^ e] =>
      specialize (Hq' b); set (q' := if b then _ else _) in *
  end.
  destruct (2 ^ 1024 <=? q' * 2 ^ e); [reflexivity|].
  cbn [atLeast53]. change (2 ^ 53) with (2 ^ 52 * 2). nia.
Qed.

Lemma toNumber_small (z : Z) : - 2 ^ 53 < z < 2 ^ 53 -> toNumber z = Finite z.
Proof.
  intros H. destruct z as [|p|p]; cbn [toNumber]; [reflexivity| |].
  - apply roundPositive_small. lia.
  - rewrite roundPositive_small by lia. reflexivity.
Qed.

Lemma toNumber_large (z : Z) : 2 ^ 53 <= z -> atLeast53 (toNumber z).
Proof.
  intros H. destruct z as [|p|p]; try lia. now apply roundPositive_large.
Qed.

Lemma toNumber_large_negative (z : Z) :
  z <= - 2 ^ 53 -> atLeast53 (negate (toNumber z)).
Proof.
  intros H. destruct z as [|p|p]; try lia. cbn [toNumber].
  assert (Hp : atLeast53 (roundPositive (Z.pos p)))
    by (apply roundPositive_large; lia).
  destruct (roundPositive (Z.pos p)) as [v|s]; cbn [negate atLeast53] in *.
  - lia.
  - now rewrite Hp.
Qed.

(** Rounding keeps the sign. *)
Lemma isPositive_toNumber (z : Z) : isPositive (toNumber z) = (z >? 0).
Proof.
  destruct (Z_lt_le_dec z (2 ^ 53)) as [Hlt|Hge].
  - destruct (Z_lt_le_dec (- 2 ^ 53) z) as [Hgt|Hle].
    + now rewrite toNumber_small by lia.
    + pose proof (toNumber_large_negative z Hle) as H.
      replace (z >? 0) with false by (symmetry; rewrite Z.gtb_ltb; apply Z.ltb_ge; lia).
      destruct (toNumber z) as [v|s]; cbn [negate atLeast53 isPositive] in *.
      * rewrite Z.gtb_ltb. apply Z.ltb_ge. lia.
      * now destruct s.
  - pose proof (toNumber_large z Hge) as H.
    replace (z >? 0) with true by (symmetry; apply Z.gtb_lt; lia).
    destruct (toNumber z) as [v|s]; cbn [atLeast53 isPositive] in *.
    + apply Z.gtb_lt. lia.
    + now rewrite H.
Qed.

(** The sign of the difference to an integer below [2^53] in magnitude is
    the sign of the exact difference. *)
Lemma isPositive_minus (z c : Z) :
  - 2 ^ 53 < c < 2 ^ 53 ->
  isPositive (minus (toNumber z) c) = (z >? c).
Proof.
  intros Hc.
  assert (Hsign : forall v, (v - c >? 0) = (v >? c)).
  { intros v. rewrite !Z.gtb_ltb.
    destruct (Z.ltb_spec 0 (v - c)), (Z.ltb_spec c v); lia || reflexivity. }
  destruct (Z_lt_le_dec z (2 ^ 53)) as [Hlt|Hge].
  - destruct (Z_lt_le_dec (- 2 ^ 53) z) as [Hgt|Hle].
    + rewrite toNumber_small by lia. cbn [minus].
      now rewrite isPositive_toNumber.
    + pose proof (toNumber_large_negative z Hle) as H.
      replace (z >? c) with false by (symmetry; rewrite Z.gtb_ltb; apply Z.ltb_ge; lia).
      destruct (toNumber z) as [v|s]; cbn [negate atLeast53 minus isPositive] in *.
      * rewrite isPositive_toNumber, Z.gtb_ltb. apply Z.ltb_ge. lia.
      * now destruct s.
  - pose proof (toNumber_large z Hge) as H.
    replace (z >? c) with true by (symmetry; apply Z.gtb_lt; lia).
    destruct (toNumber z) as [v|s]; cbn [atLeast53 minus isPositive] in *.
    + rewrite isPositive_toNumber. apply Z.gtb_lt. lia.
    + now rewrite H.
Qed.

End JSFacts.

(* ================================================================== *)
(** * The V2 price-impact engine *)
(* ================================================================== *)

Module EngineFacts.
Import Engine.

(** C3: for positive 256-bit [amountIn], [reserve0] and [reserve1] the
    engine returns, in exact integer arithmetic, the amount
    [(amountInWithFee * reserveOut) / (reserveIn * 1000 + amountInWithFee)]
    with [amountInWithFee = floor(amountIn * 997 / 1000)], where [reserveIn]
    is [reserve0] when [tokenIn] is [token0] (compared in lowercase) and
    [reserve1] otherwise, and [reserveOut] is the other reserve. *)
Theorem getV2PriceImpact_amountOut
    (pair : PairState) (tokenIn : string) (amountIn : Z)
    (decimalsIn decimalsOut : nat) :
  0 < amountIn < 2 ^ 256 ->
  0 < reserve0 pair < 2 ^ 256 ->
  0 < reserve1 pair < 2 ^ 256 ->
  exists r,
    getV2PriceImpact pair tokenIn amountIn decimalsIn decimalsOut = Some r
    /\ (JS.toLowerCase tokenIn = JS.toLowerCase (token0 pair) ->
        reserveIn r = reserve0 pair /\ reserveOut r = reserve1 pair)
    /\ (JS.toLowerCase tokenIn <> JS.toLowerCase (token0 pair) ->
        reserveIn r = reserve1 pair /\ reserveOut r = reserve0 pair)
    /\ amountOut r = Spec.amountOut amountIn (reserveIn r) (reserveOut r).
Proof.
  intros Ha H0 H1. unfold getV2PriceImpact.
  assert (Hfee : amountInWithFee amountIn = Spec.amountInWithFee amountIn).
  { unfold amountInWithFee, Spec.amountInWithFee.
    apply Z.quot_div_nonneg; lia. }
  assert (Hfee0 : 0 <= Spec.amountInWithFee amountIn).
  { unfold Spec.amountInWithFee. apply Z.div_pos; lia. }
  rewrite Hfee.
  set (rIn := if isToken0In pair tokenIn then reserve0 pair else reserve1 pair).
  set (rOut := if isToken0In pair tokenIn then reserve1 pair else reserve0 pair).
  assert (HrIn : 0 < rIn) by (unfold rIn; destruct (isToken0In pair tokenIn); lia).
  assert (HrOut : 0 < rOut) by (unfold rOut; destruct (isToken0In pair tokenIn); lia).
  destruct (Z.eqb_spec (rIn * 1000 + Spec.amountInWithFee amountIn) 0) as [E|_];
    [lia|].
  eexists. split; [reflexivity|]. cbn [reserveIn reserveOut amountOut].
  split; [|split].
  - intros E. apply String.eqb_eq in E. unfold rIn, rOut, isToken0In.
    rewrite E. now split.
  - intros E. apply String.eqb_neq in E. unfold rIn, rOut, isToken0In.
    rewrite E. now split.
  - unfold Spec.amountOut. apply Z.quot_div_nonneg; [|lia].
    apply Z.mul_nonneg_nonneg; [exact Hfee0|lia].
Qed.

(** The formula at the first scenario of the specification. *)
Lemma getV2PriceImpact_amountOut_witness :
  exists r,
    getV2PriceImpact Scenario.pair1 Scenario.WETH Scenario.amountIn1 18 6 = Some r
    /\ (JS.toLowerCase Scenario.WETH = JS.toLowerCase (token0 Scenario.pair1) ->
        reserveIn r = reserve0 Scenario.pair1 /\ reserveOut r = reserve1 Scenario.pair1)
    /\ (JS.toLowerCase Scenario.WETH <> JS.toLowerCase (token0 Scenario.pair1) ->
        reserveIn r = reserve1 Scenario.pair1 /\ reserveOut r = reserve0 Scenario.pair1)
    /\ amountOut r = Spec.amountOut Scenario.amountIn1 (reserveIn r) (reserveOut r).
Proof.
  apply (getV2PriceImpact_amountOut Scenario.pair1 Scenario.WETH Scenario.amountIn1 18 6);
    vm_compute; split; reflexivity.
Defined.

(** C2: at the first scenario of the specification (reserves
    [1000 * 10^18] and [2000000 * 10^6], 10 WETH in) the engine returns
    [amountOut = 19939801], that is 19.94 USDC: below [10000 * 10^6] and a
    thousand times smaller than the expected [19742 * 10^6]; the impact it
    reports is 0.991 percent. *)
Theorem getV2PriceImpact_scenario1 :
  exists r,
    getV2PriceImpact Scenario.pair1 Scenario.WETH Scenario.amountIn1 18 6 = Some r
    /\ amountOut r = 19939801
    /\ amountOut r < 10000 * 10 ^ 6
    /\ ~ (19742 * 10 ^ 6 * 99 <= amountOut r * 100 <= 19742 * 10 ^ 6 * 101)
    /\ PrimFloat.ltb 0.99 (priceImpactPercent r) = true
    /\ PrimFloat.ltb (priceImpactPercent r) 1 = true.
Proof.
  eexists. split; [vm_compute; reflexivity|].
  cbn [amountOut priceImpactPercent].
  split; [reflexivity|]. split; [reflexivity|].
  split; [intros [H _]; vm_compute in H; apply H; reflexivity|].
  split; vm_compute; reflexivity.
Qed.

End EngineFacts.

(* ================================================================== *)
(** * The opportunity detector *)
(* ================================================================== *)

Module DetectorFacts.
Import Detector.

Example decodeV2_scenario (amount minOut deadlineSec : Z) :
  V2Decoder.decodeV2RouterTx (Scenario.v2Tx amount minOut deadlineSec)
  = Some (Scenario.v2Swap amount minOut deadlineSec).
Proof. reflexivity. Qed.






(** ** Which results are opportunities *)

Lemma liquidityGate_rejects (env : Env) (decodedTx : DecodedTransaction)
    (tokenInAddr : string) (pool : PoolInfo) (dIn dOut : nat) (amount : Z)
    (early : OpportunityResult) :
  liquidityGate env decodedTx tokenInAddr pool dIn dOut amount = Some early ->
  isOpportunity early = false.
Proof.
  unfold liquidityGate. intros H.
  destruct (amount >? 0); [|discriminate].
  destruct (routerType decodedTx).
  - destruct (pairAtLiquidityCheck env (poolAddress pool)); [|discriminate].
    cbv zeta in H.
    destruct (amount >? _); [injection H as <-; reflexivity|].
    destruct (_ <? _); [injection H as <-; reflexivity|discriminate].
  - destruct (v3Liquidity env (poolAddress pool)) as [l|]; [|discriminate].
    destruct (l =? 0); [injection H as <-; reflexivity|].
    destruct (l <? MIN_V3_LIQUIDITY); [injection H as <-; reflexivity|discriminate].
Qed.

(** A positive verdict comes from the last step only. *)
Lemma detect_opportunity_is_verdict (env : Env) (txHash : string)
    (decodedTx : DecodedTransaction) (routerAddress : string) :
  isOpportunity (detectOpportunity env txHash decodedTx routerAddress) = true ->
  exists pool dIn dOut impact out,
    detectOpportunity env txHash decodedTx routerAddress
    = verdict env decodedTx pool dIn dOut impact out.
Proof.
  unfold detectOpportunity.
  destruct (getTokenOpt env (tokenIn decodedTx)) as [[tIn|]|m1];
    destruct (getTokenOpt env (tokenOut decodedTx)) as [[tOut|]|m2];
    try (intros H; discriminate H).
  destruct (tokenIn decodedTx) as [tokenInAddr|]; [|intros H; discriminate H].
  destruct (tokenOut decodedTx) as [tokenOutAddr|]; [|intros H; discriminate H].
  destruct (getPools env _ _ _ _ _) as [[pool|]|m]; try (intros H; discriminate H).
  destruct (poolAddress pool) as [|c rest] eqn:EPool; [intros H; discriminate H|].
  destruct (amountInToCheck decodedTx) as [amount|]; [|intros H; discriminate H].
  destruct (liquidityGate _ _ _ _ _ _ _) as [early|] eqn:EGate.
  - intros H. rewrite (liquidityGate_rejects _ _ _ _ _ _ _ _ EGate) in H.
    discriminate H.
  - destruct (computeImpact _ _ _ _ _ _ _ _) as [impact out]. intros _.
    now exists pool, (tokenDecimals tIn), (tokenDecimals tOut), impact, out.
Qed.

(** What a positive verdict carries. *)
Lemma verdict_opportunity (env : Env) (decodedTx : DecodedTransaction)
    (pool : PoolInfo) (dIn dOut : nat) (impact : option float) (out : option Z) :
  let result := verdict env decodedTx pool dIn dOut impact out in
  isOpportunity result = true ->
  (exists profit, 0 < profit
      /\ profitPotential result = Some (JS.formatUnits profit dOut))
  /\ (exists i, priceImpact result = Some i
        /\ PrimFloat.leb MIN_PRICE_IMPACT i = true)
  /\ (exists expired, isExpired result = Some expired).
Proof.
  cbv zeta. unfold verdict.
  destruct (computeDeadline env (deadline decodedTx)) as [[tts dts] expired].
  cbn [isOpportunity profitPotential priceImpact isExpired].
  destruct (computeProfit out (amountOutMin decodedTx)) as [profit|];
    [|intros H; discriminate H].
  destruct impact as [i|]; [|rewrite andb_false_r; intros H; discriminate H].
  intros H. apply andb_prop in H as [Hp Hi].
  split; [exists profit; split; [apply Z.gtb_lt in Hp; lia|reflexivity]|].
  split; [exists i; split; [reflexivity|exact Hi]|].
  now exists expired.
Qed.

(** ** Deadlines *)

(** The deadline a decoder prints from a positive integer: the detector
    trims nothing off it and reads the integer into a [number]. *)
Lemma computeDeadline_decimal (env : Env) (z : Z) :
  0 < z ->
  computeDeadline env (Some (JS.bigintToString z))
  = if JS.isPositive (JS.minus (JS.toNumber z) (now env / 1000))
    then (Some (JS.minus (JS.toNumber z) (now env / 1000)),
          Some (JS.toNumber z), false)
    else (Some (JS.Finite 0), Some (JS.toNumber z), true).
Proof.
  intros Hz. unfold computeDeadline.
  assert (Hs : JS.bigintToString z = JS.natToString (Z.to_N z))
    by (destruct z; try lia; reflexivity).
  pose proof (JSFacts.BigInt_bigintToString z) as Hbig.
  rewrite Hs in *.
  destruct (JSFacts.natToString_shape (Z.to_N z)) as (c & r & E & _).
  rewrite E. rewrite <- E. rewrite JSFacts.trim_natToString.
  assert (Hne : String.eqb (JS.natToString (Z.to_N z)) "" = false)
    by (rewrite E; reflexivity).
  assert (Hn0 : String.eqb (JS.natToString (Z.to_N z)) "0" = false).
  { apply String.eqb_neq. intros E0. rewrite E0 in Hbig.
    cbn in Hbig. injection Hbig as Hbig. lia. }
  rewrite Hne, Hn0, Hbig. reflexivity.
Qed.

(** With the clock a time value, such a deadline is expired exactly when it
    is not after the clock's second, however it is rounded. *)
Lemma computeDeadline_expired (env : Env) (z : Z) :
  0 < z ->
  0 <= now env < 2 ^ 53 ->
  snd (computeDeadline env (Some (JS.bigintToString z)))
  = (z <=? now env / 1000).
Proof.
  intros Hz Hnow. rewrite (computeDeadline_decimal env z Hz).
  assert (Hc : - 2 ^ 53 < now env / 1000 < 2 ^ 53).
  { assert (0 <= now env / 1000) by (apply Z.div_pos; lia).
    assert (now env / 1000 <= now env) by (apply Z.div_le_upper_bound; lia).
    lia. }
  rewrite (JSFacts.isPositive_minus z (now env / 1000) Hc).
  rewrite Z.gtb_ltb, Z.leb_antisym.
  now destruct (now env / 1000 <? z).
Qed.

End DetectorFacts.

(* ================================================================== *)
(** * The bus consumer *)
(* ================================================================== *)

Module ConsumerFacts.
Import Consumer.

(** A number that is at least [0.005] is neither [0] nor [NaN], so
    [x || null] keeps it. *)
Lemma numberOrNull_significant (i : float) :
  PrimFloat.leb Detector.MIN_PRICE_IMPACT i = true ->
  numberOrNull (Some i) = Some i.
Proof.
  intros H. unfold numberOrNull.
  rewrite FloatAxioms.leb_spec in H. rewrite !FloatAxioms.eqb_spec.
  change (Prim2SF 0) with (S754_zero false).
  change (Prim2SF Detector.MIN_PRICE_IMPACT)
    with (S754_finite false 5764607523034235 (-60)) in H.
  destruct (Prim2SF i) as [s|s| |s m e]; cbn in H |- *.
  - discriminate H.
  - destruct s; [discriminate H|reflexivity].
  - discriminate H.
  - destruct s; [discriminate H|].
    unfold SFeqb, SFcompare. rewrite Z.compare_refl, Pos.compare_cont_refl.
    reflexivity.
Qed.

Lemma parseDecimal_nonempty (s : string) (q : Q) :
  JS.parseDecimal s = Some q -> stringOrNull (Some s) = Some s.
Proof. destruct s; [discriminate|reflexivity]. Qed.

(** What every row handed to the upsert carries. *)
Lemma rowToWrite_inv (env : Env) (message : KafkaMessage) (row : Store.Opportunity) :
  rowToWrite env message = Some row ->
  exists opportunity,
    Detector.isOpportunity opportunity = true
    /\ Store.status row = statusOf opportunity
    /\ Store.isExpired (Store.metadata row) = Detector.isExpired opportunity
    /\ (exists p, Store.priceImpact row = Some p
          /\ PrimFloat.leb Detector.MIN_PRICE_IMPACT p = true)
    /\ (exists s q, Store.expectedProfit row = Some s
          /\ JS.parseDecimal s = Some q /\ (0 < q)%Q)
    /\ (exists expired, Detector.isExpired opportunity = Some expired).
Proof.
  unfold rowToWrite. intros H.
  destruct (msg_value message) as [text|]; [|discriminate].
  cbv zeta in H.
  destruct (tooOld _ _ _); [discriminate|].
  destruct (alreadyMined _); [discriminate|].
  destruct (readString _ "txHash") as [txHash|]; [|discriminate].
  destruct (readString _ "routerAddress") as [routerAddress|]; [|discriminate].
  destruct (rehydrate _) as [tx|]; [|discriminate].
  destruct (getBlockNumber env) as [currentBlock|]; [|discriminate].
  destruct (Detector.isOpportunity _) eqn:EOpp; [|discriminate].
  cbn [negb] in H.
  destruct (DetectorFacts.detect_opportunity_is_verdict _ _ _ _ EOpp)
    as (pool & dIn & dOut & impact & out & EV).
  rewrite EV in H, EOpp.
  destruct (DetectorFacts.verdict_opportunity _ _ _ _ _ _ _ EOpp)
    as ((profit & Hprofit & EP) & (i & EI & Hi) & (expired & EX)).
  unfold opportunityColumns in H.
  destruct (tokenIn tx) as [tIn|]; [|discriminate].
  destruct (tokenOut tx) as [tOut|]; [|discriminate].
  injection H as <-.
  eexists. split; [exact EOpp|].
  cbn [Store.status Store.metadata Store.isExpired Store.priceImpact
       Store.expectedProfit].
  split; [reflexivity|]. split; [reflexivity|].
  destruct (JSFacts.parseDecimal_formatUnits_positive profit dOut Hprofit)
    as (q & Hq & Hpos).
  split; [|split].
  - exists i. rewrite EI. split; [apply numberOrNull_significant, Hi|exact Hi].
  - exists (JS.formatUnits profit dOut), q. rewrite EP.
    split; [exact (parseDecimal_nonempty _ _ Hq)|]. now split.
  - exists expired. exact EX.
Qed.

(** The status of a positive verdict is decided by the deadline. *)
Lemma verdict_status (env : Detector.Env) (decodedTx : DecodedTransaction)
    (pool : Detector.PoolInfo) (dIn dOut : nat) (impact : option float)
    (out : option Z) :
  let result := Detector.verdict env decodedTx pool dIn dOut impact out in
  Detector.isOpportunity result = true ->
  statusOf result
  = if snd (Detector.computeDeadline env (deadline decodedTx))
    then Store.expired else Store.detected.
Proof.
  cbv zeta. unfold statusOf, Detector.verdict.
  destruct (Detector.computeDeadline env (deadline decodedTx))
    as [[tts dts] expired].
  cbn [Detector.isOpportunity Detector.isExpired snd].
  intros ->. now destruct expired.
Qed.

(** The swap behind a written row, its verdict and what decides the
    status. *)
Lemma rowToWrite_swap (env : Env) (message : KafkaMessage)
    (row : Store.Opportunity) :
  rowToWrite env message = Some row ->
  exists text txHash routerAddress swap,
    msg_value message = Some text
    /\ rehydrate (Bus.getProp (Bus.jsonParse text) "decodedTx") = Some swap
    /\ Detector.isOpportunity
         (Detector.detectOpportunity (detectorEnv env) txHash swap
            routerAddress) = true
    /\ Store.deadline row = deadline swap
    /\ Store.status row
       = if snd (Detector.computeDeadline (detectorEnv env) (deadline swap))
         then Store.expired else Store.detected.
Proof.
  unfold rowToWrite. intros H.
  destruct (msg_value message) as [text|]; [|discriminate].
  cbv zeta in H.
  destruct (tooOld _ _ _); [discriminate|].
  destruct (alreadyMined _); [discriminate|].
  destruct (readString _ "txHash") as [txHash|]; [|discriminate].
  destruct (readString _ "routerAddress") as [routerAddress|]; [|discriminate].
  destruct (rehydrate _) as [tx|] eqn:ETx; [|discriminate].
  destruct (getBlockNumber env) as [currentBlock|]; [|discriminate].
  destruct (Detector.isOpportunity _) eqn:EOpp; [|discriminate].
  cbn [negb] in H.
  exists text, txHash, routerAddress, tx.
  split; [reflexivity|]. split; [exact ETx|]. split; [exact EOpp|].
  destruct (DetectorFacts.detect_opportunity_is_verdict _ _ _ _ EOpp)
    as (pool & dIn & dOut & impact & out & EV).
  rewrite EV in H, EOpp.
  pose proof (verdict_status _ _ _ _ _ _ _ EOpp) as HS.
  unfold opportunityColumns in H.
  destruct (tokenIn tx) as [tIn|]; [|discriminate].
  destruct (tokenOut tx) as [tOut|]; [|discriminate].
  injection H as <-. cbn [Store.deadline Store.status].
  split; [reflexivity|exact HS].
Qed.

(** C1, as the code has it: every row the consumer writes stores a price
    impact of at least [0.005] and an expected profit that reads as a
    positive decimal; it is written only for a swap on which the detector
    returned a positive verdict, and its status is decided by the swap's
    deadline and the consumer's clock: [expired] exactly when the deadline
    is a time other than [0] that is not after the clock's second, and
    [detected] otherwise, which includes the deadline [0] and a swap
    without a deadline. *)
Theorem detected_row_invariant (env : Env) (message : KafkaMessage)
    (row : Store.Opportunity) :
  0 <= Detector.now (detectorEnv env) < 2 ^ 53 ->
  rowToWrite env message = Some row ->
  (exists p, Store.priceImpact row = Some p
     /\ PrimFloat.leb Detector.MIN_PRICE_IMPACT p = true)
  /\ (exists s q, Store.expectedProfit row = Some s
        /\ JS.parseDecimal s = Some q /\ (0 < q)%Q)
  /\ (Store.status row = Store.detected \/ Store.status row = Store.expired)
  /\ exists text txHash routerAddress swap,
       msg_value message = Some text
       /\ rehydrate (Bus.getProp (Bus.jsonParse text) "decodedTx") = Some swap
       /\ Detector.isOpportunity
            (Detector.detectOpportunity (detectorEnv env) txHash swap
               routerAddress) = true
       /\ Store.deadline row = deadline swap
       /\ (deadline swap = None -> Store.status row = Store.detected)
       /\ (forall z, 0 <= z -> deadline swap = Some (JS.bigintToString z) ->
             (Store.status row = Store.expired
              <-> z <> 0
                  /\ Spec.expired (Detector.now (detectorEnv env) / 1000) z)
             /\ (Store.status row = Store.detected
                 <-> z = 0
                     \/ ~ Spec.expired (Detector.now (detectorEnv env) / 1000) z)).
Proof.
  intros Hnow H.
  destruct (rowToWrite_inv _ _ _ H) as (opp & _ & _ & _ & HP & HQ & _).
  destruct (rowToWrite_swap _ _ _ H)
    as (text & txHash & routerAddress & swap & Etext & Eswap & EOpp & Edl & ES).
  split; [exact HP|]. split; [exact HQ|].
  split; [rewrite ES; destruct (snd _); [now right|now left]|].
  exists text, txHash, routerAddress, swap.
  split; [exact Etext|]. split; [exact Eswap|]. split; [exact EOpp|].
  split; [exact Edl|]. split.
  - intros En. rewrite ES, En. reflexivity.
  - intros z Hz Ez. rewrite ES, Ez. unfold Spec.expired.
    destruct (Z.eq_dec z 0) as [->|Hz0].
    + change (snd (Detector.computeDeadline (detectorEnv env)
                     (Some (JS.bigintToString 0)))) with false.
      split; split; [discriminate|intros [E _]; now elim E|now left|reflexivity].
    + rewrite (DetectorFacts.computeDeadline_expired _ z) by lia.
      destruct (Z.leb_spec z (Detector.now (detectorEnv env) / 1000)).
      * split; split;
          [intros _; now split|reflexivity|discriminate|intros [E|E]; contradiction].
      * split; split;
          [discriminate|intros [_ E]; lia|intros _; right; lia|reflexivity].
Qed.

(** Scenario: the tap publishes a swap of 10 WETH for at least 1 USDC with
    ten minutes to go; the consumer writes a [detected] row with impact
    [0.0099] and profit ["18.939801"]. *)
Lemma detected_row_invariant_witness :
  exists row,
    rowToWrite (Scenario.consumerEnv Scenario.pair1)
               (Scenario.messageFor "0xabc" Scenario.swap1) = Some row
    /\ Store.status row = Store.detected
    /\ Store.expectedProfit row = Some "18.939801"
    /\ (exists p, Store.priceImpact row = Some p
          /\ PrimFloat.leb Detector.MIN_PRICE_IMPACT p = true)
    /\ (exists s q, Store.expectedProfit row = Some s
          /\ JS.parseDecimal s = Some q /\ (0 < q)%Q).
Proof.
  assert (H : exists row,
             rowToWrite (Scenario.consumerEnv Scenario.pair1)
                        (Scenario.messageFor "0xabc" Scenario.swap1) = Some row
             /\ Store.status row = Store.detected
             /\ Store.expectedProfit row = Some "18.939801").
  { vm_compute. eexists. split; [reflexivity|]. split; reflexivity. }
  destruct H as (row & E & HS & HP).
  exists row. split; [exact E|]. split; [exact HS|]. split; [exact HP|].
  destruct (detected_row_invariant (Scenario.consumerEnv Scenario.pair1)
              (Scenario.messageFor "0xabc" Scenario.swap1) row
              ltac:(vm_compute; split; [discriminate|reflexivity]) E)
    as (Hp & Hq & _).
  split; [exact Hp|exact Hq].
Defined.

(** C1 as stated fails: a swap sent with deadline [0] has expired, and the
    detector, which takes the string ["0"] for no deadline, does not flag
    it: the consumer writes the row as [detected]. *)
Lemma detected_row_counterexample :
  ~ (forall (env : Env) (message : KafkaMessage) (row : Store.Opportunity)
            (text : Bus.Json) (swap : DecodedTransaction) (z : Z),
       rowToWrite env message = Some row ->
       msg_value message = Some text ->
       rehydrate (Bus.getProp (Bus.jsonParse text) "decodedTx") = Some swap ->
       deadline swap = Some (JS.bigintToString z) ->
       (Store.status row = Store.detected
        <-> ~ Spec.expired (Detector.now (detectorEnv env) / 1000) z)).
Proof.
  intros H.
  assert (E : exists row text swap,
             rowToWrite (Scenario.consumerEnv Scenario.pair1)
               (Scenario.messageFor "0xabc" Cases.deadlineZeroSwap) = Some row
             /\ msg_value (Scenario.messageFor "0xabc" Cases.deadlineZeroSwap)
                = Some text
             /\ rehydrate (Bus.getProp (Bus.jsonParse text) "decodedTx")
                = Some swap
             /\ deadline swap = Some (JS.bigintToString 0)
             /\ Store.status row = Store.detected).
  { vm_compute. eexists. eexists. eexists.
    split; [reflexivity|]. split; [reflexivity|]. split; [reflexivity|].
    split; reflexivity. }
  destruct E as (row & text & swap & Erow & Etext & Eswap & Edl & Est).
  apply (proj1 (H _ _ _ _ _ _ Erow Etext Eswap Edl) Est).
  unfold Spec.expired. vm_compute. discriminate.
Qed.

End ConsumerFacts.

(* ================================================================== *)
(** * The decoders *)
(* ================================================================== *)

Module DecoderFacts.
Import URDecoder.

(** ** The decoders on concrete calldata *)

Example chunk2_ex :
  Decoders.commandBytes
    {| exec_commands := "0x0008"; exec_inputs := []; exec_deadline := None |}
  = ["00"; "08"].
Proof. reflexivity. Qed.

(** An unrecognized command (here [0x0b], WRAP_ETH) is skipped. *)
Example unknown_commands_ex :
  decodeUniversalRouterFull
    {| to := Some Scenario.universalRouterAddr; value := 0;
       parseTransaction :=
         Parsed {| exec_commands := "0x0b"; exec_inputs := [Scenario.urInput];
                   exec_deadline := None |} |}
  = Actions [].
Proof. reflexivity. Qed.

(** Two commands with one input: reading [inputs[1]] throws, and the swap
    of the first command is lost with it. *)
Example missing_input_ex :
  decodeUniversalRouterFull
    {| to := Some Scenario.universalRouterAddr; value := 0;
       parseTransaction :=
         Parsed {| exec_commands := "0x0809"; exec_inputs := [Scenario.urInput];
                   exec_deadline := None |} |}
  = OutOfRange.
Proof. reflexivity. Qed.

(** A path of one address: [pathBytes[1]] throws inside [decodeV2ExactIn],
    and the swap is built from [{ raw, error }]. *)
Example short_path_ex :
  exists d,
    decodeCommand Scenario.universalRouterAddr None "08"
      (Some {| asV3Tuple := None;
               asV2Tuple := Some (Scenario.someone, Scenario.amountIn1, 1000000,
                                  [Scenario.WETH], true) |}) = Some d
    /\ tokenIn d = None /\ tokenOut d = None /\ recipient d = None
    /\ payerIsUser d = None /\ amountIn d = AmtStr "0".
Proof. eexists. split; [reflexivity|]. repeat split. Qed.

(** An empty path makes the V2 router decoder return [null]. *)
Example empty_path_ex :
  V2Decoder.decodeV2RouterTx
    {| to := Some Scenario.v2RouterAddr; value := 0;
       parseTransaction :=
         Parsed (V2Decoder.swapExactETHForTokens false 1000000 []
                   Scenario.someone (Scenario.nowSec + 600)) |} = None.
Proof. reflexivity. Qed.

(** A packed V3 path WETH, fee 500 ([0x0001f4]), USDC as the universal
    router receives it (a hex string). *)
Example ur_decodeV3Path_ex :
  let p := decodeV3Path
             ("0x" ++ "bb4cdb9cbd36b01bd1cbaebf2de08d9173bc095c" ++ "0001f4"
                   ++ "8ac76a51cc950d9822d68b83fe1ad97b32cd580d") in
  vp_tokenIn p = Scenario.WETH /\ vp_tokenOut p = Scenario.USDC
  /\ vp_fees p = JS.Int 500.
Proof. repeat split. Qed.

(** The same path as bytes, for the V3 router decoder. *)
Example v3_pathLoop_ex :
  let bytes := (repeat Byte.x11 20 ++ [Byte.x00; Byte.x01; Byte.xf4]
                ++ repeat Byte.x22 20)%list in
  let p := V3Decoder.decodeV3Path (fun a => a) bytes in
  V3Decoder.p_tokenIn p = Some "0x1111111111111111111111111111111111111111"
  /\ V3Decoder.p_tokenOut p = Some "0x2222222222222222222222222222222222222222"
  /\ V3Decoder.p_fees p = 500.
Proof. repeat split. Qed.

(** [swapTokensForExactTokens]: [amountIn] is [0n] and [amountInMax] carries
    the bound, which the detector then uses. *)
Example v2_exact_out_ex :
  exists d,
    V2Decoder.decodeV2RouterTx
      {| to := Some Scenario.v2RouterAddr; value := 0;
         parseTransaction :=
           Parsed (V2Decoder.swapTokensForExactTokens (10 ^ 18) (5 * 10 ^ 18)
                     [Scenario.WETH; Scenario.USDC] Scenario.someone
                     (Scenario.nowSec + 600)) |} = Some d
    /\ amountIn d = AmtBig 0
    /\ amountInMax d = "5000000000000000000"
    /\ Detector.amountInToCheck d = Some (5 * 10 ^ 18).
Proof. eexists. split; [reflexivity|]. repeat split. Qed.

(** ** The V2 router decoder *)

Lemma returned_some (path : list string) (decoded d : DecodedTransaction) :
  V2Decoder.returned path decoded = Some d -> d = decoded /\ path <> [].
Proof.
  destruct path; [discriminate|]. intros H. injection H as <-.
  split; [reflexivity|discriminate].
Qed.

(** Every swap of the V2 router decoder is of family [v2] with fee ["0"]. *)
Lemma v2_decoder_fee (tx : TransactionResponse V2Decoder.Call)
    (d : DecodedTransaction) :
  V2Decoder.decodeV2RouterTx tx = Some d ->
  routerType d = v2 /\ fee d = Some "0" /\ router d = toOrEmpty tx.
Proof.
  unfold V2Decoder.decodeV2RouterTx.
  destruct (parseTransaction tx) as [| |c]; try discriminate.
  destruct c; intros H; try discriminate H;
    apply returned_some in H as [-> _]; repeat split.
Qed.

(** ** The loop of the universal-router decoder *)




Lemma commandLoop_In (router : string) (deadline : option Z)
    (inputs : list Input) (cmds : list string) :
  forall i d actions,
    commandLoop router deadline cmds inputs i = Some actions ->
    In d actions ->
    exists cmd input, decodeCommand router deadline cmd input = Some d.
Proof.
  induction cmds as [|c rest IH]; intros i d actions Hloop Hin.
  - injection Hloop as <-. destruct Hin.
  - cbn [commandLoop] in Hloop.
    destruct (nth_error inputs i) as [input0|]; [|discriminate Hloop].
    destruct (commandLoop router deadline rest inputs (S i)) as [later|] eqn:El;
      [|discriminate Hloop].
    destruct (decodeCommand router deadline c (Some input0)) as [a|] eqn:E;
      injection Hloop as <-.
    + destruct Hin as [<-|Hin]; [now exists c, (Some input0)|].
      exact (IH _ _ _ El Hin).
    + exact (IH _ _ _ El Hin).
Qed.


(** C5: a [V2_EXACT_IN] ([0x08]) or [V2_EXACT_OUT] ([0x09]) command of the
    universal router always yields a swap of family [v2] whose [fee] is
    undefined, not the string ["0"] that the V2 router decoder stores. *)
Theorem ur_v2_command_fee_undefined (router : string) (deadline : option Z)
    (input : option Input) :
  (exists d, decodeCommand router deadline "08" input = Some d
             /\ method d = "V2_EXACT_IN" /\ routerType d = v2 /\ fee d = None)
  /\ (exists d, decodeCommand router deadline "09" input = Some d
                /\ method d = "V2_EXACT_OUT" /\ routerType d = v2 /\ fee d = None).
Proof.
  split; eexists; (split; [reflexivity|]); cbn [method routerType fee action];
    (split; [reflexivity|]); (split; [reflexivity|]).
  - unfold decodeV2ExactIn.
    destruct input as [[a3 [[[[[r a] b] pth] pay]|]]|]; try reflexivity.
    destruct (decodeV2Path pth) as [[tIn tOut]|]; reflexivity.
  - unfold decodeV2ExactOut.
    destruct input as [[a3 [[[[[r a] b] pth] pay]|]]|]; try reflexivity.
    destruct (decodeV2Path pth) as [[tIn tOut]|]; reflexivity.
Qed.

Example ur_scenario_fee :
  exists d, decodeUniversalRouterFull Scenario.urTx = Actions [d]
            /\ routerType d = v2 /\ fee d = None
            /\ tokenOut d = Some Scenario.CAKE.
Proof. eexists. split; [reflexivity|]. repeat split. Qed.



(** ** Lowercase addresses *)

Lemma normalizeAddress_lowercase (a : string) :
  JS.isLowercase (Constants.normalizeAddress a).
Proof.
  destruct a as [|c r]; [reflexivity|]. apply JSFacts.toLowerCase_isLowercase.
Qed.

Lemma normalizeAddressOpt_lowercase (a : option string) :
  JS.optLowercase (Constants.normalizeAddressOpt a).
Proof.
  intros s H. destruct a as [a|]; [|discriminate H].
  injection H as <-. apply normalizeAddress_lowercase.
Qed.

Lemma Some_lowercase (a : string) :
  JS.isLowercase a -> JS.optLowercase (Some a).
Proof. intros H s E. now injection E as <-. Qed.

(** C7, as the code has it: a swap decoded by the V3 router decoder has
    [tokenIn], [tokenOut] and [recipient] in lowercase form (whatever case
    the parser and [getAddress] produce), and its [router] is the
    transaction's [to] as received. *)
Theorem v3_decoder_addresses (getAddress : string -> string)
    (tx : TransactionResponse V3Decoder.Call) (d : DecodedTransaction) :
  V3Decoder.decodeV3RouterTx getAddress tx = Some d ->
  JS.optLowercase (tokenIn d)
  /\ JS.optLowercase (tokenOut d)
  /\ JS.optLowercase (recipient d)
  /\ router d = toOrEmpty tx.
Proof.
  unfold V3Decoder.decodeV3RouterTx.
  destruct (parseTransaction tx) as [| |c]; try discriminate.
  destruct c; intros H; try discriminate H; injection H as <-;
    cbn [tokenIn tokenOut recipient router];
    repeat split;
    first [ apply normalizeAddressOpt_lowercase
          | apply Some_lowercase, normalizeAddress_lowercase ].
Qed.

Lemma v3_decoder_addresses_witness :
  exists d,
    V3Decoder.decodeV3RouterTx (fun a => a) Scenario.v3Tx = Some d
    /\ tokenIn d = Some Scenario.WETH
    /\ JS.optLowercase (tokenIn d)
    /\ JS.optLowercase (tokenOut d)
    /\ JS.optLowercase (recipient d)
    /\ router d = toOrEmpty Scenario.v3Tx.
Proof.
  eexists. split; [reflexivity|]. split; [reflexivity|].
  apply (v3_decoder_addresses (fun a => a) Scenario.v3Tx). reflexivity.
Defined.

(** C7 as stated fails: the V3 router decoder copies [tx.to] into [router]
    unchanged, and ethers reports it in mixed case. *)
Lemma decoders_lowercase_counterexample :
  ~ (forall d, Decoders.emitted d -> Decoders.addressesLowercase d).
Proof.
  intros H.
  assert (E : exists d,
             V3Decoder.decodeV3RouterTx (fun a => a) Scenario.v3Tx = Some d
             /\ String.eqb (JS.toLowerCase (router d)) (router d) = false).
  { eexists. split; [reflexivity|]. vm_compute. reflexivity. }
  destruct E as (d & E & Hneq).
  assert (Hd : Decoders.emitted d).
  { right; left. exists (fun a => a), Scenario.v3Tx. exact E. }
  destruct (H d Hd) as [Hrouter _].
  apply String.eqb_eq in Hrouter. congruence.
Qed.

(** ** The bus round trip *)

Lemma wf_big (z : Z) : Decoders.amountWellFormed (AmtBig z).
Proof. exists z. now left. Qed.

Lemma wf_str (z : Z) : Decoders.amountWellFormed (AmtStr (JS.bigintToString z)).
Proof. exists z. now right. Qed.

Lemma wf_orZero (x : option string) :
  (x = None \/ exists z, x = Some (JS.bigintToString z)) ->
  Decoders.amountWellFormed (AmtStr (orZero x)).
Proof.
  intros [-> | [z ->]]; [exact (wf_str 0)|exact (wf_str z)].
Qed.

Lemma decodeCommand_amount (router : string) (deadline : option Z)
    (cmd : string) (input : option Input) (d : DecodedTransaction) :
  decodeCommand router deadline cmd input = Some d ->
  Decoders.amountWellFormed (amountIn d).
Proof.
  unfold decodeCommand.
  destruct (CMD_TYPE (parseIntHex cmd)); intros H; try discriminate H;
    injection H as <-; cbn [amountIn action]; apply wf_orZero.
  - unfold decodeV3ExactIn.
    destruct input as [[[[[[[r a] b] pth] pay]|] a2]|]; cbn; eauto.
  - unfold decodeV3ExactOut.
    destruct input as [[[[[[[r a] b] pth] pay]|] a2]|]; cbn; eauto.
  - unfold decodeV2ExactIn.
    destruct input as [[a3 [[[[[r a] b] pth] pay]|]]|]; cbn; eauto.
    destruct (decodeV2Path pth) as [[tIn tOut]|]; cbn; eauto.
  - unfold decodeV2ExactOut.
    destruct input as [[a3 [[[[[r a] b] pth] pay]|]]|]; cbn; eauto.
    destruct (decodeV2Path pth) as [[tIn tOut]|]; cbn; eauto.
Qed.

Lemma emitted_amount (d : DecodedTransaction) :
  Decoders.emitted d -> Decoders.amountWellFormed (amountIn d).
Proof.
  intros [[tx H] | [[getAddress [tx H]] | [tx [actions [H Hin]]]]].
  - unfold V2Decoder.decodeV2RouterTx in H.
    destruct (parseTransaction tx) as [| |c]; try discriminate.
    destruct c; try discriminate H; apply returned_some in H as [-> _];
      first [apply wf_big | apply wf_str].
  - unfold V3Decoder.decodeV3RouterTx in H.
    destruct (parseTransaction tx) as [| |c]; try discriminate.
    destruct c; try discriminate H; injection H as <-; apply wf_str.
  - unfold decodeUniversalRouterFull in H.
    destruct (parseTransaction tx) as [| |exec]; try discriminate.
    destruct (exec_commands exec); [discriminate|].
    destruct (commandLoop _ _ _ _ _) as [l|] eqn:El; [|discriminate].
    injection H as <-.
    destruct (commandLoop_In _ _ _ _ _ _ _ El Hin) as (cmd & input & Hdec).
    exact (decodeCommand_amount _ _ _ _ _ Hdec).
Qed.

Lemma wellFormed_value (a : Amount) :
  Decoders.amountWellFormed a ->
  exists n, Detector.amountToBigInt a = Some n
            /\ JS.BigInt (Bus.amountToString a) = Some n.
Proof.
  intros [z [-> | ->]]; exists z; cbn [Detector.amountToBigInt Bus.amountToString];
    rewrite JSFacts.BigInt_bigintToString; now split.
Qed.

(** The consumer reads back what [serializeDecodedTx] wrote. *)
Lemma rehydrate_serialized (d : DecodedTransaction) (n : Z) :
  JS.BigInt (Bus.amountToString (amountIn d)) = Some n ->
  exists text,
    Bus.jsonStringify (Bus.serializeDecodedTx d) = Some text
    /\ Consumer.rehydrate (Bus.jsonParse text)
       = Some (Decoders.withAmountIn d (AmtBig n)).
Proof.
  intros Hn.
  destruct d as [rt mt tIn tOut aIn aOut dl fe rc aMin pay aMax ty].
  cbn [amountIn] in Hn.
  destruct tIn, tOut, dl, fe, rc, aMin, pay as [[]|], ty;
    (eexists; split; [reflexivity|]);
    unfold Consumer.rehydrate; cbn -[JS.BigInt]; rewrite Hn; reflexivity.
Qed.

(** *** [JSON.parse(JSON.stringify(o))] keeps the defined properties *)

Lemma stringify_object (props : list (string * Bus.JsValue)) :
  Bus.jsonStringify (Bus.VObject props)
  = option_map Bus.JObject (Bus.stringifyProps props).
Proof. reflexivity. Qed.

Lemma stringifyProps_cons (k : string) (x : Bus.JsValue)
    (r : list (string * Bus.JsValue)) :
  Bus.stringifyProps ((k, x) :: r)
  = match x with
    | Bus.VUndefined => Bus.stringifyProps r
    | _ => match Bus.jsonStringify x, Bus.stringifyProps r with
           | Some j, Some r' => Some ((k, j) :: r')
           | _, _ => None
           end
    end.
Proof. destruct x; reflexivity. Qed.

Lemma parse_object (props : list (string * Bus.Json)) :
  Bus.jsonParse (Bus.JObject props) = Bus.VObject (Bus.parseProps props).
Proof. reflexivity. Qed.

(** An object whose properties are undefined or can be stringified can be
    stringified. *)
Lemma stringifyProps_some (props : list (string * Bus.JsValue)) :
  Forall (fun kx => snd kx = Bus.VUndefined
                    \/ exists j, Bus.jsonStringify (snd kx) = Some j) props ->
  exists text, Bus.stringifyProps props = Some text.
Proof.
  induction 1 as [|[k x] r Hx _ IH]; [now exists []|].
  destruct IH as (rt & Hr). rewrite stringifyProps_cons, Hr.
  cbn [snd] in Hx. destruct Hx as [-> | (j & Hj)]; [now exists rt|].
  rewrite Hj. destruct x; eauto.
Qed.

(** A defined property read after the round trip is the round trip of the
    property. *)
Lemma lookup_after_round_trip (k : string) (props : list (string * Bus.JsValue)) :
  forall text j,
    Bus.stringifyProps props = Some text ->
    Bus.jsonStringify (Bus.lookup props k) = Some j ->
    Bus.lookup (Bus.parseProps text) k = Bus.jsonParse j.
Proof.
  induction props as [|[k' x] r IH]; intros text j Hs Hj.
  - discriminate Hj.
  - rewrite stringifyProps_cons in Hs. cbn [Bus.lookup] in Hj.
    destruct (String.eqb k' k) eqn:Ek.
    + assert (Hs' : match Bus.stringifyProps r with
                    | Some r' => Some ((k', j) :: r')
                    | None => None
                    end = Some text).
      { destruct x; try discriminate Hj; rewrite Hj in Hs; exact Hs. }
      destruct (Bus.stringifyProps r) as [rt|]; [|discriminate Hs'].
      injection Hs' as <-. cbn [Bus.parseProps Bus.lookup]. now rewrite Ek.
    + assert (Hs' : exists rt, Bus.stringifyProps r = Some rt
                               /\ Bus.lookup (Bus.parseProps text) k
                                  = Bus.lookup (Bus.parseProps rt) k).
      { remember (Bus.jsonStringify x) as sx eqn:Esx. clear Esx.
        destruct x; try (exists text; split; [exact Hs|reflexivity]);
          destruct sx as [jx|]; try discriminate Hs;
          destruct (Bus.stringifyProps r) as [rt|]; try discriminate Hs;
          injection Hs as <-; exists rt; (split; [reflexivity|]);
          cbn [Bus.parseProps Bus.lookup]; now rewrite Ek. }
      destruct Hs' as (rt & Hr & ->). exact (IH _ _ Hr Hj).
Qed.

Lemma rawTx_stringify (r : Bus.RawTx) :
  exists text, Bus.jsonStringify (Bus.rawTxObject r) = Some text.
Proof.
  destruct r as [h t f v dt gp gl]. destruct t, gp; eexists; reflexivity.
Qed.

(** C9, as the code has it: a swap emitted by a decoder, serialized into the
    bus envelope by [sendToKafka] and parsed and rehydrated by the consumer,
    comes back with every field other than [amountIn] equal to the
    original; [amountIn], sent as a decimal string, comes back as the
    [bigint] of the value the original holds, so the record is equal to the
    original in every field exactly when the decoder stored a [bigint]. *)
Theorem bus_round_trip (d : DecodedTransaction) (txHash routerAddress : string)
    (blockNumber : option Z) (rawTx : option Bus.RawTx) (nowMs : Z) :
  Decoders.emitted d ->
  exists n,
    Detector.amountToBigInt (amountIn d) = Some n
    /\ Decoders.busRoundTrip txHash routerAddress blockNumber rawTx nowMs d
       = Some (Decoders.withAmountIn d (AmtBig n))
    /\ (amountIn d = AmtBig n
        <-> Decoders.busRoundTrip txHash routerAddress blockNumber rawTx nowMs d
            = Some d).
Proof.
  intros Hd.
  destruct (wellFormed_value _ (emitted_amount d Hd)) as (n & Hv & Hn).
  exists n. split; [exact Hv|].
  assert (Hmain : Decoders.busRoundTrip txHash routerAddress blockNumber rawTx
                    nowMs d = Some (Decoders.withAmountIn d (AmtBig n)));
    [|split; [exact Hmain|]; rewrite Hmain; split;
      [intros E; rewrite <- E; now destruct d
      |intros E; injection E as E; now rewrite <- E]].
  destruct (rehydrate_serialized d n Hn) as (text & Htext & Hback).
  unfold Decoders.busRoundTrip, Bus.sendToKafka. cbv zeta.
  match goal with
  | |- context [Bus.jsonStringify (Bus.VObject ?ps)] => set (props := ps)
  end.
  assert (Hprops : exists mt, Bus.stringifyProps props = Some mt).
  { apply stringifyProps_some. unfold props.
    repeat apply Forall_cons; try apply Forall_nil; cbn [snd];
      try (right; eexists; reflexivity).
    - destruct blockNumber; [right; eexists; reflexivity|now left].
    - right. exists text. exact Htext.
    - destruct rawTx as [r|]; [right; apply rawTx_stringify|now left]. }
  destruct Hprops as (mt & Hmt).
  rewrite stringify_object, Hmt. cbn [option_map Bus.payload].
  rewrite parse_object. cbn [Bus.getProp].
  rewrite (lookup_after_round_trip "decodedTx" props mt text Hmt Htext).
  exact Hback.
Qed.

(** Scenario: the swap of 10 WETH decoded by the V2 router decoder. *)
Lemma bus_round_trip_witness :
  exists n,
    Detector.amountToBigInt (amountIn Scenario.swap1) = Some n
    /\ Decoders.busRoundTrip "0xabc" Scenario.v2RouterAddr None None
         Scenario.nowMs Scenario.swap1
       = Some (Decoders.withAmountIn Scenario.swap1 (AmtBig n))
    /\ (amountIn Scenario.swap1 = AmtBig n
        <-> Decoders.busRoundTrip "0xabc" Scenario.v2RouterAddr None None
              Scenario.nowMs Scenario.swap1
            = Some Scenario.swap1).
Proof.
  apply (bus_round_trip Scenario.swap1 "0xabc" Scenario.v2RouterAddr None None
           Scenario.nowMs).
  left. exists (Scenario.v2Tx Scenario.amountIn1 1000000 (Scenario.nowSec + 600)).
  reflexivity.
Defined.

(** C9 as stated fails: [decodeV2RouterTx] stores [amountIn.toString()] for
    [swapExactTokensForTokens], and the consumer hands the detector
    [BigInt(decodedTx.amountIn)]: the swap of scenario 1 comes back with the
    [bigint] [10^19] where the original holds the string of it. *)
Lemma bus_round_trip_counterexample :
  ~ (forall (d : DecodedTransaction) (txHash routerAddress : string)
            (blockNumber : option Z) (rawTx : option Bus.RawTx) (nowMs : Z),
       Decoders.emitted d ->
       Decoders.busRoundTrip txHash routerAddress blockNumber rawTx nowMs d
       = Some d).
Proof.
  intros H.
  assert (Hd : Decoders.emitted Scenario.swap1).
  { left.
    exists (Scenario.v2Tx Scenario.amountIn1 1000000 (Scenario.nowSec + 600)).
    reflexivity. }
  specialize (H Scenario.swap1 "0xabc" Scenario.v2RouterAddr None None
                Scenario.nowMs Hd).
  assert (E : option_map amountIn
                (Decoders.busRoundTrip "0xabc" Scenario.v2RouterAddr None None
                   Scenario.nowMs Scenario.swap1)
              = Some (AmtBig (10 * 10 ^ 18)))
    by (vm_compute; reflexivity).
  rewrite H in E. discriminate E.
Qed.

End DecoderFacts.

(* ================================================================== *)
(** * The cleanup loop *)
(* ================================================================== *)

Module CleanupFacts.
Import Cleanup.

(** For a numeric deadline the loop compares the stored value, which the
    detector wrote in seconds, with [now] as it stands. *)
Lemma deadlinePassed_number (now : Z) (r : Store.Row) (deadlineTimestamp : Z) :
  Store.deadlineTimestamp (Store.metadata (Store.columns r))
  = Some (Store.MNumber deadlineTimestamp) ->
  deadlinePassed now r
  = negb (deadlineTimestamp =? 0) && (deadlineTimestamp <? now).
Proof.
  intros E. unfold deadlinePassed. rewrite E.
  destruct deadlineTimestamp; reflexivity.
Qed.

(** C6: the consumer stores a [detected] row whose deadline
    ([1712000600], unix seconds) lies ten minutes ahead and whose
    [isExpired] flag is false; the cleanup that runs one minute later, at
    [Date.now() = 1712000060000] milliseconds, deletes it, because the loop
    compares the deadline in seconds with the clock in milliseconds.  With
    the clock in seconds the same row is kept. *)
Theorem cleanup_deletes_row_with_future_deadline :
  (exists row,
      Scenario.tableAfterSwap1 = [row]
      /\ Store.status (Store.columns row) = Store.detected
      /\ Store.isExpired (Store.metadata (Store.columns row)) = Some false
      /\ Store.deadlineTimestamp (Store.metadata (Store.columns row))
         = Some (Store.MNumber (Scenario.nowSec + 600))
      /\ deadlinePassed (Scenario.nowSec + 60) row = false)
  /\ cleanupExpiredTxs (Scenario.nowMs + 60000) Scenario.tableAfterSwap1
     = ([], 1%nat).
Proof.
  split.
  - eexists. split; [vm_compute; reflexivity|]. repeat split.
  - vm_compute. reflexivity.
Qed.

End CleanupFacts.

(* ================================================================== *)
(** * The cache writes *)
(* ================================================================== *)

Module CacheFacts.
Import Cache.

Lemma Key_eqb_refl (k : Key) : Key_eqb k k = true.
Proof. unfold Key_eqb. now rewrite Z.eqb_refl, String.eqb_refl. Qed.

Lemma Key_eqb_eq (a b : Key) : Key_eqb a b = true -> a = b.
Proof.
  destruct a as [c1 s1], b as [c2 s2]. unfold Key_eqb. cbn [fst snd].
  intros H. apply andb_prop in H as [H1 H2].
  apply Z.eqb_eq in H1. apply String.eqb_eq in H2. now subst.
Qed.

Section Tables.

Context {V : Type}.

Lemma findUnique_none (t : Table Key V) (k : Key) :
  findUnique Key_eqb t k = None -> existsb (hasKey Key_eqb k) t = false.
Proof.
  unfold findUnique. induction t as [|row r IH]; [reflexivity|].
  cbn [find existsb]. destruct (hasKey Key_eqb k row); [discriminate|exact IH].
Qed.

Lemma existsb_inserted (t : Table Key V) (k : Key) (v : V) :
  existsb (hasKey Key_eqb k) (t ++ [(k, v)])%list = true.
Proof.
  rewrite existsb_app. unfold hasKey at 2. cbn [existsb fst].
  now rewrite Key_eqb_refl, orb_true_r.
Qed.

(** [create] on a key that a first [create] has just stored fails. *)
Lemma create_twice (t : Table Key V) (k : Key) (v v' : V) :
  findUnique Key_eqb t k = None ->
  exists t1, create Key_eqb t k v = Done t1
             /\ create Key_eqb t1 k v' = UniqueConstraintFailed.
Proof.
  intros Hmiss. unfold create. rewrite (findUnique_none _ _ Hmiss).
  eexists. split; [reflexivity|]. now rewrite existsb_inserted.
Qed.

Lemma map_update_existsb (t : Table Key V) (k : Key) (f : V -> V) :
  existsb (hasKey Key_eqb k)
    (map (fun row => if hasKey Key_eqb k row then (fst row, f (snd row)) else row) t)
  = existsb (hasKey Key_eqb k) t.
Proof.
  induction t as [|row r IH]; [reflexivity|]. cbn [map existsb]. rewrite IH.
  destruct (hasKey Key_eqb k row) eqn:E; [|now rewrite E].
  unfold hasKey in *. cbn [fst]. now rewrite E.
Qed.

Lemma rowsFor_update (t : Table Key V) (k : Key) (f : V -> V) :
  rowsFor Key_eqb
    (map (fun row => if hasKey Key_eqb k row then (fst row, f (snd row)) else row) t) k
  = rowsFor Key_eqb t k.
Proof.
  unfold rowsFor. induction t as [|row r IH]; [reflexivity|].
  cbn [map filter]. destruct (hasKey Key_eqb k row) eqn:E.
  - unfold hasKey at 1. cbn [fst]. unfold hasKey in E. rewrite E.
    cbn [List.length]. now rewrite IH.
  - rewrite E. exact IH.
Qed.

Lemma rowsFor_none (t : Table Key V) (k : Key) :
  existsb (hasKey Key_eqb k) t = false -> rowsFor Key_eqb t k = 0%nat.
Proof.
  unfold rowsFor. induction t as [|row r IH]; [reflexivity|].
  cbn [existsb filter]. destruct (hasKey Key_eqb k row); [discriminate|exact IH].
Qed.

(** [upsert] never fails, a second one for the same key neither, and the
    number of rows under the key stays at most one. *)
Lemma upsert_twice (t : Table Key V) (k : Key) (f f' : V -> V) (v v' : V) :
  exists t1 t2,
    upsert Key_eqb t k f v = Done t1
    /\ upsert Key_eqb t1 k f' v' = Done t2
    /\ ((rowsFor Key_eqb t k <= 1)%nat -> rowsFor Key_eqb t2 k = 1%nat).
Proof.
  unfold upsert. destruct (existsb (hasKey Key_eqb k) t) eqn:E.
  - eexists _, _. split; [reflexivity|]. rewrite map_update_existsb, E.
    split; [reflexivity|]. intros Hle. rewrite !rowsFor_update.
    assert (rowsFor Key_eqb t k <> 0)%nat; [|lia].
    clear Hle. unfold rowsFor. induction t as [|row r IH]; [discriminate E|].
    cbn [existsb filter] in *. destruct (hasKey Key_eqb k row); [discriminate|].
    exact (IH E).
  - eexists _, _. split; [reflexivity|]. rewrite existsb_inserted.
    split; [reflexivity|]. intros _. rewrite rowsFor_update.
    unfold rowsFor. rewrite filter_app, length_app.
    fold (rowsFor Key_eqb t k). rewrite (rowsFor_none _ _ E).
    unfold hasKey. cbn [filter fst]. now rewrite Key_eqb_refl.
Qed.

End Tables.

(** The token and pool caches write with [upsert]: two writes for the same
    key both succeed and leave one row. *)
Lemma addTokenToDb_twice (chainId : Z) (t : Table Key TokenRow)
    (tokenAddress : string) (info info' : TokenRow) :
  exists t1 t2,
    addTokenToDb chainId t tokenAddress info = Done t1
    /\ addTokenToDb chainId t1 tokenAddress info' = Done t2
    /\ ((rowsFor Key_eqb t (chainId, JS.toLowerCase tokenAddress) <= 1)%nat ->
        rowsFor Key_eqb t2 (chainId, JS.toLowerCase tokenAddress) = 1%nat).
Proof. apply upsert_twice. Qed.

Lemma savePool_twice (chainId : Z) (t : Table Key PoolRow)
    (poolAddress token0 token1 : string) (isThere : bool) (routerType : string)
    (fee : option string) :
  exists t1 t2,
    savePool chainId t poolAddress token0 token1 isThere routerType fee = Done t1
    /\ savePool chainId t1 poolAddress token0 token1 isThere routerType fee = Done t2
    /\ ((rowsFor Key_eqb t (chainId, JS.toLowerCase poolAddress) <= 1)%nat ->
        rowsFor Key_eqb t2 (chainId, JS.toLowerCase poolAddress) = 1%nat).
Proof. apply upsert_twice. Qed.

(** C4: the factory cache writes with [create].  Two callers of
    [getFactoryAddress] that both find no row for the router (the table is
    empty) both reach the insert; the first succeeds and the second fails
    on the unique constraint of [(chainId, router)]. *)
Theorem factory_miss_write_twice_fails (chainId : Z) (router version : string)
    (factoryAddress wethAddress : string) :
  findUnique Key_eqb (@nil (Key * FactoryRow)) (chainId, router) = None
  /\ exists t1,
       insertFactory chainId [] router version factoryAddress wethAddress = Done t1
       /\ insertFactory chainId t1 router version factoryAddress wethAddress
          = UniqueConstraintFailed.
Proof.
  split; [reflexivity|]. unfold insertFactory. apply create_twice. reflexivity.
Qed.

End CacheFacts.

(* ================================================================== *)
(** * Further properties of the V2 engine *)
(* ================================================================== *)

Module EngineMore.
Import Engine.

Lemma amountInWithFee_bounds (amountIn : Z) :
  0 <= amountIn -> 0 <= amountInWithFee amountIn <= amountIn.
Proof.
  intros H. unfold amountInWithFee.
  rewrite Z.quot_div_nonneg by lia.
  split; [apply Z.div_pos; lia|].
  apply Z.div_le_upper_bound; lia.
Qed.

Lemma getV2PriceImpact_inv (pair : PairState) (tokenIn : string) (amountIn : Z)
    (dIn dOut : nat) (r : V2Impact) :
  getV2PriceImpact pair tokenIn amountIn dIn dOut = Some r ->
  reserveIn r = Notions.engineReserveIn pair tokenIn
  /\ reserveIn r * 1000 + amountInWithFee amountIn <> 0
  /\ amountOut r
     = Z.quot (amountInWithFee amountIn * reserveOut r)
              (reserveIn r * 1000 + amountInWithFee amountIn)
  /\ (reserveOut r = reserve0 pair \/ reserveOut r = reserve1 pair).
Proof.
  unfold getV2PriceImpact, Notions.engineReserveIn.
  destruct (Z.eqb_spec
              ((if isToken0In pair tokenIn then reserve0 pair else reserve1 pair)
                 * 1000 + amountInWithFee amountIn) 0) as [E|E];
    [discriminate|].
  intros H. injection H as <-. cbn [reserveIn reserveOut amountOut].
  repeat split; try assumption.
  destruct (isToken0In pair tokenIn); [now right|now left].
Qed.

(** X1: on non-negative inputs the amount the engine returns, valued at the
    pool's spot price, is at most one thousandth of the input
    ([amountOut * reserveIn * 1000 <= amountIn * reserveOut]); it is
    non-negative and never exceeds [reserveOut]. *)
Theorem amountOut_at_most_thousandth (pair : PairState) (tokenIn : string)
    (amountIn : Z) (dIn dOut : nat) (r : V2Impact) :
  0 <= amountIn -> 0 <= reserve0 pair -> 0 <= reserve1 pair ->
  getV2PriceImpact pair tokenIn amountIn dIn dOut = Some r ->
  0 <= amountOut r
  /\ amountOut r * (reserveIn r * 1000) <= amountIn * reserveOut r
  /\ amountOut r <= reserveOut r.
Proof.
  intros Ha H0 H1 H.
  destruct (getV2PriceImpact_inv _ _ _ _ _ _ H) as (HrIn & HD & Hout & HrOut).
  pose proof (amountInWithFee_bounds amountIn Ha) as [Hw0 Hw1].
  set (w := amountInWithFee amountIn) in *.
  assert (HrIn0 : 0 <= reserveIn r).
  { rewrite HrIn. unfold Notions.engineReserveIn.
    destruct (isToken0In pair tokenIn); lia. }
  assert (HrOut0 : 0 <= reserveOut r) by (destruct HrOut as [-> | ->]; lia).
  set (D := reserveIn r * 1000 + w) in *.
  assert (HDpos : 0 < D) by (unfold D in *; lia).
  rewrite Z.quot_div_nonneg in Hout by nia.
  assert (Hq0 : 0 <= amountOut r) by (rewrite Hout; apply Z.div_pos; nia).
  assert (Hmul : D * amountOut r <= w * reserveOut r)
    by (rewrite Hout; apply Z.mul_div_le; lia).
  split; [exact Hq0|]. split; [unfold D in Hmul; nia|].
  destruct (Z.eq_dec w 0) as [Ew|Ew].
  - rewrite Ew in Hout. rewrite Hout. simpl. rewrite Z.div_0_l by lia. lia.
  - unfold D in Hmul. nia.
Qed.

Lemma amountOut_at_most_thousandth_witness :
  exists r,
    getV2PriceImpact Scenario.pair1 Scenario.WETH Scenario.amountIn1 18 6 = Some r
    /\ 0 <= amountOut r
    /\ amountOut r * (reserveIn r * 1000) <= Scenario.amountIn1 * reserveOut r
    /\ amountOut r <= reserveOut r.
Proof.
  eexists. split; [vm_compute; reflexivity|].
  apply (amountOut_at_most_thousandth Scenario.pair1 Scenario.WETH
           Scenario.amountIn1 18 6); vm_compute; congruence.
Defined.

Lemma fee_out_monotone (x y c D0 : Z) :
  0 <= x <= y -> 0 <= c -> 0 <= D0 -> 0 < D0 + x ->
  x * c / (D0 + x) <= y * c / (D0 + y).
Proof.
  intros Hxy Hc HD Hpos.
  set (q := x * c / (D0 + x)).
  assert (Hq0 : 0 <= q) by (apply Z.div_pos; nia).
  assert (Hq : (D0 + x) * q <= x * c) by (apply Z.mul_div_le; lia).
  assert (Hqc : q <= c).
  { destruct (Z.eq_dec x 0) as [->|Hx].
    - unfold q. rewrite Z.mul_0_l, Z.div_0_l by lia. exact Hc.
    - nia. }
  apply Z.div_le_lower_bound; [lia|]. nia.
Qed.

(** X2: the amount out grows with the amount in: on the same pool and side,
    a larger non-negative [amountIn] never gives a smaller [amountOut]. *)
Theorem amountOut_monotone (pair : PairState) (tokenIn : string)
    (a a' : Z) (dIn dOut : nat) (r r' : V2Impact) :
  0 <= a <= a' -> 0 <= reserve0 pair -> 0 <= reserve1 pair ->
  getV2PriceImpact pair tokenIn a dIn dOut = Some r ->
  getV2PriceImpact pair tokenIn a' dIn dOut = Some r' ->
  amountOut r <= amountOut r'.
Proof.
  intros Ha H0 H1 H H'.
  unfold getV2PriceImpact in H, H'.
  set (rIn := if isToken0In pair tokenIn then reserve0 pair else reserve1 pair) in *.
  set (rOut := if isToken0In pair tokenIn then reserve1 pair else reserve0 pair) in *.
  assert (HrIn : 0 <= rIn) by (unfold rIn; destruct (isToken0In pair tokenIn); lia).
  assert (HrOut : 0 <= rOut) by (unfold rOut; destruct (isToken0In pair tokenIn); lia).
  destruct (Z.eqb_spec (rIn * 1000 + amountInWithFee a) 0) as [E|E];
    [discriminate|].
  destruct (Z.eqb_spec (rIn * 1000 + amountInWithFee a') 0) as [E'|E'];
    [discriminate|].
  injection H as <-. injection H' as <-. cbn [amountOut].
  pose proof (amountInWithFee_bounds a ltac:(lia)) as [Hw0 _].
  pose proof (amountInWithFee_bounds a' ltac:(lia)) as [Hw0' _].
  assert (Hww : amountInWithFee a <= amountInWithFee a').
  { unfold amountInWithFee. rewrite !Z.quot_div_nonneg by lia.
    apply Z.div_le_mono; lia. }
  rewrite !Z.quot_div_nonneg by nia.
  apply fee_out_monotone; lia.
Qed.

Lemma amountOut_monotone_witness :
  exists r r',
    getV2PriceImpact Scenario.pair1 Scenario.WETH Scenario.amountIn1 18 6 = Some r
    /\ getV2PriceImpact Scenario.pair1 Scenario.WETH (2 * Scenario.amountIn1) 18 6
       = Some r'
    /\ amountOut r <= amountOut r'.
Proof.
  eexists _, _. split; [vm_compute; reflexivity|].
  split; [vm_compute; reflexivity|].
  apply (amountOut_monotone Scenario.pair1 Scenario.WETH Scenario.amountIn1
           (2 * Scenario.amountIn1) 18 6); vm_compute;
    try reflexivity; try (split; congruence); congruence.
Defined.

(** X3: on non-negative inputs the engine fails (the [bigint] division by
    zero) exactly when the reserve on the [tokenIn] side is zero and
    [amountIn] is at most 1; with [amountIn = 0] and a positive reserve it
    returns [amountOut = 0]. *)
Theorem getV2PriceImpact_fails_iff (pair : PairState) (tokenIn : string)
    (amountIn : Z) (dIn dOut : nat) :
  0 <= amountIn -> 0 <= reserve0 pair -> 0 <= reserve1 pair ->
  (getV2PriceImpact pair tokenIn amountIn dIn dOut = None
   <-> Notions.engineReserveIn pair tokenIn = 0 /\ amountIn <= 1)
  /\ (amountIn = 0 -> 0 < Notions.engineReserveIn pair tokenIn ->
      exists r, getV2PriceImpact pair tokenIn amountIn dIn dOut = Some r
                /\ amountOut r = 0).
Proof.
  intros Ha H0 H1. unfold getV2PriceImpact, Notions.engineReserveIn.
  set (rIn := if isToken0In pair tokenIn then reserve0 pair else reserve1 pair).
  assert (HrIn : 0 <= rIn) by (unfold rIn; destruct (isToken0In pair tokenIn); lia).
  pose proof (amountInWithFee_bounds amountIn Ha) as [Hw0 Hw1].
  assert (Hw : amountInWithFee amountIn = 0 <-> amountIn <= 1).
  { unfold amountInWithFee. rewrite Z.quot_div_nonneg by lia. split; intros E.
    - destruct (Z_le_gt_dec amountIn 1) as [|Hgt]; [assumption|exfalso].
      assert (1 <= amountIn * 997 / 1000) by (apply Z.div_le_lower_bound; lia).
      lia.
    - apply Z.div_small. lia. }
  split.
  - destruct (Z.eqb_spec (rIn * 1000 + amountInWithFee amountIn) 0) as [E|E].
    + split; [intros _|reflexivity]. split; [lia|]. apply Hw. lia.
    + split; [discriminate|]. intros [E1 E2]. apply Hw in E2. lia.
  - intros -> Hpos.
    destruct (Z.eqb_spec (rIn * 1000 + amountInWithFee 0) 0) as [E|E]; [lia|].
    eexists. split; [reflexivity|]. cbn [amountOut]. reflexivity.
Qed.

Lemma getV2PriceImpact_fails_iff_witness :
  getV2PriceImpact
    {| reserve0 := 0; reserve1 := 5; token0 := Scenario.WETH;
       token1 := Scenario.USDC |} Scenario.WETH 1 18 6 = None.
Proof.
  apply (proj1 (getV2PriceImpact_fails_iff
                  {| reserve0 := 0; reserve1 := 5; token0 := Scenario.WETH;
                     token1 := Scenario.USDC |} Scenario.WETH 1 18 6
                  ltac:(lia) ltac:(simpl; lia) ltac:(simpl; lia))).
  split; [reflexivity|lia].
Defined.

(** X4: the liquidity gate and the impact engine look at the same reserve:
    the reserve the detector picks from [getV2Liquidity] for [tokenIn] is
    the [reserveIn] of [getV2PriceImpact] on the same pair state. *)
Theorem gate_and_engine_same_reserve (pair : PairState) (tokenIn : string) :
  Detector.reserveOfTokenIn (getV2Liquidity pair) tokenIn
  = Notions.engineReserveIn pair tokenIn.
Proof.
  unfold Detector.reserveOfTokenIn, Notions.engineReserveIn, isToken0In,
    getV2Liquidity.
  cbn [l_token0 l_reserve0 l_reserve1].
  now rewrite JSFacts.toLowerCase_idem.
Qed.

End EngineMore.

(* ================================================================== *)
(** * Further properties of the detector *)
(* ================================================================== *)

Module DetectorMore.
Import Detector.

(** X5: a swap that came through a universal router is evaluated exactly as
    if it had been sent to the canonical router of its family: the detector
    replaces the router address before the pool lookup and uses it nowhere
    else. *)
Theorem detect_universal_router_substituted (env : Env) (txHash : string)
    (decodedTx : DecodedTransaction) (routerAddress : string) :
  Constants.isAddressInList routerAddress Constants.universalRouter = true ->
  detectOpportunity env txHash decodedTx routerAddress
  = detectOpportunity env txHash decodedTx
      (Notions.canonicalRouter (routerType decodedTx)).
Proof.
  intros H. unfold detectOpportunity, Notions.canonicalRouter. rewrite H.
  assert (E2 : Constants.isAddressInList (nth 0 Constants.v2Router "")
                 Constants.universalRouter = false) by (vm_compute; reflexivity).
  assert (E3 : Constants.isAddressInList (nth 0 Constants.v3Router "")
                 Constants.universalRouter = false) by (vm_compute; reflexivity).
  destruct (routerType decodedTx); [rewrite E2|rewrite E3]; reflexivity.
Qed.

Lemma detect_universal_router_substituted_witness :
  detectOpportunity (Scenario.env Scenario.pair1 Scenario.nowMs) "0xabc"
    Scenario.swap1 Scenario.universalRouterAddr
  = detectOpportunity (Scenario.env Scenario.pair1 Scenario.nowMs) "0xabc"
      Scenario.swap1 (Notions.canonicalRouter (routerType Scenario.swap1)).
Proof.
  apply (detect_universal_router_substituted
           (Scenario.env Scenario.pair1 Scenario.nowMs) "0xabc" Scenario.swap1
           Scenario.universalRouterAddr).
  vm_compute. reflexivity.
Defined.

(** X6: for a V2 swap with a positive amount, a successful reserve read and
    a non-negative reserve, the liquidity gate lets the swap through exactly
    when the reserve on the [tokenIn] side is at least ten times the amount;
    the 50 percent test only decides the wording of the rejection. *)
Theorem liquidityGate_v2_passes_iff (env : Env) (decodedTx : DecodedTransaction)
    (tokenInAddr : string) (pool : PoolInfo) (dIn dOut : nat) (amount : Z)
    (pairState : Engine.PairState) :
  routerType decodedTx = v2 ->
  0 < amount ->
  pairAtLiquidityCheck env (poolAddress pool) = Ok pairState ->
  0 <= reserveOfTokenIn (Engine.getV2Liquidity pairState) tokenInAddr ->
  (liquidityGate env decodedTx tokenInAddr pool dIn dOut amount = None
   <-> 10 * amount
       <= reserveOfTokenIn (Engine.getV2Liquidity pairState) tokenInAddr).
Proof.
  intros Hv2 Hpos Hread Hres. unfold liquidityGate.
  assert (E0 : (amount >? 0) = true) by (apply Z.gtb_lt; lia).
  rewrite E0, Hv2, Hread. cbv zeta.
  set (reserveIn := reserveOfTokenIn (Engine.getV2Liquidity pairState) tokenInAddr)
    in *.
  unfold MAX_LIQUIDITY_USAGE, MIN_RESERVE_RATIO.
  rewrite Z.quot_div_nonneg by lia. rewrite Z.gtb_ltb.
  destruct (Z.ltb_spec (reserveIn * 50 / 100) amount) as [Hhalf|Hhalf].
  - split; [discriminate|]. intros Hten. exfalso.
    assert (5 * amount <= reserveIn * 50 / 100)
      by (apply Z.div_le_lower_bound; lia).
    lia.
  - destruct (Z.ltb_spec reserveIn (amount * 10)) as [Hlt|Hge].
    + split; [discriminate|lia].
    + split; [lia|reflexivity].
Qed.

Lemma liquidityGate_v2_passes_iff_witness :
  liquidityGate (Scenario.env Scenario.pair1 Scenario.nowMs) Scenario.swap1
    Scenario.WETH Scenario.pool1 18 6 Scenario.amountIn1 = None.
Proof.
  apply (proj2 (liquidityGate_v2_passes_iff
                  (Scenario.env Scenario.pair1 Scenario.nowMs) Scenario.swap1
                  Scenario.WETH Scenario.pool1 18 6 Scenario.amountIn1
                  Scenario.pair1 eq_refl eq_refl eq_refl
                  ltac:(vm_compute; congruence)));
    vm_compute; congruence.
Defined.

(** ** Swaps that cannot be opportunities *)

Lemma verdict_needs_profit (env : Env) (decodedTx : DecodedTransaction)
    (pool : PoolInfo) (dIn dOut : nat) (impact : option float) (out : option Z) :
  isOpportunity (verdict env decodedTx pool dIn dOut impact out) = true ->
  exists p, computeProfit out (amountOutMin decodedTx) = Some p /\ 0 < p.
Proof.
  unfold verdict.
  destruct (computeDeadline env (deadline decodedTx)) as [[tts dts] expired].
  cbn [isOpportunity].
  destruct (computeProfit out (amountOutMin decodedTx)) as [p|];
    [|intros H; discriminate H].
  intros H. apply andb_prop in H as [Hp _]. exists p.
  split; [reflexivity|]. apply Z.gtb_lt in Hp. lia.
Qed.

Lemma no_minimum_no_profit (out : option Z) (amountOutMin : option string) :
  amountOutMin = None \/ amountOutMin = Some "" \/ amountOutMin = Some "0" ->
  computeProfit out amountOutMin = None.
Proof.
  intros [-> | [-> | ->]]; destruct out as [o|]; try reflexivity.
  cbn. destruct (o =? 0); reflexivity.
Qed.

(** A swap whose declared minimum output is undefined, empty or ["0"] is
    never an opportunity, whatever the chain answers: the profit is computed
    only against a non-zero minimum. *)
Lemma no_minimum_no_opportunity (env : Env) (txHash : string)
    (decodedTx : DecodedTransaction) (routerAddress : string) :
  amountOutMin decodedTx = None \/ amountOutMin decodedTx = Some ""
    \/ amountOutMin decodedTx = Some "0" ->
  isOpportunity (detectOpportunity env txHash decodedTx routerAddress) = false.
Proof.
  intros Hmin.
  destruct (isOpportunity (detectOpportunity env txHash decodedTx routerAddress))
    eqn:E; [|reflexivity].
  destruct (DetectorFacts.detect_opportunity_is_verdict _ _ _ _ E)
    as (pool & dIn & dOut & impact & out & EV).
  rewrite EV in E.
  destruct (verdict_needs_profit _ _ _ _ _ _ _ E) as (p & Hp & _).
  rewrite (no_minimum_no_profit out _ Hmin) in Hp. discriminate Hp.
Qed.

(** X8: the three exact-output methods of the V2 router
    ([swapTokensForExactTokens], [swapETHForExactTokens],
    [swapTokensForExactETH]) are decoded with [amountOutMin = "0"], so the
    detector never reports them as opportunities. *)
Theorem v2_exact_out_never_opportunity
    (tx : TransactionResponse V2Decoder.Call) (d : DecodedTransaction)
    (env : Env) (txHash routerAddress : string) :
  V2Decoder.decodeV2RouterTx tx = Some d ->
  method d = "swapTokensForExactTokens" \/ method d = "swapETHForExactTokens"
    \/ method d = "swapTokensForExactETH" ->
  amountOutMin d = Some "0"
  /\ isOpportunity (detectOpportunity env txHash d routerAddress) = false.
Proof.
  intros Hdec Hm.
  assert (Hmin : amountOutMin d = Some "0").
  { unfold V2Decoder.decodeV2RouterTx in Hdec.
    destruct (parseTransaction tx) as [| |c]; try discriminate.
    destruct c as [f ? ? ? ? ?| ? ? ? ? ?|f ? ? ? ?|f ? ? ? ? ?| ? ? ? ?| ? ? ? ? ?|n];
      try discriminate Hdec;
      apply DecoderFacts.returned_some in Hdec as [-> _];
      cbn [method amountOutMin] in *;
      try reflexivity; exfalso;
      destruct f; cbn in Hm; destruct Hm as [Hm|[Hm|Hm]]; discriminate Hm. }
  split; [exact Hmin|]. apply no_minimum_no_opportunity. now right; right.
Qed.

Lemma v2_exact_out_never_opportunity_witness :
  exists d,
    V2Decoder.decodeV2RouterTx Cases.exactEthOutTx = Some d
    /\ amountOutMin d = Some "0"
    /\ isOpportunity
         (detectOpportunity (Scenario.env Scenario.pair1 Scenario.nowMs) "0xabc"
            d Scenario.v2RouterAddr) = false.
Proof.
  eexists. split; [reflexivity|].
  apply (v2_exact_out_never_opportunity Cases.exactEthOutTx);
    [reflexivity|]. right; right. reflexivity.
Defined.

(** X9: of the commands of the universal router only [V3_EXACT_IN] can
    become an opportunity: for [V3_EXACT_OUT], [V2_EXACT_IN] and
    [V2_EXACT_OUT] the emitted swap has no [amountOutMin] (the decoder reads
    [args.amountOutMinimum], which only the [V3_EXACT_IN] arguments carry),
    and the detector returns [isOpportunity = false]. *)
Theorem ur_only_v3_exact_in_can_be_opportunity
    (router : string) (deadline : option Z) (cmd : string)
    (input : option URDecoder.Input) (d : DecodedTransaction)
    (env : Env) (txHash routerAddress : string) :
  URDecoder.decodeCommand router deadline cmd input = Some d ->
  method d <> "V3_EXACT_IN" ->
  amountOutMin d = None
  /\ isOpportunity (detectOpportunity env txHash d routerAddress) = false.
Proof.
  intros Hdec Hm.
  assert (Hmin : amountOutMin d = None).
  { unfold URDecoder.decodeCommand in Hdec.
    destruct (URDecoder.CMD_TYPE (URDecoder.parseIntHex cmd));
      try discriminate Hdec; injection Hdec as <-;
      cbn [method amountOutMin URDecoder.action URDecoder.typeName] in *.
    - now elim Hm.
    - unfold URDecoder.decodeV3ExactOut.
      destruct input as [[[[[[[r a] b] pth] pay]|] a2]|]; reflexivity.
    - unfold URDecoder.decodeV2ExactIn.
      destruct input as [[a3 [[[[[r a] b] pth] pay]|]]|]; try reflexivity.
      destruct (URDecoder.decodeV2Path pth) as [[tIn tOut]|]; reflexivity.
    - unfold URDecoder.decodeV2ExactOut.
      destruct input as [[a3 [[[[[r a] b] pth] pay]|]]|]; try reflexivity.
      destruct (URDecoder.decodeV2Path pth) as [[tIn tOut]|]; reflexivity. }
  split; [exact Hmin|]. apply no_minimum_no_opportunity. now left.
Qed.

Lemma ur_only_v3_exact_in_can_be_opportunity_witness :
  exists d,
    URDecoder.decodeCommand Scenario.universalRouterAddr
      (Some (Scenario.nowSec + 600)) "08" (Some Scenario.urInput) = Some d
    /\ amountOutMin d = None
    /\ isOpportunity
         (detectOpportunity (Scenario.env Scenario.pair1 Scenario.nowMs) "0xabc"
            d Scenario.universalRouterAddr) = false.
Proof.
  eexists. split; [reflexivity|].
  apply (ur_only_v3_exact_in_can_be_opportunity Scenario.universalRouterAddr
           (Some (Scenario.nowSec + 600)) "08" (Some Scenario.urInput));
    [reflexivity|]. cbn. discriminate.
Defined.

(** ** Deadlines *)

(** X7: the deadline a decoder prints from a positive [uint256] is read by
    the detector into a [number].  With the clock a time value and
    [nowSec = floor(now / 1000)], a deadline after [nowSec] is not expired
    and [timeToSubmitSeconds] is the difference of the two numbers; a
    deadline at or before [nowSec] gives [timeToSubmitSeconds = 0] and
    [isExpired = true].  A deadline below [2^53] is read back exactly, and
    [timeToSubmitSeconds] is then [deadline - nowSec]; a larger one is
    rounded to the nearest binary64 number. *)
Theorem computeDeadline_of_uint (env : Env) (z : Z) :
  0 < z ->
  0 <= now env < 2 ^ 53 ->
  computeDeadline env (Some (JS.bigintToString z))
  = (if z >? now env / 1000
     then (Some (JS.minus (JS.toNumber z) (now env / 1000)),
           Some (JS.toNumber z), false)
     else (Some (JS.Finite 0), Some (JS.toNumber z), true))
  /\ (z < 2 ^ 53 ->
      JS.toNumber z = JS.Finite z
      /\ JS.minus (JS.toNumber z) (now env / 1000)
         = JS.Finite (z - now env / 1000)).
Proof.
  intros Hz Hnow.
  assert (Hc : 0 <= now env / 1000 < 2 ^ 53).
  { assert (0 <= now env / 1000) by (apply Z.div_pos; lia).
    assert (now env / 1000 <= now env) by (apply Z.div_le_upper_bound; lia).
    lia. }
  split.
  - rewrite (DetectorFacts.computeDeadline_decimal env z Hz).
    now rewrite (JSFacts.isPositive_minus z (now env / 1000)) by lia.
  - intros Hsmall. rewrite (JSFacts.toNumber_small z) by lia.
    split; [reflexivity|]. cbn [JS.minus]. apply JSFacts.toNumber_small. lia.
Qed.

(** The largest [uint256] as a deadline: stored as [2^256], with [2^256]
    seconds to go. *)
Lemma computeDeadline_of_uint_witness :
  computeDeadline (Scenario.env Scenario.pair1 Scenario.nowMs)
    (Some (JS.bigintToString (2 ^ 256 - 1)))
  = (Some (JS.Finite (2 ^ 256)), Some (JS.Finite (2 ^ 256)), false).
Proof.
  rewrite (proj1 (computeDeadline_of_uint
                    (Scenario.env Scenario.pair1 Scenario.nowMs) (2 ^ 256 - 1)
                    eq_refl
                    ltac:(vm_compute; split; [discriminate|reflexivity]))).
  vm_compute. reflexivity.
Defined.

End DetectorMore.

(* ================================================================== *)
(** * Further properties of the consumer and the opportunities table *)
(* ================================================================== *)

Module ConsumerMore.
Import Consumer.

(** ** The upsert *)

Lemma sameKey_iff (o : Store.Opportunity) (r : Store.Row) :
  Store.sameKey o r = true
  <-> Notions.keyOf r = (Store.chainId o, Store.txHash o).
Proof.
  unfold Store.sameKey, Notions.keyOf. split.
  - intros H. apply andb_prop in H as [H1 H2].
    apply Z.eqb_eq in H1. apply String.eqb_eq in H2. now rewrite H1, H2.
  - intros H. injection H as -> ->. now rewrite Z.eqb_refl, String.eqb_refl.
Qed.

Lemma le_max_ids (t : Store.Table) (r : Store.Row) :
  In r t -> (Store.id r <= fold_right Nat.max O (map Store.id t))%nat.
Proof.
  induction t as [|a t IH]; [intros []|].
  intros [-> | H]; cbn [map fold_right]; [lia|]. specialize (IH H). lia.
Qed.

Lemma freshId_fresh (t : Store.Table) : ~ In (Store.freshId t) (map Store.id t).
Proof.
  intros H. apply in_map_iff in H as (r & E & Hr).
  pose proof (le_max_ids _ _ Hr). unfold Store.freshId in E. lia.
Qed.

Lemma replaceBy_key (o : Store.Opportunity) (r : Store.Row) :
  Notions.keyOf (Notions.replaceBy o r) = Notions.keyOf r
  /\ Store.id (Notions.replaceBy o r) = Store.id r.
Proof.
  unfold Notions.replaceBy. destruct (Store.sameKey o r) eqn:E; [|now split].
  apply sameKey_iff in E. now rewrite E.
Qed.

Lemma upsert_wellKeyed (t : Store.Table) (o : Store.Opportunity) :
  Notions.wellKeyed t -> Notions.wellKeyed (Store.upsert t o).
Proof.
  intros [Hk Hi]. unfold Store.upsert.
  destruct (existsb (Store.sameKey o) t) eqn:E.
  - change (fun r => if Store.sameKey o r
                     then {| Store.id := Store.id r; Store.columns := o |}
                     else r) with (Notions.replaceBy o).
    unfold Notions.wellKeyed. rewrite !map_map.
    rewrite (map_ext _ Notions.keyOf) by (intros r; apply replaceBy_key).
    rewrite (map_ext (fun r => Store.id (Notions.replaceBy o r)) Store.id)
      by (intros r; apply replaceBy_key).
    now split.
  - unfold Notions.wellKeyed. rewrite !map_app. cbn [map]. split.
    + apply NoDup_app; [exact Hk|repeat constructor; intros []|].
      intros k Hin [<-|[]]. apply in_map_iff in Hin as (r & Er & Hr).
      assert (Hs : Store.sameKey o r = true) by (apply sameKey_iff; exact Er).
      assert (Hex : existsb (Store.sameKey o) t = true)
        by (apply existsb_exists; now exists r).
      congruence.
    + apply NoDup_app; [exact Hi|repeat constructor; intros []|].
      intros i Hin [<-|[]]. exact (freshId_fresh t Hin).
Qed.

Lemma upsert_stores (t : Store.Table) (o : Store.Opportunity) :
  (exists r, In r (Store.upsert t o) /\ Store.columns r = o)
  /\ (forall r, In r t ->
        Notions.keyOf r <> (Store.chainId o, Store.txHash o) ->
        In r (Store.upsert t o)).
Proof.
  unfold Store.upsert. destruct (existsb (Store.sameKey o) t) eqn:E.
  - split.
    + apply existsb_exists in E as (r & Hr & Hs).
      exists {| Store.id := Store.id r; Store.columns := o |}.
      split; [|reflexivity]. apply in_map_iff. exists r. now rewrite Hs.
    + intros r Hr Hk. apply in_map_iff. exists r. split; [|exact Hr].
      destruct (Store.sameKey o r) eqn:Es; [|reflexivity].
      apply sameKey_iff in Es. contradiction.
  - split.
    + eexists. split; [apply in_or_app; right; left; reflexivity|reflexivity].
    + intros r Hr _. apply in_or_app. now left.
Qed.

(** X10: the consumer keeps the opportunities table well keyed: if no two
    rows share [(chainId, txHash)] and no two share an [id] before a message
    is handled, the same holds after it; and when the message yields a row,
    the table then holds that row and every row under another key is
    untouched. *)
Theorem eachMessage_wellKeyed (env : Env) (t : Store.Table)
    (message : KafkaMessage) :
  Notions.wellKeyed t ->
  Notions.wellKeyed (eachMessage env t message)
  /\ (forall o, rowToWrite env message = Some o ->
        (exists r, In r (eachMessage env t message) /\ Store.columns r = o)
        /\ (forall r, In r t ->
              Notions.keyOf r <> (Store.chainId o, Store.txHash o) ->
              In r (eachMessage env t message))).
Proof.
  intros Hw. unfold eachMessage.
  destruct (rowToWrite env message) as [o|].
  - split; [exact (upsert_wellKeyed t o Hw)|].
    intros o' E. injection E as <-. apply upsert_stores.
  - split; [exact Hw|]. intros o E. discriminate E.
Qed.

Lemma eachMessage_wellKeyed_witness :
  Notions.wellKeyed
    (eachMessage (Scenario.consumerEnv Scenario.pair1) Scenario.tableAfterSwap1
       (Scenario.messageFor "0xdef" Scenario.swap1)).
Proof.
  refine (proj1 (eachMessage_wellKeyed (Scenario.consumerEnv Scenario.pair1)
                   Scenario.tableAfterSwap1
                   (Scenario.messageFor "0xdef" Scenario.swap1) _)).
  refine (proj1 (eachMessage_wellKeyed (Scenario.consumerEnv Scenario.pair1) []
                   (Scenario.messageFor "0xabc" Scenario.swap1) _)).
  split; constructor.
Defined.







(** The second handling does write in that scenario: the row then holds the
    later block and the later dates. *)
Example redelivered_row_ex :
  map (fun r => (Store.blockNumber (Store.columns r),
                 Store.processedAt (Store.columns r)))
      (eachMessage Cases.laterConsumerEnv Scenario.tableAfterSwap1
         (Scenario.messageFor "0xabc" Scenario.swap1))
  = [("37000001", Scenario.nowMs + 5060)].
Proof. vm_compute. reflexivity. Qed.

(** ** What is written *)

Lemma rowToWrite_columns (env : Env) (message : KafkaMessage)
    (row : Store.Opportunity) :
  rowToWrite env message = Some row ->
  exists txHash routerAddress tx opportunity currentBlock,
    opportunityColumns env txHash routerAddress tx opportunity currentBlock
    = Some row.
Proof.
  unfold rowToWrite. intros H.
  destruct (msg_value message) as [text|]; [|discriminate].
  cbv zeta in H.
  destruct (tooOld _ _ _); [discriminate|].
  destruct (alreadyMined _); [discriminate|].
  destruct (readString _ "txHash") as [txHash|]; [|discriminate].
  destruct (readString _ "routerAddress") as [routerAddress|]; [|discriminate].
  destruct (rehydrate _) as [tx|]; [|discriminate].
  destruct (getBlockNumber env) as [currentBlock|]; [|discriminate].
  destruct (negb _); [discriminate|]. eauto 10.
Qed.

Lemma stringOrNull_lowercase (x : option string) :
  JS.optLowercase (stringOrNull (option_map JS.toLowerCase x)).
Proof.
  intros s H. destruct x as [a|]; [|discriminate H]. cbn [option_map] in H.
  unfold stringOrNull in H. destruct (JS.toLowerCase a) eqn:E; [discriminate|].
  injection H as <-. rewrite <- E. apply JSFacts.toLowerCase_isLowercase.
Qed.

(** X12: every row the consumer writes stores [tokenIn], [tokenOut],
    [recipient] and [poolAddress] in lowercase form, whatever case the
    decoder emitted, and its [fee] column is never empty (an undefined or
    empty fee is stored as ["0"]). *)
Theorem written_row_lowercase (env : Env) (message : KafkaMessage)
    (row : Store.Opportunity) :
  rowToWrite env message = Some row ->
  JS.isLowercase (Store.tokenIn row)
  /\ JS.isLowercase (Store.tokenOut row)
  /\ JS.optLowercase (Store.recipient row)
  /\ JS.optLowercase (Store.poolAddress row)
  /\ Store.fee row <> "".
Proof.
  intros H.
  destruct (rowToWrite_columns _ _ _ H) as (h & ra & tx & opp & blk & E).
  unfold opportunityColumns in E.
  destruct (tokenIn tx) as [tIn|]; [|discriminate].
  destruct (tokenOut tx) as [tOut|]; [|discriminate].
  injection E as <-.
  cbn [Store.tokenIn Store.tokenOut Store.recipient Store.poolAddress Store.fee].
  repeat split; try apply JSFacts.toLowerCase_isLowercase;
    try apply stringOrNull_lowercase.
  unfold stringOrZero. destruct (fee tx) as [[|c f]|]; discriminate.
Qed.

Lemma written_row_lowercase_witness :
  exists row,
    rowToWrite (Scenario.consumerEnv Scenario.pair1)
               (Scenario.messageFor "0xabc" Scenario.swap1) = Some row
    /\ JS.isLowercase (Store.tokenIn row)
    /\ JS.isLowercase (Store.tokenOut row)
    /\ JS.optLowercase (Store.recipient row)
    /\ JS.optLowercase (Store.poolAddress row)
    /\ Store.fee row <> "".
Proof.
  assert (H : exists row,
             rowToWrite (Scenario.consumerEnv Scenario.pair1)
                        (Scenario.messageFor "0xabc" Scenario.swap1) = Some row).
  { eexists. vm_compute. reflexivity. }
  destruct H as (row & E). exists row. split; [exact E|].
  exact (written_row_lowercase _ _ _ E).
Defined.

(** ** The gates *)

(** A property that is [undefined] wherever it occurs is absent after the
    round trip. *)
Lemma lookup_undefined_after_round_trip (k : string)
    (props : list (string * Bus.JsValue)) :
  forall text,
    Bus.stringifyProps props = Some text ->
    (forall x, In (k, x) props -> x = Bus.VUndefined) ->
    Bus.lookup (Bus.parseProps text) k = Bus.VUndefined.
Proof.
  induction props as [|[k' x] r IH]; intros text Hs Hall.
  - injection Hs as <-. reflexivity.
  - rewrite DecoderFacts.stringifyProps_cons in Hs.
    assert (Hr : forall y, In (k, y) r -> y = Bus.VUndefined)
      by (intros y Hy; apply Hall; now right).
    destruct (String.eqb k' k) eqn:Ek.
    + apply String.eqb_eq in Ek. subst k'.
      rewrite (Hall x (or_introl eq_refl)) in Hs. exact (IH _ Hs Hr).
    + remember (Bus.jsonStringify x) as sx eqn:Esx. clear Esx.
      destruct x; try exact (IH _ Hs Hr);
        destruct sx as [jx|]; try discriminate Hs;
        destruct (Bus.stringifyProps r) as [rt|]; try discriminate Hs;
        injection Hs as <-; cbn [Bus.parseProps Bus.lookup]; rewrite Ek;
        exact (IH _ eq_refl Hr).
Qed.

Lemma envelope_fields (txHash : string) (d : DecodedTransaction)
    (routerAddress : string) (blockNumber : option Z)
    (rawTx : option Bus.RawTx) (t : Z) (sent : Bus.ProducerRecord) :
  Bus.sendToKafka txHash d routerAddress blockNumber rawTx t = Some sent ->
  Bus.getProp (Bus.jsonParse (Bus.payload sent)) "timestamp" = Bus.VNumber t
  /\ Bus.getProp (Bus.jsonParse (Bus.payload sent)) "blockNumber"
     = match blockNumber with
       | Some b => Bus.VNumber b
       | None => Bus.VUndefined
       end.
Proof.
  intros H. unfold Bus.sendToKafka in H. cbv zeta in H.
  destruct blockNumber as [b|];
    match type of H with
    | context [Bus.jsonStringify (Bus.VObject ?ps)] => set (props := ps) in H
    end;
    rewrite DecoderFacts.stringify_object in H;
    destruct (Bus.stringifyProps props) as [mt|] eqn:Hmt;
    try discriminate H;
    cbn [option_map] in H; injection H as <-; cbn [Bus.payload];
    rewrite DecoderFacts.parse_object; cbn [Bus.getProp]; split;
    try exact (DecoderFacts.lookup_after_round_trip "timestamp" props mt
                 (Bus.JNumber t) Hmt eq_refl).
  - exact (DecoderFacts.lookup_after_round_trip "blockNumber" props mt
             (Bus.JNumber b) Hmt eq_refl).
  - apply (lookup_undefined_after_round_trip _ props mt Hmt).
    intros x Hin. unfold props in Hin. cbn [In] in Hin.
    repeat (destruct Hin as [E|Hin];
            [injection E; intros; congruence|]).
    destruct Hin.
Qed.

Lemma messageTimestamp_payload (txMessage : Bus.JsValue)
    (message : KafkaMessage) (t : Z) :
  0 < t ->
  Bus.getProp txMessage "timestamp" = Bus.VNumber t ->
  messageTimestamp txMessage message = Some (JS.Finite t).
Proof.
  intros Ht E. unfold messageTimestamp. rewrite E.
  destruct t; try lia; reflexivity.
Qed.

Lemma serialize_stringify (d : DecodedTransaction) :
  exists text, Bus.jsonStringify (Bus.serializeDecodedTx d) = Some text.
Proof.
  unfold Bus.serializeDecodedTx. rewrite DecoderFacts.stringify_object.
  destruct (DecoderFacts.stringifyProps_some
              [ ("router", Bus.VString (router d));
                ("method", Bus.VString (method d));
                ("tokenIn", Bus.ofOptString (tokenIn d));
                ("tokenOut", Bus.ofOptString (tokenOut d));
                ("amountIn", Bus.VString (Bus.amountToString (amountIn d)));
                ("amountOut", Bus.VString (amountOut d));
                ("deadline", Bus.ofOptString (deadline d));
                ("fee", Bus.ofOptString (fee d));
                ("recipient", Bus.ofOptString (recipient d));
                ("amountOutMin", Bus.ofOptString (amountOutMin d));
                ("payerIsUser", Bus.ofOptBool (payerIsUser d));
                ("amountInMax", Bus.VString (amountInMax d));
                ("routerType",
                 Bus.VString (Bus.routerTypeString (routerType d))) ])
    as (text & Ht).
  - repeat apply Forall_cons; try apply Forall_nil; cbn [snd];
      try (right; eexists; reflexivity);
      match goal with
      | |- context [Bus.ofOptString ?x] =>
          destruct x; [right; eexists; reflexivity|now left]
      | |- context [Bus.ofOptBool ?x] =>
          destruct x; [right; eexists; reflexivity|now left]
      end.
  - rewrite Ht. now eexists.
Qed.

(** [sendToKafka] with the producer initialised always sends: the
    serializer leaves no [bigint] for [JSON.stringify] to throw on. *)
Lemma sendToKafka_some (txHash : string) (d : DecodedTransaction)
    (routerAddress : string) (blockNumber : option Z)
    (rawTx : option Bus.RawTx) (t : Z) :
  exists sent,
    Bus.sendToKafka txHash d routerAddress blockNumber rawTx t = Some sent.
Proof.
  destruct (serialize_stringify d) as (text & Htext).
  unfold Bus.sendToKafka. cbv zeta.
  match goal with
  | |- context [Bus.jsonStringify (Bus.VObject ?ps)] => set (props := ps)
  end.
  assert (Hprops : exists mt, Bus.stringifyProps props = Some mt).
  { apply DecoderFacts.stringifyProps_some. unfold props.
    repeat apply Forall_cons; try apply Forall_nil; cbn [snd];
      try (right; eexists; reflexivity).
    - destruct blockNumber; [right; eexists; reflexivity|now left].
    - right. exists text. exact Htext.
    - destruct rawTx as [r|];
        [right; apply DecoderFacts.rawTx_stringify|now left]. }
  destruct Hprops as (mt & Hmt).
  rewrite DecoderFacts.stringify_object, Hmt. cbn [option_map]. now eexists.
Qed.

(** X13: the tap's [sendToKafka] always publishes, and what the consumer's
    two gates do with a message published at [t > 0] is: it is too old
    exactly when it is handled more than ten minutes after [t], it counts
    as mined exactly when the tap passed a block number, and in either case
    nothing is written. *)
Theorem published_message_gates (env : Env) (txHash : string)
    (d : DecodedTransaction) (routerAddress : string) (blockNumber : option Z)
    (rawTx : option Bus.RawTx) (t : Z) :
  0 < t ->
  exists sent,
    Bus.sendToKafka txHash d routerAddress blockNumber rawTx t = Some sent
    /\ tooOld env (Bus.jsonParse (Bus.payload sent)) (Notions.delivered sent)
       = (startTime env - t >? MAX_MESSAGE_AGE_MS)
    /\ alreadyMined (Bus.jsonParse (Bus.payload sent))
       = match blockNumber with Some _ => true | None => false end
    /\ (blockNumber <> None \/ MAX_MESSAGE_AGE_MS < startTime env - t ->
        rowToWrite env (Notions.delivered sent) = None).
Proof.
  intros Ht.
  destruct (sendToKafka_some txHash d routerAddress blockNumber rawTx t)
    as (sent & H).
  exists sent. split; [exact H|].
  destruct (envelope_fields _ _ _ _ _ _ _ H) as [Hts Hbn].
  assert (Hold : tooOld env (Bus.jsonParse (Bus.payload sent))
                   (Notions.delivered sent)
                 = (startTime env - t >? MAX_MESSAGE_AGE_MS)).
  { unfold tooOld.
    now rewrite (messageTimestamp_payload _ (Notions.delivered sent) t Ht Hts). }
  assert (Hmined : alreadyMined (Bus.jsonParse (Bus.payload sent))
                   = match blockNumber with Some _ => true | None => false end).
  { unfold alreadyMined. rewrite Hbn. now destruct blockNumber. }
  split; [exact Hold|]. split; [exact Hmined|].
  intros Hdrop. unfold rowToWrite.
  change (msg_value (Notions.delivered sent)) with (Some (Bus.payload sent)).
  cbv beta iota zeta. rewrite Hold, Hmined.
  destruct Hdrop as [Hb | Hage].
  - destruct blockNumber; [|contradiction].
    now destruct (startTime env - t >? MAX_MESSAGE_AGE_MS).
  - apply Z.gtb_lt in Hage. now rewrite Hage.
Qed.

Lemma published_message_gates_witness :
  exists sent,
    Bus.sendToKafka "0xabc" Scenario.swap1 Scenario.v2RouterAddr (Some 37000001)
                    None Scenario.nowMs = Some sent
    /\ rowToWrite (Scenario.consumerEnv Scenario.pair1) (Notions.delivered sent)
       = None.
Proof.
  destruct (published_message_gates (Scenario.consumerEnv Scenario.pair1)
              "0xabc" Scenario.swap1 Scenario.v2RouterAddr (Some 37000001)
              None Scenario.nowMs eq_refl) as (sent & E & _ & _ & Hdrop).
  exists sent. split; [exact E|]. apply Hdrop. left. discriminate.
Defined.

Lemma envelope_strings (txHash : string) (d : DecodedTransaction)
    (routerAddress : string) (blockNumber : option Z)
    (rawTx : option Bus.RawTx) (t : Z) (sent : Bus.ProducerRecord)
    (text : Bus.Json) :
  Bus.jsonStringify (Bus.serializeDecodedTx d) = Some text ->
  Bus.sendToKafka txHash d routerAddress blockNumber rawTx t = Some sent ->
  readString (Bus.jsonParse (Bus.payload sent)) "txHash" = Some txHash
  /\ readString (Bus.jsonParse (Bus.payload sent)) "routerAddress"
     = Some routerAddress
  /\ Bus.getProp (Bus.jsonParse (Bus.payload sent)) "decodedTx"
     = Bus.jsonParse text.
Proof.
  intros Htext H. unfold Bus.sendToKafka in H. cbv zeta in H.
  match type of H with
  | context [Bus.jsonStringify (Bus.VObject ?ps)] => set (props := ps) in H
  end.
  rewrite DecoderFacts.stringify_object in H.
  destruct (Bus.stringifyProps props) as [mt|] eqn:Hmt; [|discriminate H].
  cbn [option_map] in H. injection H as <-. cbn [Bus.payload].
  rewrite DecoderFacts.parse_object. unfold readString. cbn [Bus.getProp].
  rewrite (DecoderFacts.lookup_after_round_trip "txHash" props mt
             (Bus.JString txHash) Hmt eq_refl).
  rewrite (DecoderFacts.lookup_after_round_trip "routerAddress" props mt
             (Bus.JString routerAddress) Hmt eq_refl).
  rewrite (DecoderFacts.lookup_after_round_trip "decodedTx" props mt
             text Hmt Htext).
  repeat split.
Qed.

(** X14: end to end through the bus.  A swap that a decoder emitted and the
    tap publishes at [t > 0] without a block number is always sent, and a
    consumer that handles the message within ten minutes evaluates
    [detectOpportunity] on the published hash, router address and swap (its
    [amountIn] as the [bigint] of the same value) and writes the row of that
    verdict, or nothing when the verdict is negative or the block number
    cannot be read. *)
Theorem consumer_evaluates_published_swap (env : Env) (txHash : string)
    (d : DecodedTransaction) (routerAddress : string)
    (rawTx : option Bus.RawTx) (t : Z) :
  Decoders.emitted d ->
  0 < t ->
  startTime env - t <= MAX_MESSAGE_AGE_MS ->
  exists sent n,
    Bus.sendToKafka txHash d routerAddress None rawTx t = Some sent
    /\ Detector.amountToBigInt (amountIn d) = Some n
    /\ rowToWrite env (Notions.delivered sent)
       = match getBlockNumber env with
         | Detector.Throws _ => None
         | Detector.Ok currentBlock =>
             let received := Decoders.withAmountIn d (AmtBig n) in
             let opportunity :=
               Detector.detectOpportunity (detectorEnv env) txHash received
                                          routerAddress in
             if negb (Detector.isOpportunity opportunity) then None
             else opportunityColumns env txHash routerAddress received
                                     opportunity currentBlock
         end.
Proof.
  intros Hd Ht Hage.
  destruct (sendToKafka_some txHash d routerAddress None rawTx t)
    as (sent & H).
  destruct (DecoderFacts.wellFormed_value _ (DecoderFacts.emitted_amount d Hd))
    as (n & Hv & Hn).
  exists sent, n. split; [exact H|]. split; [exact Hv|].
  destruct (DecoderFacts.rehydrate_serialized d n Hn) as (text & Htext & Hback).
  destruct (envelope_strings _ _ _ _ _ _ _ _ Htext H) as (Hh & Hr & Hdec).
  destruct (envelope_fields _ _ _ _ _ _ _ H) as [Hts Hbn].
  unfold rowToWrite.
  change (msg_value (Notions.delivered sent)) with (Some (Bus.payload sent)).
  cbv beta iota zeta.
  assert (Hold : tooOld env (Bus.jsonParse (Bus.payload sent))
                   (Notions.delivered sent) = false).
  { unfold tooOld.
    rewrite (messageTimestamp_payload _ _ t Ht Hts).
    rewrite Z.gtb_ltb. apply Z.ltb_ge. exact Hage. }
  assert (Hmined : alreadyMined (Bus.jsonParse (Bus.payload sent)) = false).
  { unfold alreadyMined. now rewrite Hbn. }
  rewrite Hold, Hmined, Hh, Hr, Hdec, Hback. reflexivity.
Qed.

Lemma consumer_evaluates_published_swap_witness :
  exists sent n,
    Bus.sendToKafka "0xabc" Scenario.swap1 Scenario.v2RouterAddr None None
                    Scenario.nowMs = Some sent
    /\ Detector.amountToBigInt (amountIn Scenario.swap1) = Some n
    /\ rowToWrite (Scenario.consumerEnv Scenario.pair1)
                  (Notions.delivered sent)
       = opportunityColumns (Scenario.consumerEnv Scenario.pair1) "0xabc"
           Scenario.v2RouterAddr
           (Decoders.withAmountIn Scenario.swap1 (AmtBig n))
           (Detector.detectOpportunity
              (detectorEnv (Scenario.consumerEnv Scenario.pair1)) "0xabc"
              (Decoders.withAmountIn Scenario.swap1 (AmtBig n))
              Scenario.v2RouterAddr)
           37000000.
Proof.
  destruct (consumer_evaluates_published_swap
              (Scenario.consumerEnv Scenario.pair1) "0xabc" Scenario.swap1
              Scenario.v2RouterAddr None Scenario.nowMs)
    as (sent & n & E & Hn & Hrow).
  - left. exists (Scenario.v2Tx Scenario.amountIn1 1000000 (Scenario.nowSec + 600)).
    reflexivity.
  - reflexivity.
  - vm_compute. discriminate.
  - exists sent, n. split; [exact E|]. split; [exact Hn|]. rewrite Hrow.
    assert (En : n = Scenario.amountIn1).
    { vm_compute in Hn. injection Hn as <-. reflexivity. }
    subst n. vm_compute. reflexivity.
Defined.

End ConsumerMore.

(* ================================================================== *)
(** * Further properties of the cleanup *)
(* ================================================================== *)

Module CleanupMore.
Import Cleanup Notions.

Lemma filter_none {A} (f : A -> bool) (l : list A) :
  (forall a, In a l -> f a = false) -> filter f l = [].
Proof.
  induction l as [|a l IH]; intros H; [reflexivity|]. cbn [filter].
  rewrite (H a (or_introl eq_refl)). apply IH. intros b Hb. apply H. now right.
Qed.

Lemma filter_all {A} (f : A -> bool) (l : list A) :
  (forall a, In a l -> f a = true) -> filter f l = l.
Proof.
  induction l as [|a l IH]; intros H; [reflexivity|]. cbn [filter].
  rewrite (H a (or_introl eq_refl)). f_equal. apply IH. intros b Hb.
  apply H. now right.
Qed.

Lemma filter_split_length {A} (f : A -> bool) (l : list A) :
  (List.length (filter (fun a => negb (f a)) l) + List.length (filter f l))%nat
  = List.length l.
Proof.
  induction l as [|a l IH]; [reflexivity|]. cbn [filter].
  destruct (f a); cbn [negb List.length]; lia.
Qed.

Lemma cleanup_table (now : Z) (t : Store.Table) :
  fst (cleanupExpiredTxs now t)
  = filter (fun r => negb (idIn (passedIds now t) r)) (afterStatus t).
Proof.
  unfold cleanupExpiredTxs, detectedPass, Store.deleteMany, Store.findMany.
  cbv beta iota zeta. fold (afterStatus t). fold (passedIds now t).
  destruct (passedIds now t) as [|i ids] eqn:E; [|reflexivity].
  cbn [fst]. symmetry. apply filter_all. reflexivity.
Qed.

Lemma cleanup_count (now : Z) (t : Store.Table) :
  (List.length (fst (cleanupExpiredTxs now t)) + snd (cleanupExpiredTxs now t))%nat
  = List.length t.
Proof.
  rewrite cleanup_table.
  unfold cleanupExpiredTxs, detectedPass, Store.deleteMany, Store.findMany.
  cbv beta iota zeta. fold (afterStatus t). fold (passedIds now t).
  pose proof (filter_split_length (hasStatus Store.expired) t) as H1.
  pose proof (filter_split_length (hasStatus Store.pending)
                (filter (fun r => negb (hasStatus Store.expired r)) t)) as H2.
  pose proof (filter_split_length detectedWithFlag
                (filter (fun r => negb (hasStatus Store.pending r))
                   (filter (fun r => negb (hasStatus Store.expired r)) t))) as H3.
  fold (afterStatus t) in H3.
  pose proof (filter_split_length (idIn (passedIds now t)) (afterStatus t)) as H4.
  destruct (passedIds now t) as [|i ids] eqn:E; cbn [snd].
  - rewrite (filter_none (idIn [])) in H4 by reflexivity.
    cbn [List.length] in H4. lia.
  - lia.
Qed.

Lemma in_afterStatus (t : Store.Table) (r : Store.Row) :
  In r (afterStatus t)
  <-> In r t
      /\ Store.status (Store.columns r) = Store.detected
      /\ Store.isExpired (Store.metadata (Store.columns r)) <> Some true.
Proof.
  unfold afterStatus. rewrite !filter_In.
  unfold detectedWithFlag, hasStatus.
  destruct (Store.status (Store.columns r));
    destruct (Store.isExpired (Store.metadata (Store.columns r))) as [[|]|];
    cbn; intuition congruence.
Qed.

Lemma idIn_spec (ids : list nat) (r : Store.Row) :
  idIn ids r = true <-> In (Store.id r) ids.
Proof.
  unfold idIn. rewrite existsb_exists. split.
  - intros (i & Hi & E). apply Nat.eqb_eq in E. now rewrite E.
  - intros H. exists (Store.id r). split; [exact H|apply Nat.eqb_refl].
Qed.

Lemma in_passedIds (now : Z) (t : Store.Table) (i : nat) :
  In i (passedIds now t)
  <-> exists r, In r (afterStatus t) /\ deadlinePassed now r = true
                /\ Store.id r = i.
Proof.
  unfold passedIds. rewrite in_map_iff. split.
  - intros (r & E & Hr). apply filter_In in Hr as [Hr Hp].
    apply filter_In in Hr as [Hr _]. now exists r.
  - intros (r & Hr & Hp & E). exists r. split; [exact E|].
    apply filter_In. split; [|exact Hp]. apply filter_In. split; [exact Hr|].
    apply in_afterStatus in Hr as (_ & Hs & _). unfold hasStatus.
    now rewrite Hs.
Qed.

Lemma cleanup_sound (now : Z) (t : Store.Table) (r : Store.Row) :
  In r (fst (cleanupExpiredTxs now t)) -> In r t /\ Notions.live now r.
Proof.
  intros Hr. rewrite cleanup_table in Hr. apply filter_In in Hr as [Hr Hid].
  pose proof Hr as Hr'. apply in_afterStatus in Hr' as (Ht & Hs & Hf).
  split; [exact Ht|]. split; [exact Hs|]. split; [exact Hf|].
  destruct (deadlinePassed now r) eqn:Hp; [|reflexivity].
  assert (Hin : idIn (passedIds now t) r = true).
  { apply idIn_spec, in_passedIds. now exists r. }
  rewrite Hin in Hid. discriminate Hid.
Qed.

(** X15: every row that [cleanupExpiredTxs] leaves is a row of the table
    that is [detected], not flagged as expired and whose deadline the loop
    does not find passed; and the count returned is the number of rows
    removed. *)
Theorem cleanup_leaves_live_rows (now : Z) (t : Store.Table) :
  (forall r, In r (fst (cleanupExpiredTxs now t)) ->
             In r t /\ Notions.live now r)
  /\ (List.length (fst (cleanupExpiredTxs now t))
      + snd (cleanupExpiredTxs now t))%nat = List.length t.
Proof.
  split; [apply cleanup_sound|apply cleanup_count].
Qed.

Lemma NoDup_map_injective {A B} (f : A -> B) (l : list A) (a b : A) :
  NoDup (map f l) -> In a l -> In b l -> f a = f b -> a = b.
Proof.
  induction l as [|x l IH]; intros Hn Ha Hb E; [destruct Ha|].
  cbn [map] in Hn. inversion Hn as [|y m Hx Hl]; subst.
  destruct Ha as [-> | Ha], Hb as [-> | Hb].
  - reflexivity.
  - elim Hx. rewrite E. now apply in_map.
  - elim Hx. rewrite <- E. now apply in_map.
  - now apply IH.
Qed.

(** X16: with unique row ids, the cleanup keeps every live row: a
    [detected] row that is not flagged and whose deadline is not found
    passed is still in the table afterwards. *)
Theorem cleanup_keeps_live_rows (now : Z) (t : Store.Table) (r : Store.Row) :
  NoDup (map Store.id t) ->
  In r t -> Notions.live now r ->
  In r (fst (cleanupExpiredTxs now t)).
Proof.
  intros Hn Hr (Hs & Hf & Hp). rewrite cleanup_table. apply filter_In.
  assert (Hr3 : In r (afterStatus t)) by (apply in_afterStatus; auto).
  split; [exact Hr3|].
  destruct (idIn (passedIds now t) r) eqn:Hid; [|reflexivity].
  apply idIn_spec, in_passedIds in Hid as (r' & Hr' & Hp' & E).
  apply in_afterStatus in Hr' as (Hr' & _).
  rewrite (NoDup_map_injective Store.id t r' r Hn Hr' Hr E) in Hp'.
  congruence.
Qed.

Lemma cleanup_keeps_live_rows_witness :
  exists row,
    Scenario.tableAfterSwap1 = [row]
    /\ In row (fst (cleanupExpiredTxs (Scenario.nowSec + 60)
                                      Scenario.tableAfterSwap1)).
Proof.
  eexists. split; [vm_compute; reflexivity|].
  apply cleanup_keeps_live_rows.
  - vm_compute. repeat constructor. intros [].
  - vm_compute. left. reflexivity.
  - unfold Notions.live.
    split; [vm_compute; reflexivity|].
    split; [vm_compute; discriminate|vm_compute; reflexivity].
Defined.

(** X17: a second cleanup at the same instant removes nothing. *)
Theorem cleanup_idempotent (now : Z) (t : Store.Table) :
  cleanupExpiredTxs now (fst (cleanupExpiredTxs now t))
  = (fst (cleanupExpiredTxs now t), O).
Proof.
  pose proof (cleanup_sound now t) as Hlive.
  remember (fst (cleanupExpiredTxs now t)) as t' eqn:Et'. clear Et'.
  assert (Hl : forall r, In r t' -> Notions.live now r)
    by (intros r Hr; apply (Hlive r Hr)).
  clear Hlive.
  pose proof (cleanup_count now t') as Hc.
  assert (Ht : fst (cleanupExpiredTxs now t') = t').
  { rewrite cleanup_table.
    assert (Ha : afterStatus t' = t').
    { unfold afterStatus.
      assert (H1 : filter (fun r => negb (hasStatus Store.expired r)) t' = t').
      { apply filter_all. intros r Hr. destruct (Hl r Hr) as (Hs & _).
        unfold hasStatus. now rewrite Hs. }
      assert (H2 : filter (fun r => negb (hasStatus Store.pending r)) t' = t').
      { apply filter_all. intros r Hr. destruct (Hl r Hr) as (Hs & _).
        unfold hasStatus. now rewrite Hs. }
      rewrite H1, H2. apply filter_all. intros r Hr.
      destruct (Hl r Hr) as (Hs & Hf & _). unfold detectedWithFlag, hasStatus.
      rewrite Hs.
      destruct (Store.isExpired (Store.metadata (Store.columns r)))
        as [[|]|]; try reflexivity. now elim Hf. }
    assert (Hi : passedIds now t' = []).
    { unfold passedIds. rewrite Ha.
      rewrite (filter_none (deadlinePassed now)); [reflexivity|].
      intros r Hr. apply filter_In in Hr as [Hr _]. apply (Hl r Hr). }
    rewrite Hi, Ha. apply filter_all. reflexivity. }
  rewrite Ht in Hc. destruct (cleanupExpiredTxs now t') as [a n].
  cbn [fst snd] in *. subst a. f_equal. lia.
Qed.

End CleanupMore.

(* ================================================================== *)
(** * The token cache *)
(* ================================================================== *)

Module TokenCacheFacts.
Import TokenCache.

Lemma find_hasKey_key {V} (t : Cache.Table Cache.Key V) (k : Cache.Key)
    (row : Cache.Key * V) :
  find (Cache.hasKey Cache.Key_eqb k) t = Some row -> fst row = k.
Proof.
  intros H. apply find_some in H as [_ H]. unfold Cache.hasKey in H.
  now apply CacheFacts.Key_eqb_eq in H.
Qed.

Lemma find_app_miss {A} (f : A -> bool) (l : list A) (a : A) :
  find f l = None -> f a = true -> find f (l ++ [a])%list = Some a.
Proof.
  induction l as [|x l IH]; intros Hn Ha; cbn [app find] in *.
  - now rewrite Ha.
  - destruct (f x); [discriminate|]. now apply IH.
Qed.

Lemma find_app_other {A} (f : A -> bool) (l : list A) (a : A) :
  f a = false -> find f (l ++ [a])%list = find f l.
Proof.
  intros Ha. induction l as [|x l IH]; cbn [app find].
  - now rewrite Ha.
  - destruct (f x); [reflexivity|exact IH].
Qed.

Lemma find_none_existsb {A} (f : A -> bool) (l : list A) :
  find f l = None -> existsb f l = false.
Proof.
  induction l as [|x l IH]; [reflexivity|]. cbn [find existsb].
  destruct (f x); [discriminate|exact IH].
Qed.

Lemma rowOf_infoOf (k : Cache.Key) (row : Cache.TokenRow) :
  rowOf (infoOf (k, row)) = row.
Proof. now destruct row. Qed.

(** What a call that reached the write did. *)
Lemma getToken_inv (isAddress : string -> bool) (chainId : Z)
    (chain : string -> option ChainToken)
    (t t' : Cache.Table Cache.Key Cache.TokenRow) (a : string)
    (r : option Detector.TokenInfo) :
  forall k, k = (chainId, JS.toLowerCase a) ->
  getToken isAddress chainId chain t a = Cache.Done (t', r) ->
  (r = None /\ t' = t)
  \/ (isAddress a = true /\ t' = t
      /\ exists row, find (Cache.hasKey Cache.Key_eqb k) t = Some (k, row)
                     /\ r = Some (infoOf (k, row)))
  \/ (isAddress a = true
      /\ find (Cache.hasKey Cache.Key_eqb k) t = None
      /\ exists info, fetchTokenFromChain isAddress chain a = Some info
                      /\ t' = (t ++ [(k, rowOf info)])%list
                      /\ r = Some (infoOf (k, rowOf info))).
Proof.
  intros k Ek H. unfold getToken, getTokenFromDb in H.
  destruct (isAddress a) eqn:Ea; cbn [negb] in H.
  2:{ injection H as <- <-. now left. }
  cbv zeta in H. rewrite <- Ek in H.
  destruct (find (Cache.hasKey Cache.Key_eqb k) t) as [row|] eqn:Ef;
    cbn [option_map] in H.
  - injection H as <- <-. right. left. repeat split.
    pose proof (find_hasKey_key _ _ _ Ef) as Ek'. destruct row as [k' row].
    cbn [fst] in Ek'. subst k'. now exists row.
  - destruct (fetchTokenFromChain isAddress chain a) as [info|] eqn:Ec.
    2:{ injection H as <- <-. now left. }
    assert (Ha : Detector.tokenAddress info = JS.toLowerCase a).
    { unfold fetchTokenFromChain in Ec. rewrite Ea in Ec. cbn [negb] in Ec.
      cbv zeta in Ec. destruct (chain (JS.toLowerCase a)); [|discriminate].
      now injection Ec as <-. }
    unfold addTokenToDb, Cache.addTokenToDb, Cache.upsert in H. cbv zeta in H.
    rewrite Ha, JSFacts.toLowerCase_idem in H. rewrite <- Ek in H.
    rewrite (find_none_existsb _ _ Ef) in H. injection H as <- <-.
    right. right. repeat split. now exists info.
Qed.

(** X18: once [getToken] has returned a token, every later [getToken] for the
    same address, in whatever letter case, returns the same token from the
    database: the chain is not consulted and the table is not written. *)
Theorem getToken_cached (isAddress : string -> bool) (chainId : Z)
    (chain chain' : string -> option ChainToken)
    (t t' : Cache.Table Cache.Key Cache.TokenRow) (a a' : string)
    (info : Detector.TokenInfo) :
  getToken isAddress chainId chain t a = Cache.Done (t', Some info) ->
  isAddress a' = true ->
  JS.toLowerCase a' = JS.toLowerCase a ->
  getToken isAddress chainId chain' t' a' = Cache.Done (t', Some info).
Proof.
  intros H Ha' El. apply (getToken_inv _ _ _ _ _ _ _ _ eq_refl) in H.
  assert (Hfind : find (Cache.hasKey Cache.Key_eqb (chainId, JS.toLowerCase a))
                    t' = Some ((chainId, JS.toLowerCase a), rowOf info)
                  /\ infoOf ((chainId, JS.toLowerCase a), rowOf info) = info).
  { destruct H as [[H _] | [(_ & -> & row & Ef & H) | (_ & Ef & i & _ & -> & H)]].
    - discriminate H.
    - injection H as ->. rewrite Ef, !rowOf_infoOf. now split.
    - injection H as ->. rewrite !rowOf_infoOf. split; [|reflexivity].
      rewrite (find_app_miss _ _ _ Ef); [reflexivity|].
      unfold Cache.hasKey. apply CacheFacts.Key_eqb_refl. }
  destruct Hfind as [Hfind Hinfo].
  unfold getToken, getTokenFromDb. rewrite Ha'. cbn [negb]. cbv zeta.
  rewrite El, Hfind. cbn [option_map]. now rewrite Hinfo.
Qed.

Lemma getToken_cached_witness :
  exists t' info,
    getToken Cases.anyAddress 56 Cases.wethOnChain []
             "0xbb4CdB9CBd36B01bD1cBaEBF2De08d9173bc095c"
    = Cache.Done (t', Some info)
    /\ getToken Cases.anyAddress 56 Cases.offline t' Scenario.WETH
       = Cache.Done (t', Some info).
Proof.
  eexists. eexists. split; [vm_compute; reflexivity|].
  eapply (getToken_cached Cases.anyAddress 56 Cases.wethOnChain Cases.offline
            [] _ "0xbb4CdB9CBd36B01bD1cBaEBF2De08d9173bc095c" Scenario.WETH _);
    [vm_compute; reflexivity|reflexivity|vm_compute; reflexivity].
Defined.

(** X19: [getToken] never fails on the write (it is an upsert); it leaves the
    rows of every other token as they were, writes nothing when it returns
    [null], and a token it returns carries the lowercase form of the
    address asked for and is the row stored under it afterwards. *)
Theorem getToken_effect (isAddress : string -> bool) (chainId : Z)
    (chain : string -> option ChainToken)
    (t : Cache.Table Cache.Key Cache.TokenRow) (a : string) :
  exists t' r,
    getToken isAddress chainId chain t a = Cache.Done (t', r)
    /\ (forall k, k <> (chainId, JS.toLowerCase a) ->
          Cache.findUnique Cache.Key_eqb t' k
          = Cache.findUnique Cache.Key_eqb t k)
    /\ (r = None -> t' = t)
    /\ (forall info, r = Some info ->
          Detector.tokenAddress info = JS.toLowerCase a
          /\ Cache.findUnique Cache.Key_eqb t' (chainId, JS.toLowerCase a)
             = Some (rowOf info)).
Proof.
  assert (Hdone : exists t' r,
             getToken isAddress chainId chain t a = Cache.Done (t', r)).
  { unfold getToken. destruct (negb (isAddress a)); [eauto|].
    destruct (getTokenFromDb isAddress chainId t a); [eauto|].
    destruct (fetchTokenFromChain isAddress chain a); [|eauto].
    unfold addTokenToDb, Cache.addTokenToDb, Cache.upsert. cbv zeta.
    destruct (existsb _ t); eauto. }
  destruct Hdone as (t' & r & H). exists t', r. split; [exact H|].
  apply (getToken_inv _ _ _ _ _ _ _ _ eq_refl) in H.
  destruct H as [[-> ->] | [(_ & -> & row & Ef & ->)
                           | (_ & Ef & i & _ & -> & ->)]].
  - repeat split; try reflexivity; intros; discriminate.
  - split; [reflexivity|]. split; [reflexivity|].
    intros info E. injection E as <-. split; [reflexivity|].
    unfold Cache.findUnique. now rewrite Ef, rowOf_infoOf.
  - split; [|split; [discriminate|]].
    + intros k Hk. unfold Cache.findUnique. rewrite find_app_other;
        [reflexivity|].
      unfold Cache.hasKey. cbn [fst].
      destruct (Cache.Key_eqb (chainId, JS.toLowerCase a) k) eqn:E;
        [|reflexivity].
      apply CacheFacts.Key_eqb_eq in E. now elim Hk.
    + intros info E. injection E as <-. split; [reflexivity|].
      unfold Cache.findUnique. rewrite (find_app_miss _ _ _ Ef).
      * now rewrite rowOf_infoOf.
      * unfold Cache.hasKey. apply CacheFacts.Key_eqb_refl.
Qed.

End TokenCacheFacts.

(* ================================================================== *)
(** * The pool cache *)
(* ================================================================== *)

Module PoolCacheFacts.
Import PoolCache.

(** ** Zero addresses and letter case *)

Lemma lowerAscii_zero (c : ascii) : JS.lowerAscii c = "0"%char -> c = "0"%char.
Proof.
  destruct c as [[] [] [] [] [] [] [] []]; vm_compute; intros H;
    try discriminate H; reflexivity.
Qed.

Lemma toLowerCase_zeros (z : string) :
  allZero z = true -> forall s, JS.toLowerCase s = z -> s = z.
Proof.
  induction z as [|c z IH]; intros Hz [|d s] E; try discriminate E;
    [reflexivity|].
  cbn [allZero] in Hz. apply andb_prop in Hz as [Hc Hz].
  apply Ascii.eqb_eq in Hc. subst c. cbn [JS.toLowerCase] in E.
  injection E as Ed Es. now rewrite (lowerAscii_zero _ Ed), (IH Hz _ Es).
Qed.

Lemma toLowerCase_zeroAddress (a : string) :
  hexPrefixed a -> JS.toLowerCase a = zeroAddress -> a = zeroAddress.
Proof.
  intros (r & ->) E. cbn [JS.toLowerCase] in E. unfold zeroAddress in *.
  injection E as E. now rewrite (toLowerCase_zeros "0000000000000000000000000000000000000000" eq_refl _ E).
Qed.

Lemma isValidPoolAddress_spec (a : string) :
  isValidPoolAddress a = true <-> a <> zeroAddress.
Proof.
  unfold isValidPoolAddress.
  change (JS.toLowerCase zeroAddress) with zeroAddress.
  rewrite andb_diag, negb_true_iff. apply String.eqb_neq.
Qed.

Lemma isValidPoolAddress_lower (a : string) :
  hexPrefixed a -> isValidPoolAddress a = true ->
  isValidPoolAddress (JS.toLowerCase a) = true.
Proof.
  intros Hx Hv. apply isValidPoolAddress_spec. intros E.
  apply isValidPoolAddress_spec in Hv. apply Hv.
  now apply toLowerCase_zeroAddress.
Qed.

(** ** The factory cache *)

Lemma getFactoryAddress_again (isAddress : string -> bool) (chainId : Z)
    (chain chain' : Chain) (t ft : Cache.Table Cache.Key Cache.FactoryRow)
    (router version version' : string) (fa : string) :
  getFactoryAddress isAddress chainId chain t router version
  = (ft, Detector.Ok (Some fa)) ->
  getFactoryAddress isAddress chainId chain' ft router version'
  = (ft, Detector.Ok (Some fa)).
Proof.
  unfold getFactoryAddress. destruct (isAddress router); cbn [negb];
    [|discriminate].
  destruct (Cache.findUnique Cache.Key_eqb t (chainId, router)) as [f|] eqn:Ef.
  - intros H. injection H as <- <-. now rewrite Ef.
  - destruct (routerReads chain router version) as [[a w]|m]; [|discriminate].
    unfold Cache.insertFactory, Cache.create.
    rewrite (CacheFacts.findUnique_none _ _ Ef). intros H.
    injection H as <- <-.
    assert (Hf : find (Cache.hasKey Cache.Key_eqb (chainId, router)) t = None).
    { unfold Cache.findUnique in Ef.
      now destruct (find (Cache.hasKey Cache.Key_eqb (chainId, router)) t). }
    unfold Cache.findUnique.
    rewrite (TokenCacheFacts.find_app_miss _ _ _ Hf); [reflexivity|].
    unfold Cache.hasKey. apply CacheFacts.Key_eqb_refl.
Qed.

(** ** What a call that returns a pool did *)

Lemma getPools_some (isAddress : string -> bool) (chainId : Z) (chain : Chain)
    (db db' : Db) (token0 token1 router routerType : string)
    (fee : option string) (p : Detector.PoolInfo) :
  getPools isAddress chainId chain db token0 token1 router routerType fee
  = (db', Detector.Ok (Some p)) ->
  isAddress token0 = true /\ isAddress token1 = true
  /\ exists fa,
       getFactoryAddress isAddress chainId chain (factories db) router routerType
       = (factories db', Detector.Ok (Some fa))
       /\ fa <> ""
       /\ (fromCacheAfterTimeout chainId chain db db' (JS.toLowerCase token0)
             (JS.toLowerCase token1) routerType fee fa p
           \/ fromCache chainId chain db db' (JS.toLowerCase token0)
                (JS.toLowerCase token1) routerType fee fa p
           \/ written chainId chain db db' (JS.toLowerCase token0)
                (JS.toLowerCase token1) routerType fee fa p).
Proof.
  unfold getPools.
  set (n0 := JS.toLowerCase token0). set (n1 := JS.toLowerCase token1).
  destruct (isAddress token0); cbn [negb orb]; [|discriminate].
  destruct (isAddress token1); cbn [negb orb]; [|discriminate].
  destruct (getFactoryAddress isAddress chainId chain (factories db) router
              routerType) as [ft [[fa|]|m]]; cbv zeta; try discriminate.
  destruct fa as [|c fa]; [discriminate|].
  intros H. split; [reflexivity|]. split; [reflexivity|].
  exists (String c fa).
  unfold fromCacheAfterTimeout, fromCache, written.
  destruct (poolRead chain (String c fa) routerType n0 n1 fee)
    as [x|m|m] eqn:Er; [| |discriminate].
  - destruct (findExistingPool chainId (pools db) n0 n1 routerType (Some x))
      as [e|] eqn:Ee.
    + destruct (isValidPoolAddress (Detector.poolAddress e)) eqn:Ev;
        cbn [negb] in H; [|discriminate].
      injection H as Hdb Hp. rewrite <- Hdb, <- Hp. cbn [factories pools].
      split; [reflexivity|]. split; [discriminate|]. right. left.
      exists x. auto.
    + destruct (isValidPoolAddress x) eqn:Ev; cbn [negb] in H; [|discriminate].
      destruct (Cache.savePool chainId (pools db) x n0 n1 true routerType fee)
        as [pools'|] eqn:Es; [|discriminate].
      injection H as Hdb Hp. rewrite <- Hdb, <- Hp. cbn [factories pools].
      split; [reflexivity|]. split; [discriminate|]. right. right.
      exists x. auto.
  - destruct (findExistingPool chainId (pools db) n0 n1 routerType None)
      as [e|] eqn:Ee; [|discriminate].
    destruct (isValidPoolAddress (Detector.poolAddress e)) eqn:Ev;
      [|discriminate].
    injection H as Hdb Hp. rewrite <- Hdb, <- Hp. cbn [factories pools].
    split; [reflexivity|]. split; [discriminate|]. left.
    repeat split; eauto.
Qed.

Lemma savePool_fresh (chainId : Z) (t : Cache.Table Cache.Key Cache.PoolRow)
    (x n0 n1 routerType : string) (fee : option string) :
  find (Cache.hasKey Cache.Key_eqb (chainId, JS.toLowerCase x)) t = None ->
  Cache.savePool chainId t x n0 n1 true routerType fee
  = Cache.Done (t ++ [savedPool chainId t x n0 n1 routerType true fee])%list.
Proof.
  intros Hf. unfold Cache.savePool, Cache.upsert, savedPool, Cache.findUnique.
  cbv zeta. now rewrite (TokenCacheFacts.find_none_existsb _ _ Hf), Hf.
Qed.

Lemma findExistingPool_none_address (chainId : Z)
    (t : Cache.Table Cache.Key Cache.PoolRow) (n0 n1 routerType x : string) :
  hexPrefixed x ->
  findExistingPool chainId t n0 n1 routerType (Some x) = None ->
  find (Cache.hasKey Cache.Key_eqb (chainId, JS.toLowerCase x)) t = None.
Proof.
  intros (r & ->). unfold findExistingPool. cbv zeta.
  destruct (find _ t); [discriminate|reflexivity].
Qed.

(** X20: a pool that [getPools] returns never has the zero address, provided
    the factory answers with addresses as ethers prints them. *)
Theorem getPools_never_zero_address (isAddress : string -> bool) (chainId : Z)
    (chain : Chain) (db db' : Db) (token0 token1 router routerType : string)
    (fee : option string) (p : Detector.PoolInfo) :
  (forall fa x, poolRead chain fa routerType (JS.toLowerCase token0)
                         (JS.toLowerCase token1) fee = Address x ->
                hexPrefixed x) ->
  getPools isAddress chainId chain db token0 token1 router routerType fee
  = (db', Detector.Ok (Some p)) ->
  Detector.poolAddress p <> zeroAddress.
Proof.
  intros Hhex H. apply isValidPoolAddress_spec.
  apply getPools_some in H as (_ & _ & fa & _ & _ & Hpath).
  destruct Hpath as [(_ & _ & Hv & _) | [(x & _ & _ & Hv & _)
                                        | (x & Er & _ & Hv & _ & ->)]];
    try exact Hv.
  unfold savedPool, infoOf. cbn [fst snd Detector.poolAddress].
  exact (isValidPoolAddress_lower x (Hhex _ _ Er) Hv).
Qed.

Lemma getPools_never_zero_address_witness :
  exists db' p,
    getPools Cases.anyAddress 56 Cases.chain1 Cases.emptyDb Scenario.WETH
             Scenario.USDC Scenario.v2RouterAddr "v2" None
    = (db', Detector.Ok (Some p))
    /\ Detector.poolAddress p <> zeroAddress.
Proof.
  eexists. eexists. split; [vm_compute; reflexivity|].
  eapply (getPools_never_zero_address Cases.anyAddress 56 Cases.chain1
            Cases.emptyDb _ Scenario.WETH Scenario.USDC Scenario.v2RouterAddr
            "v2" None _);
    [|vm_compute; reflexivity].
  intros fa x H. vm_compute in H. injection H as <-. eexists. reflexivity.
Defined.

(** X21: once [getPools] has returned a pool, the same call returns the same
    pool again and writes nothing, as long as the chain answers as before. *)
Theorem getPools_cached (isAddress : string -> bool) (chainId : Z)
    (chain : Chain) (db db' : Db) (token0 token1 router routerType : string)
    (fee : option string) (p : Detector.PoolInfo) :
  (forall fa x, poolRead chain fa routerType (JS.toLowerCase token0)
                         (JS.toLowerCase token1) fee = Address x ->
                hexPrefixed x) ->
  getPools isAddress chainId chain db token0 token1 router routerType fee
  = (db', Detector.Ok (Some p)) ->
  getPools isAddress chainId chain db' token0 token1 router routerType fee
  = (db', Detector.Ok (Some p)).
Proof.
  intros Hhex H.
  apply getPools_some in H as (Ha0 & Ha1 & fa & Hf & Hfa & Hpath).
  unfold getPools. rewrite Ha0, Ha1. cbn [negb orb].
  rewrite (getFactoryAddress_again _ _ _ chain _ _ _ _ routerType _ Hf).
  cbv zeta. destruct fa as [|c fa]; [now elim Hfa|].
  destruct Hpath as [((m & Er) & Ee & Hv & Hp)
                    | [(x & Er & Ee & Hv & Hp) | (x & Er & Ee & Hv & Hs & Hp)]];
    rewrite Er.
  - rewrite Hp, Ee, Hv, <- Hp. now destruct db'.
  - rewrite Hp, Ee, Hv, <- Hp. cbn [negb]. now destruct db'.
  - pose proof (Hhex _ _ Er) as Hx.
    pose proof (findExistingPool_none_address _ _ _ _ _ _ Hx Ee) as Hfind.
    rewrite (savePool_fresh _ _ _ _ _ _ _ Hfind) in Hs.
    injection Hs as Hs.
    assert (Hagain : findExistingPool chainId (pools db')
                       (JS.toLowerCase token0) (JS.toLowerCase token1)
                       routerType (Some x) = Some p).
    { rewrite <- Hs. destruct Hx as (r & ->). unfold findExistingPool.
      cbv zeta.
      rewrite (TokenCacheFacts.find_app_miss _ _ _ Hfind);
        [now rewrite Hp|].
      unfold Cache.hasKey, savedPool. cbn [fst].
      apply CacheFacts.Key_eqb_refl. }
    rewrite Hagain.
    assert (Hvp : isValidPoolAddress (Detector.poolAddress p) = true).
    { rewrite Hp. unfold savedPool, infoOf.
      cbn [fst snd Detector.poolAddress].
      exact (isValidPoolAddress_lower x Hx Hv). }
    rewrite Hvp. cbn [negb]. now destruct db'.
Qed.

Lemma getPools_cached_witness :
  exists db' p,
    getPools Cases.anyAddress 56 Cases.chain1 Cases.emptyDb Scenario.WETH
             Scenario.USDC Scenario.v2RouterAddr "v2" None
    = (db', Detector.Ok (Some p))
    /\ getPools Cases.anyAddress 56 Cases.chain1 db' Scenario.WETH
                Scenario.USDC Scenario.v2RouterAddr "v2" None
       = (db', Detector.Ok (Some p)).
Proof.
  eexists. eexists. split; [vm_compute; reflexivity|].
  eapply (getPools_cached Cases.anyAddress 56 Cases.chain1 Cases.emptyDb _
            Scenario.WETH Scenario.USDC Scenario.v2RouterAddr "v2" None _);
    [|vm_compute; reflexivity].
  intros fa x H. vm_compute in H. injection H as <-. eexists. reflexivity.
Defined.

(** ** What a write leaves in the pool table *)






(** Scenario: the first lookup of the pool of scenario 1 appends its row. *)
Example getPools_writes_ex :
  let result :=
    getPools Cases.anyAddress 56 Cases.chain1 Cases.emptyDb Scenario.WETH
             Scenario.USDC Scenario.v2RouterAddr "v2" None in
  map fst (pools (fst result)) = [(56, Scenario.poolAddr)]
  /\ snd result = Detector.Ok (Some {| Detector.poolAddress := Scenario.poolAddr;
                                       Detector.pool_token0 := Scenario.WETH;
                                       Detector.pool_token1 := Scenario.USDC;
                                       Detector.pool_exists := true;
                                       Detector.pool_routerType := "v2";
                                       Detector.pool_fee := "2500" |}).
Proof. split; vm_compute; reflexivity. Qed.

End PoolCacheFacts.

(* ================================================================== *)
(** * The mempool tap *)
(* ================================================================== *)

Module TapFacts.
Import Tap.

(** ** The retry loop *)

(** The attempts before [k] all timed out. *)
Ltac earlier_timeouts :=
  let j := fresh "j" in
  let Hj := fresh "Hj" in
  intros j Hj; destruct j as [|[|j]]; try lia; assumption.

(** An attempt [k < n] with outcome [p] after timeouts only: found among
    the attempts destructed, or refuted by them. *)
Ltac attempt_found :=
  first
    [ exists 0%nat; split; [lia|split; [eassumption|earlier_timeouts]]
    | exists 1%nat; split; [lia|split; [eassumption|earlier_timeouts]]
    | exists 2%nat; split; [lia|split; [eassumption|earlier_timeouts]] ].

Ltac no_attempt :=
  let k := fresh "k" in
  let Hk := fresh "Hk" in
  let Hr := fresh "Hr" in
  let Hall := fresh "Hall" in
  intros (k & Hk & Hr & Hall);
  destruct k as [|[|[|k]]];
  [ | pose proof (Hall 0%nat ltac:(lia))
    | pose proof (Hall 0%nat ltac:(lia)); pose proof (Hall 1%nat ltac:(lia))
    | lia ];
  first [congruence | lia].

Ltac fetch_case :=
  split; [reflexivity|]; split;
  [ let tx' := fresh "tx" in
    let H := fresh "H" in
    intros tx'; split;
    [ intros H; first [discriminate H | injection H as <-; attempt_found]
    | first [no_attempt | intros _; reflexivity] ]
  | split;
    [ split;
      [ let H := fresh "H" in
        intros H; first [discriminate H | attempt_found]
      | first [no_attempt | intros _; reflexivity] ]
    | split;
      [ let H := fresh "H" in
        intros H; first [discriminate H | repeat split; congruence]
      | let H0 := fresh "H" in
        let H1 := fresh "H" in
        let H2 := fresh "H" in
        intros (H0 & H1 & H2);
        first [reflexivity | congruence | now elim (H2 _ ltac:(eassumption))] ] ] ].

(** X23: the fetch of a pending transaction makes at most three attempts.
    It sleeps 500 ms after a first attempt that timed out and 1000 ms after
    a second one that timed out, and at no other moment.  It obtains what an
    attempt returns exactly when every earlier attempt timed out; it throws
    a first or second attempt's error that is not a timeout, without
    another attempt; it gives up exactly when two attempts timed out and
    the third failed; and nothing depends on an attempt after the third. *)
Theorem fetchTransaction_spec (getTransaction : nat -> Attempt) :
  snd (fetchTransaction getTransaction)
  = (if isTimeout (getTransaction 0%nat)
     then 500 :: (if isTimeout (getTransaction 1%nat) then [1000] else [])
     else [])
  /\ (forall tx,
        fst (fetchTransaction getTransaction) = Got tx
        <-> exists k, (k < 3)%nat
                      /\ getTransaction k = Returned tx
                      /\ forall j, (j < k)%nat -> getTransaction j = TimeoutError)
  /\ (fst (fetchTransaction getTransaction) = Rethrown
      <-> exists k, (k < 2)%nat
                    /\ getTransaction k = OtherError
                    /\ forall j, (j < k)%nat -> getTransaction j = TimeoutError)
  /\ (fst (fetchTransaction getTransaction) = GaveUp
      <-> getTransaction 0%nat = TimeoutError
          /\ getTransaction 1%nat = TimeoutError
          /\ forall tx, getTransaction 2%nat <> Returned tx)
  /\ (forall getTransaction',
        (forall k, (k < 3)%nat -> getTransaction' k = getTransaction k) ->
        fetchTransaction getTransaction' = fetchTransaction getTransaction).
Proof.
  assert (Hthree : forall getTransaction',
             (forall k, (k < 3)%nat -> getTransaction' k = getTransaction k) ->
             fetchTransaction getTransaction' = fetchTransaction getTransaction).
  { intros g' Hg. unfold fetchTransaction. cbn [retryLoop maxRetries].
    rewrite (Hg 0%nat), (Hg 1%nat), (Hg 2%nat) by lia. reflexivity. }
  match goal with
  | |- ?A /\ ?B /\ ?C /\ ?D /\ _ =>
      assert (Hmain : A /\ B /\ C /\ D);
      [clear Hthree
      |destruct Hmain as (H1 & H2 & H3 & H4);
       split; [exact H1|split; [exact H2|split; [exact H3|split;
         [exact H4|exact Hthree]]]]]
  end.
  unfold fetchTransaction. cbn [retryLoop maxRetries].
  destruct (getTransaction 0%nat) eqn:E0;
    cbn [retryLoop maxRetries Nat.leb fst snd isTimeout].
  1,3: fetch_case.
  destruct (getTransaction 1%nat) eqn:E1;
    cbn [retryLoop maxRetries Nat.leb fst snd isTimeout].
  1,3: fetch_case.
  destruct (getTransaction 2%nat) eqn:E2;
    cbn [retryLoop maxRetries Nat.leb fst snd isTimeout]; fetch_case.
Qed.

(** ** Routing *)

Lemma toIn_true (tx : Tx) (l : list string) :
  toIn tx l = true ->
  exists a, tx_to tx = Some a /\ Constants.isAddressInList a l = true.
Proof.
  unfold toIn. destruct (tx_to tx) as [[|c a]|]; try discriminate.
  intros H. now exists (String c a).
Qed.

Lemma isAddressInList_spec (a : string) (l : list string) :
  Constants.isAddressInList a l = true ->
  existsb (String.eqb (Constants.normalizeAddress a))
          (map Constants.normalizeAddress l) = true.
Proof.
  unfold Constants.isAddressInList. destruct a as [|c a]; [discriminate|].
  cbv zeta. intros H. apply existsb_exists in H as (x & Hx & E).
  apply existsb_exists. exists (Constants.normalizeAddress x).
  split; [now apply in_map|]. now rewrite String.eqb_sym.
Qed.

Lemma disjoint_lists (l1 l2 : list string) (a : string) :
  disjointLists l1 l2 = true ->
  Constants.isAddressInList a l1 = true ->
  Constants.isAddressInList a l2 = false.
Proof.
  intros Hd H1. destruct (Constants.isAddressInList a l2) eqn:H2;
    [|reflexivity].
  apply isAddressInList_spec in H1, H2.
  apply existsb_exists in H1 as (x & Hx & E). apply String.eqb_eq in E.
  subst x. unfold disjointLists in Hd.
  rewrite forallb_forall in Hd. specialize (Hd _ Hx).
  rewrite H2 in Hd. discriminate Hd.
Qed.

Lemma toIn_disjoint (tx : Tx) (l1 l2 : list string) :
  disjointLists l1 l2 = true -> toIn tx l1 = true -> toIn tx l2 = false.
Proof.
  intros Hd H. destruct (toIn_true _ _ H) as (a & Ea & Ha).
  pose proof (disjoint_lists _ _ _ Hd Ha) as Hn.
  unfold toIn. rewrite Ea. now destruct a.
Qed.

(** X24: the three routing blocks of the handler are independent [if]s, but
    the configured allow-lists have no address in common, so a transaction
    is decoded by one decoder at most: the handler behaves as an
    [if / else if] chain and publishes at most one message for a V2 or V3
    router transaction. *)
Theorem route_one_decoder (getAddress : string -> string) (txHash : string)
    (tx : Tx) :
  route getAddress txHash tx
  = (if toIn tx Constants.universalRouter
     then map (call txHash tx)
              (orNil (URDecoder.decodeUniversalRouterFull (asUR tx)))
     else if toIn tx Constants.v2Router
     then map (call txHash tx) (optList (V2Decoder.decodeV2RouterTx (asV2 tx)))
     else if toIn tx Constants.v3Router
     then map (call txHash tx)
              (optList (V3Decoder.decodeV3RouterTx getAddress (asV3 tx)))
     else [])
  /\ (toIn tx Constants.universalRouter = false ->
      (List.length (route getAddress txHash tx) <= 1)%nat).
Proof.
  assert (H12 : disjointLists Constants.universalRouter Constants.v2Router = true)
    by (vm_compute; reflexivity).
  assert (H13 : disjointLists Constants.universalRouter Constants.v3Router = true)
    by (vm_compute; reflexivity).
  assert (H23 : disjointLists Constants.v2Router Constants.v3Router = true)
    by (vm_compute; reflexivity).
  unfold route, routeV2V3.
  destruct (toIn tx Constants.universalRouter) eqn:E1.
  - rewrite (toIn_disjoint _ _ _ H12 E1), (toIn_disjoint _ _ _ H13 E1).
    split; [|discriminate].
    destruct (URDecoder.decodeUniversalRouterFull (asUR tx));
      cbn [orNil map app]; now rewrite ?app_nil_r.
  - destruct (toIn tx Constants.v2Router) eqn:E2.
    + rewrite (toIn_disjoint _ _ _ H23 E2). cbn [app]. rewrite app_nil_r.
      split; [reflexivity|]. intros _.
      now destruct (V2Decoder.decodeV2RouterTx (asV2 tx)); cbn; lia.
    + cbn [app]. split; [reflexivity|]. intros _.
      destruct (toIn tx Constants.v3Router); [|cbn; lia].
      now destruct (V3Decoder.decodeV3RouterTx getAddress (asV3 tx)); cbn; lia.
Qed.

Lemma In_optList {A} (x : option A) (a : A) : In a (optList x) -> x = Some a.
Proof. destruct x; intros []; try contradiction; now subst. Qed.

Lemma route_In (getAddress : string -> string) (txHash : string) (tx : Tx)
    (s : Send) :
  In s (route getAddress txHash tx) ->
  s = call txHash tx (s_decodedTx s)
  /\ Decoders.emitted (s_decodedTx s)
  /\ exists a, tx_to tx = Some a /\ a <> ""
       /\ (Constants.isAddressInList a Constants.universalRouter = true
           \/ Constants.isAddressInList a Constants.v2Router = true
           \/ Constants.isAddressInList a Constants.v3Router = true).
Proof.
  intros H.
  assert (H' : (toIn tx Constants.universalRouter = true
                /\ In s (map (call txHash tx)
                           (orNil (URDecoder.decodeUniversalRouterFull (asUR tx)))))
               \/ In s (routeV2V3 getAddress txHash tx)).
  { unfold route in H.
    destruct (toIn tx Constants.universalRouter); [|now right].
    destruct (URDecoder.decodeUniversalRouterFull (asUR tx)); try destruct H;
      apply in_app_iff in H as [H|H]; [left|right|left|right]; auto. }
  clear H. unfold routeV2V3 in H'. rewrite in_app_iff in H'.
  destruct H' as [[E H] | [H | H]].
  - apply in_map_iff in H as (d & <- & Hd). split; [reflexivity|].
    cbn [s_decodedTx call]. split.
    + right. right. exists (asUR tx).
      destruct (URDecoder.decodeUniversalRouterFull (asUR tx)) as [l| |];
        try destruct Hd. now exists l.
    + destruct (toIn_true _ _ E) as (a & Ea & Ha). exists a.
      split; [exact Ea|]. split; [|now left].
      intros ->. discriminate Ha.
  - destruct (toIn tx Constants.v2Router) eqn:E; [|destruct H].
    apply in_map_iff in H as (d & <- & Hd). split; [reflexivity|].
    cbn [s_decodedTx call]. split.
    + left. exists (asV2 tx). now apply In_optList.
    + destruct (toIn_true _ _ E) as (a & Ea & Ha). exists a.
      split; [exact Ea|]. split; [|right; now left].
      intros ->. discriminate Ha.
  - destruct (toIn tx Constants.v3Router) eqn:E; [|destruct H].
    apply in_map_iff in H as (d & <- & Hd). split; [reflexivity|].
    cbn [s_decodedTx call]. split.
    + right. left. exists getAddress, (asV3 tx). now apply In_optList.
    + destruct (toIn_true _ _ E) as (a & Ea & Ha). exists a.
      split; [exact Ea|]. split; [|right; now right].
      intros ->. discriminate Ha.
Qed.

(** X25: every message the handler publishes is for a transaction that the
    node returned without a block number, at least one second after the
    tap started listening, and that was sent to an address of an
    allow-list; it carries the hash of the event, that address as
    received, the raw transaction, no block number, and a swap that one of
    the decoders emitted for the transaction. *)
Theorem onPending_sends (getAddress : string -> string)
    (listeningStartTime : Z) (txHash : string)
    (getTransaction : nat -> Attempt) (txReceivedTime : Z) (s : Send) :
  In s (onPending getAddress listeningStartTime txHash getTransaction
                  txReceivedTime) ->
  1000 <= txReceivedTime - listeningStartTime
  /\ Decoders.emitted (s_decodedTx s)
  /\ s_txHash s = txHash
  /\ s_blockNumber s = None
  /\ exists tx,
       fst (fetchTransaction getTransaction) = Got (Some tx)
       /\ mined tx = false
       /\ tx_to tx = Some (s_routerAddress s)
       /\ s_rawTx s = Some (tx_raw tx)
       /\ (Constants.isAddressInList (s_routerAddress s)
             Constants.universalRouter = true
           \/ Constants.isAddressInList (s_routerAddress s)
                Constants.v2Router = true
           \/ Constants.isAddressInList (s_routerAddress s)
                Constants.v3Router = true).
Proof.
  unfold onPending.
  destruct (fst (fetchTransaction getTransaction)) as [[tx|]| |];
    try (intros []).
  destruct (mined tx) eqn:Em; [intros []|]. cbv zeta.
  destruct (Z.ltb_spec (txReceivedTime - listeningStartTime) 1000) as [Hlt|Hge];
    [intros []|].
  intros H. apply route_In in H as (Es & Hem & a & Ea & _ & Hl).
  split; [exact Hge|]. split; [exact Hem|].
  rewrite Es. cbn [s_txHash s_blockNumber s_routerAddress s_rawTx call].
  split; [reflexivity|]. split; [reflexivity|]. exists tx.
  rewrite Ea. repeat split; assumption.
Qed.

Lemma onPending_sends_witness :
  In (call "0xabc" Cases.pendingTx Scenario.swap1)
     (onPending (fun a => a) (Scenario.nowMs - 5000) "0xabc"
                Cases.secondAttempt Scenario.nowMs)
  /\ 1000 <= Scenario.nowMs - (Scenario.nowMs - 5000)
  /\ Decoders.emitted Scenario.swap1.
Proof.
  assert (H : In (call "0xabc" Cases.pendingTx Scenario.swap1)
                (onPending (fun a => a) (Scenario.nowMs - 5000) "0xabc"
                           Cases.secondAttempt Scenario.nowMs)).
  { vm_compute. left. reflexivity. }
  split; [exact H|].
  destruct (onPending_sends (fun a => a) (Scenario.nowMs - 5000) "0xabc"
              Cases.secondAttempt Scenario.nowMs
              (call "0xabc" Cases.pendingTx Scenario.swap1) H)
    as (Hge & Hem & _).
  split; [exact Hge|exact Hem].
Defined.

End TapFacts.

(* ================================================================== *)
(** * The V3 path decoder *)
(* ================================================================== *)

Module V3PathFacts.
Import V3Decoder Packed.

Lemma firstn_exact {A} (a b : list A) (n : nat) :
  List.length a = n -> firstn n (a ++ b) = a.
Proof.
  intros <-. rewrite firstn_app, Nat.sub_diag, firstn_all. cbn [firstn].
  apply app_nil_r.
Qed.

Lemma skipn_exact {A} (a b : list A) (n : nat) :
  List.length a = n -> skipn n (a ++ b) = b.
Proof.
  intros <-. rewrite skipn_app, Nat.sub_diag, skipn_all. reflexivity.
Qed.

Lemma byteAt_app (a b : list Byte.byte) (i : nat) :
  (i < List.length a)%nat -> byteAt (a ++ b) i = byteAt a i.
Proof. intros H. unfold byteAt. now rewrite nth_error_app1. Qed.

Lemma pathLoop_nil (getAddress : string -> string) (fuel : nat)
    (tokens : list string) (fees : Z) :
  pathLoop getAddress fuel [] tokens fees = (tokens, fees).
Proof. destruct fuel; reflexivity. Qed.

Section Loop.

Variable getAddress : string -> string.

Let addressOf (token : list Byte.byte) : string :=
  Constants.normalizeAddress (getAddress (hexlify token)).

Lemma pathLoop_packed (hops : list Hop) :
  forall first tokens fees fuel,
    wellSized first hops ->
    (List.length hops < fuel)%nat ->
    pathLoop getAddress fuel (packedPath first hops) tokens fees
    = ((tokens ++ map addressOf (first :: map snd hops))%list,
       lastFee fees hops).
Proof.
  induction hops as [|[fee tok] hops IH];
    intros first tokens fees fuel [Hf Hh] Hfuel;
    (destruct fuel as [|fuel]; [cbn [List.length] in Hfuel; lia|]);
    unfold packedPath; cbn [map List.concat fst snd pathLoop].
  - rewrite app_nil_r, Hf. cbn [Nat.leb].
    rewrite firstn_all2, skipn_all2 by lia. cbn [List.length Nat.leb].
    now rewrite pathLoop_nil.
  - inversion Hh as [|h hs [H3 H20] Hrest]; subst. cbn [fst snd] in *.
    rewrite length_app, Hf. cbn [Nat.add Nat.leb].
    rewrite (firstn_exact _ _ _ Hf), (skipn_exact _ _ _ Hf).
    rewrite <- !app_assoc, !length_app, H3. cbn [Nat.add Nat.leb].
    rewrite (skipn_exact _ _ _ H3).
    rewrite (byteAt_app fee _ 0), (byteAt_app fee _ 1), (byteAt_app fee _ 2)
      by (rewrite H3; lia).
    fold (feeOf fee). fold (addressOf first).
    change (tok ++ List.concat (map (fun h => fst h ++ snd h) hops))%list
      with (packedPath tok hops).
    rewrite (IH tok); [|now split|simpl List.length in Hfuel; lia].
    cbn [map lastFee fold_left fst]. now rewrite <- app_assoc.
Qed.

End Loop.

Lemma packedPath_length (first : list Byte.byte) (hops : list Hop) :
  wellSized first hops ->
  (List.length hops <= List.length (packedPath first hops))%nat.
Proof.
  intros [_ Hh]. unfold packedPath. rewrite length_app.
  induction Hh as [|h hops [H3 H20] _ IH]; cbn [map List.concat List.length];
    [lia|].
  rewrite !length_app, H3, H20. lia.
Qed.

(** X26: what the V3 decoder reads from a packed path of any number of hops:
    every token in order, [tokenIn] the first and [tokenOut] the last, all
    in lowercase form, and as [fees] the fee of the last hop only ([0] for a
    path without a hop). *)
Theorem decodeV3Path_packed (getAddress : string -> string)
    (first : list Byte.byte) (hops : list Hop) :
  wellSized first hops ->
  let addressOf token :=
    Constants.normalizeAddress (getAddress (hexlify token)) in
  let decoded := decodeV3Path getAddress (packedPath first hops) in
  p_tokens decoded = map addressOf (first :: map snd hops)
  /\ p_tokenIn decoded = Some (addressOf first)
  /\ p_tokenOut decoded
     = option_map addressOf (lastElem (first :: map snd hops))
  /\ p_fees decoded = lastFee 0 hops.
Proof.
  intros Hw addressOf decoded. unfold decoded, decodeV3Path.
  rewrite (pathLoop_packed getAddress hops first [] 0 _ Hw)
    by (pose proof (packedPath_length first hops Hw); lia).
  cbn beta. cbn [app p_tokens p_tokenIn p_tokenOut p_fees].
  change (fun token => Constants.normalizeAddress (getAddress (hexlify token)))
    with addressOf.
  assert (Hn : forall t, Constants.normalizeAddress (addressOf t) = addressOf t).
  { intros t. unfold addressOf, Constants.normalizeAddress.
    destruct (getAddress (hexlify t)) as [|c r]; [reflexivity|].
    cbn [JS.toLowerCase]. exact (JSFacts.toLowerCase_idem (String c r)). }
  assert (Hl : forall l, lastElem (map addressOf l)
                         = option_map addressOf (lastElem l)).
  { intros l. unfold lastElem. now rewrite length_map, nth_error_map. }
  split; [reflexivity|]. rewrite Hl. cbn [map nth_error].
  destruct (lastElem (first :: map snd hops));
    cbn [Constants.normalizeAddressOpt option_map]; rewrite ?Hn; repeat split.
Qed.

Lemma decodeV3Path_packed_witness :
  p_fees (decodeV3Path (fun a => a)
            (packedPath Cases.token11
               [(Cases.fee500, Cases.token22); (Cases.fee2500, Cases.token33)]))
  = 2500.
Proof.
  pose proof (decodeV3Path_packed (fun a => a) Cases.token11
                [(Cases.fee500, Cases.token22); (Cases.fee2500, Cases.token33)])
    as H.
  cbv zeta in H. destruct H as (_ & _ & _ & Hf).
  - split; [reflexivity|]. repeat constructor.
  - exact Hf.
Defined.

End V3PathFacts.
